(** * CubeWizard: the visual extraction pipeline of [image_processor.py]

    A shallow embedding of [ImageProcessor] (format normaliser, resizer,
    orientation corrector and multi-pass recogniser) together with the
    parts of [ConfigManager] it reads, followed by the properties of the
    pipeline that the specification states. The batch entry point
    [process_multiple_images] and the traversal of the CubeCobra reply in
    [fetch_cubecobra_list] are embedded as well, with properties of their
    own.

    Python values are embedded as follows.
    - [str] is [string]; [str.lower] acts on the ASCII letters, which is
      all that membership in ['.jpg', '.jpeg', '.png'] can observe.
    - [pathlib.Path] (POSIX flavour; [suffix] and [stem] as CPython
      defines them up to 3.13) is a record of a root and the list of its
      components.
    - a Python [set] of names is a [gset string]; a [dict]-like disk is a
      [gmap string file] keyed by the path string handed to the OS.
    - the disk, the Recognition Engine and CubeCobra are the environment:
      the disk and the log of engine calls are threaded through a state
      and exception monad, the engine and the network are oracles.
    - the JSON of a reply is an inductive type, its dicts [gmap]s. *)

From Stdlib Require Import ZArith Ascii String List Bool Lia.
From Stdlib Require Import SpecFloat.
From stdpp Require Import base option list strings gmap sorting pretty.

Local Open Scope string_scope.
Local Open Scope Z_scope.

(** ** Strings *)

Module Str.

(** [c.lower()] on one ASCII character. *)
Definition lower_ascii (c : ascii) : ascii :=
  let n := nat_of_ascii c in
  if ((65 <=? n) && (n <=? 90))%nat then ascii_of_nat (n + 32) else c.

(** [s.lower()] *)
Fixpoint lower (s : string) : string :=
  match s with
  | EmptyString => EmptyString
  | String c s' => String (lower_ascii c) (lower s')
  end.

(** [needle in hay] for two strings. *)
Fixpoint contains (needle hay : string) : bool :=
  String.prefix needle hay ||
  match hay with
  | EmptyString => false
  | String _ hay' => contains needle hay'
  end.

(** [s[:n]] and [s[n:]] for [0 <= n]. *)
Fixpoint take (n : nat) (s : string) : string :=
  match n, s with
  | S n', String c s' => String c (take n' s')
  | _, _ => EmptyString
  end.

Fixpoint drop (n : nat) (s : string) : string :=
  match n, s with
  | S n', String _ s' => drop n' s'
  | _, _ => s
  end.

(** [s.rfind('.')], [None] standing for -1. *)
Fixpoint rfind_dot (s : string) : option nat :=
  match s with
  | EmptyString => None
  | String c s' =>
      match rfind_dot s' with
      | Some i => Some (S i)
      | None => if Ascii.eqb c "." then Some 0%nat else None
      end
  end.

(** [s.split('/')] *)
Fixpoint split_slash (s : string) : list string :=
  match s with
  | EmptyString => [EmptyString]
  | String c s' =>
      if Ascii.eqb c "/" then EmptyString :: split_slash s'
      else match split_slash s' with
           | h :: t => String c h :: t
           | [] => [String c EmptyString]
           end
  end.

(** ['/'.join(parts)] *)
Fixpoint join_slash (parts : list string) : string :=
  match parts with
  | [] => EmptyString
  | [p] => p
  | p :: ps => p ++ "/" ++ join_slash ps
  end.

(** Whether the first character is a slash. *)
Definition head_slash (s : string) : bool :=
  match s with
  | String c _ => Ascii.eqb c "/"
  | EmptyString => false
  end.

(** [True] when [s] has no ['/']. *)
Fixpoint slash_free (s : string) : bool :=
  match s with
  | EmptyString => true
  | String c s' => negb (Ascii.eqb c "/") && slash_free s'
  end.

End Str.

(** ** [pathlib.PurePosixPath] *)

Module PurePath.

Record t := make { root : string; tail : list string }.

(** A component kept by the parser: not empty and not ["."]. *)
Definition kept (c : string) : bool :=
  negb (String.eqb c "") && negb (String.eqb c ".").

(** POSIX [splitroot]: exactly two leading slashes are a root of their
    own, one or three and more collapse to ["/"]. *)
Definition root_of (s : string) : string :=
  match s with
  | String "/" (String "/" (String "/" _)) => "/"
  | String "/" (String "/" _) => "//"
  | String "/" _ => "/"
  | _ => ""
  end.

(** [Path(s)] *)
Definition Path (s : string) : t :=
  {| root := root_of s; tail := List.filter kept (Str.split_slash s) |}.

(** [str(p)] *)
Definition str (p : t) : string :=
  match root p, tail p with
  | EmptyString, [] => "."
  | r, parts => r ++ Str.join_slash parts
  end.

(** [p.name] *)
Definition name (p : t) : string := List.last (tail p) "".

(** [p.suffix]: the part of the name from its last dot on, when that dot
    is neither the first nor the last character. *)
Definition suffix (p : t) : string :=
  let n := name p in
  match Str.rfind_dot n with
  | Some i =>
      if ((0 <? i) && (i <? String.length n - 1))%nat then Str.drop i n else ""
  | None => ""
  end.

(** [p.stem] *)
Definition stem (p : t) : string :=
  let n := name p in
  match Str.rfind_dot n with
  | Some i =>
      if ((0 <? i) && (i <? String.length n - 1))%nat then Str.take i n else n
  | None => n
  end.

(** [p.parent] *)
Definition parent (p : t) : t :=
  {| root := root p; tail := List.removelast (tail p) |}.

(** [p / child]: an anchored right operand replaces the left one,
    otherwise its components are appended. *)
Definition joinpath (p : t) (child : string) : t :=
  let c := Path child in
  if String.eqb (root c) "" then {| root := root p; tail := tail p ++ tail c |}
  else c.

(** A name that [Path] keeps as one component. *)
Definition plain (n : string) : Prop := Str.slash_free n = true ∧ kept n = true.

(** The paths in normal form: what [Path] returns. *)
Definition normal (p : t) : Prop :=
  root p ∈ [""; "/"; "//"] ∧ Forall plain (tail p).

End PurePath.

(** ** [ConfigManager] *)

(** [config.ini] after parsing: [ints] holds the options that
    [ConfigParser.getint] can read, [bools] those [getboolean] can read.
    An option that is missing or does not parse is absent from the map. *)
Record ConfigManager := {
  ints : gmap (string * string) Z;
  bools : gmap (string * string) bool
}.

Section Config.
Variable config : ConfigManager.

Definition get_int (section key : string) (default : Z) : Z :=
  match ints config !! (section, key) with
  | Some v => v
  | None => default
  end.

Definition get_bool (section key : string) (default : bool) : bool :=
  match bools config !! (section, key) with
  | Some v => v
  | None => default
  end.

Definition get_expected_deck_size : Z :=
  get_int "output" "expected_deck_size" 40.

Definition get_use_multi_pass_detection : bool :=
  get_bool "image_processing" "use_multi_pass_detection" true.

Definition get_enable_validation_pass : bool :=
  get_bool "image_processing" "enable_validation_pass" true.
End Config.

(** ** Images and files (the part of PIL the pipeline relies on) *)

(** Pixel data, kept symbolically as the operations that produced it. *)
Inductive raster :=
| Pixels (id : nat)
| Rotated (counter_clockwise : Z) (r : raster)
| Converted (mode : string) (r : raster)
| Thumbnail (size : Z * Z) (r : raster).

Module Image.
Record t := make {
  mode : string;
  size : Z * Z;          (* (width, height) *)
  pixels : raster
}.
End Image.

(** The arguments of [img.save]: an explicit format or [None] (PIL then
    picks the encoder from the extension of the path) and the keywords. *)
Record save_args := {
  format : option string;
  quality : option Z;
  optimize : bool
}.

(** What a path holds: bytes PIL cannot identify, or an image together
    with the way it was encoded. *)
Inductive file :=
| Undecodable (bytes : nat)
| Encoded (how : save_args) (img : Image.t).

(** PIL modes that carry transparency ([Image.has_transparency_data],
    palette transparency aside). *)
Definition has_alpha (m : string) : bool :=
  bool_decide (m ∈ ["RGBA"; "LA"; "PA"; "RGBa"; "La"]).

(** ** The Recognition Engine *)

Record OrientationResult := {
  rotation_needed : Z;
  confidence : string;
  reasoning : option string
}.

Record CardExtractionResult := {
  card_names : list string;
  confidence_level : string;
  notes : option string
}.

Module ExtractionResult.
Record t := make { card_names : list string; oriented_image_path : string }.
End ExtractionResult.

(** The instruction texts, kept as the values interpolated into them. *)
Inductive prompt :=
| ExtractionPrompt (cube_context : option (list string))
| MissedFocusPrompt (found : nat) (previously_found : list string) (expected_total : Z)
| ValidationPrompt (found_cards : nat) (already_found : gset string) (unfound_cards : list string).

(** One call of [client.responses.parse], by its [text_format]. *)
Inductive engine_call :=
| OrientationCall (image : file)
| ExtractionCall (p : prompt) (image : file).

(** What a call does: it raises, or it returns a response whose
    [output_parsed] is [None] or a structured result. *)
Inductive reply (A : Type) :=
| EngineRaises
| Response (output_parsed : option A).
Arguments EngineRaises {A}.
Arguments Response {A} _.

(** What the mainboard loop of [fetch_cubecobra_list] ends with. *)
Inductive cubecobra_reply :=
| RequestFailed                       (* RequestException, KeyError or ValueError *)
| MainboardNames (names : list string)
| UnexpectedShape                     (* a [TypeError], which the function does not catch *)
| UnnamedCard.                        (* the [AttributeError] of [card['details'].keys()] *)

(** ** Exceptions, the world and the monad *)

Inductive exn :=
| FileNotFoundError
| UnidentifiedImageError
| SaveError            (* OSError or ValueError out of [Image.save] *)
| EngineError          (* whatever [responses.parse] raised *)
| AttributeError
| UnboundLocalError
| TypeError
| OverflowError
| SystemExit.

(** [except Exception] catches everything here but [SystemExit]. *)
Definition is_Exception (e : exn) : bool :=
  match e with SystemExit => false | _ => true end.

Record world := {
  disk : gmap string file;
  engine_log : list engine_call;     (* calls made so far, oldest first *)
  fetch_log : list string            (* cube ids requested from CubeCobra *)
}.

Definition with_disk (d : gmap string file) (w : world) : world :=
  {| disk := d; engine_log := engine_log w; fetch_log := fetch_log w |}.

Definition log_calls (cs : list engine_call) (w : world) : world :=
  {| disk := disk w; engine_log := engine_log w ++ cs; fetch_log := fetch_log w |}.

Definition log_fetch (cube_id : string) (w : world) : world :=
  {| disk := disk w; engine_log := engine_log w; fetch_log := fetch_log w ++ [cube_id] |}.

Inductive outcome (A : Type) :=
| Return (a : A)
| Raise (e : exn).
Arguments Return {A} _.
Arguments Raise {A} _.

Definition M (A : Type) : Type := world → outcome A * world.

Global Instance M_ret : MRet M := λ A a w, (Return a, w).
Global Instance M_bind : MBind M := λ A B f m w,
  match m w with
  | (Return a, w') => f a w'
  | (Raise e, w') => (Raise e, w')
  end.

Definition raise {A} (e : exn) : M A := λ w, (Raise e, w).

(** [try: body / except Exception: handler] *)
Definition try_except {A} (body : M A) (handler : exn → M A) : M A := λ w,
  match body w with
  | (Raise e, w') => if is_Exception e then handler e w' else (Raise e, w')
  | r => r
  end.

(** A [try] block cut at a statement: [body] runs under the handler and
    [rest], the statements after it, run with the value it bound. [rest]
    brings its own handler, which sees the locals bound so far. *)
Definition try_then {A B} (body : M A) (handler : exn → M B) (rest : A → M B) : M B := λ w,
  match body w with
  | (Return a, w') => rest a w'
  | (Raise e, w') => if is_Exception e then handler e w' else (Raise e, w')
  end.

(** [try: body / finally: cleanup] *)
Definition try_finally {A} (body : M A) (cleanup : M ()) : M A := λ w,
  match body w with
  | (r, w') =>
      match cleanup w' with
      | (Return _, w'') => (r, w'')
      | (Raise e, w'') => (Raise e, w'')
      end
  end.

(** The collaborators of one run. *)
Record environment := {
  config : ConfigManager;
  (** the engine's answer to the [n]-th call, by what it is sent *)
  orientation_engine : nat → file → reply OrientationResult;
  extraction_engine : nat → prompt → file → reply CardExtractionResult;
  (** whether [img.save(path, ...)] succeeds (encoder and OS) *)
  save_ok : string → save_args → Image.t → bool;
  (** PIL's canvas for [rotate(angle, expand=True)] off the right angles *)
  expanded_size : Z → Z * Z → Z * Z;
  (** PIL's aspect-preserving size for [thumbnail] *)
  thumbnail_size : Z * Z → Z * Z → Z * Z;
  cubecobra : string → cubecobra_reply
}.

(** ** Python arithmetic on the coverage threshold *)

(** The binary64 literal [0.9]. *)
Definition float_0_9 : spec_float := S754_finite false 8106479329266893 (-53).

(** [float(z)], as in [int * float]: correctly rounded, [None] for the
    [OverflowError] of an integer beyond the finite doubles. *)
Definition float_of_int (z : Z) : option spec_float :=
  match binary_normalize 53 1024 z 0 false with
  | S754_infinity _ => None
  | f => Some f
  end.

(** [n < x] for an [int] and a [float]: Python compares the exact values. *)
Definition int_lt_float (n : Z) (x : spec_float) : bool :=
  match x with
  | S754_zero _ => n <? 0
  | S754_infinity s => negb s
  | S754_nan => false
  | S754_finite s m e =>
      let v := if s then Z.neg m else Z.pos m in
      if 0 <=? e then n <? v * 2 ^ e else n * 2 ^ (- e) <? v
  end.

(** [found_cards < expected_total * 0.9] *)
Definition below_coverage (found_cards expected_total : Z) : option bool :=
  match float_of_int expected_total with
  | Some x => Some (int_lt_float found_cards (SFmul 53 1024 x float_0_9))
  | None => None
  end.

(** [l[:n]] for a list, with Python's reading of a negative bound. *)
Definition slice_to {A} (n : Z) (l : list A) : list A :=
  if 0 <=? n then take (Z.to_nat n) l
  else take (length l - Z.to_nat (- n)) l.

(** [sorted(set(names))] *)
Definition sorted_set (names : list string) : list string :=
  merge_sort String.le (remove_dups names).

(** The truth value of an [Optional[List[str]]] and of an [Optional[str]]. *)
Definition truthy_list (l : option (list string)) : bool :=
  match l with
  | Some (_ :: _) => true
  | _ => false
  end.

Definition truthy_str (s : option string) : bool :=
  match s with
  | Some (String _ _) => true
  | _ => false
  end.

(** [all_cards.update(cards)] *)
Definition update (all_cards : gset string) (cards : list string) : gset string :=
  all_cards ∪ list_to_set cards.

(** ** [ImageProcessor] *)

Section ImageProcessor.
Variable env : environment.

Import PurePath.

(** *** Primitives: the disk, PIL and the engine *)

(** [Image.open(path)] *)
Definition Image_open (path : string) : M Image.t := λ w,
  match disk w !! path with
  | None => (Raise FileNotFoundError, w)
  | Some (Undecodable _) => (Raise UnidentifiedImageError, w)
  | Some (Encoded _ img) => (Return img, w)
  end.

(** [img.save(path, ...)] *)
Definition Image_save (img : Image.t) (path : string) (how : save_args) : M () := λ w,
  if save_ok env path how img
  then (Return (), with_disk (<[path := Encoded how img]> (disk w)) w)
  else (Raise SaveError, w).

(** [open(path, "rb").read()] *)
Definition read_bytes (path : string) : M file := λ w,
  match disk w !! path with
  | None => (Raise FileNotFoundError, w)
  | Some f => (Return f, w)
  end.

(** [os.path.exists(path)] *)
Definition os_path_exists (path : string) : M bool := λ w,
  (Return (bool_decide (is_Some (disk w !! path))), w).

(** [os.remove(path)] *)
Definition os_remove (path : string) : M () := λ w,
  match disk w !! path with
  | None => (Raise FileNotFoundError, w)
  | Some _ => (Return (), with_disk (delete path (disk w)) w)
  end.

(** [img.rotate(angle, expand=True)] for an integer angle in [0, 360):
    the right angles are transpositions, the others resample onto the
    canvas PIL computes. *)
Definition Image_rotate (angle : Z) (img : Image.t) : Image.t :=
  let '(w, h) := Image.size img in
  let size' :=
    if angle =? 0 then (w, h)
    else if angle =? 180 then (w, h)
    else if (angle =? 90) || (angle =? 270) then (h, w)
    else expanded_size env angle (w, h) in
  Image.make (Image.mode img) size' (Rotated angle (Image.pixels img)).

(** [img.convert(mode)] *)
Definition Image_convert (m : string) (img : Image.t) : Image.t :=
  Image.make m (Image.size img) (Converted m (Image.pixels img)).

(** [img.thumbnail(max_size, LANCZOS)], reached only when the image
    exceeds the bound. *)
Definition Image_thumbnail (max_size : Z * Z) (img : Image.t) : Image.t :=
  let size' := thumbnail_size env max_size (Image.size img) in
  Image.make (Image.mode img) size' (Thumbnail size' (Image.pixels img)).

(** [client.responses.parse(..., text_format=OrientationResult)] *)
Definition responses_parse_orientation (image : file) : M (option OrientationResult) := λ w,
  let w' := log_calls [OrientationCall image] w in
  match orientation_engine env (length (engine_log w)) image with
  | EngineRaises => (Raise EngineError, w')
  | Response r => (Return r, w')
  end.

(** [client.responses.parse(..., text_format=CardExtractionResult)] *)
Definition responses_parse_extraction (p : prompt) (image : file) : M (option CardExtractionResult) := λ w,
  let w' := log_calls [ExtractionCall p image] w in
  match extraction_engine env (length (engine_log w)) p image with
  | EngineRaises => (Raise EngineError, w')
  | Response r => (Return r, w')
  end.

(** *** Methods *)

Definition fetch_cubecobra_list (cube_id : string) : M (option (list string)) := λ w,
  let w' := log_fetch cube_id w in
  match cubecobra env cube_id with
  | RequestFailed => (Return None, w')
  | MainboardNames names => (Return (Some (sorted_set names)), w')
  | UnexpectedShape => (Raise TypeError, w')
  | UnnamedCard => (Raise AttributeError, w')
  end.

Definition encode_image (image_path : string) : M file :=
  read_bytes image_path.

Definition _convert_to_compatible_format (image_path : string) : M string :=
  let original_path := Path image_path in
  let file_extension := Str.lower (suffix original_path) in
  if bool_decide (file_extension ∈ [".jpg"; ".jpeg"; ".png"]) then mret image_path
  else
    try_except
      (img ← Image_open image_path;
       if bool_decide (Image.mode img ∈ ["RGBA"; "P"]) then
         let converted_path :=
           joinpath (parent original_path) (stem original_path ++ "_converted.png") in
         Image_save img (str converted_path)
           {| format := Some "PNG"; quality := None; optimize := true |};;
         mret (str converted_path)
       else
         let img := if bool_decide (Image.mode img ≠ "RGB")
                    then Image_convert "RGB" img else img in
         let converted_path :=
           joinpath (parent original_path) (stem original_path ++ "_converted.jpg") in
         let quality := get_int (config env) "image_processing" "image_quality" 95 in
         Image_save img (str converted_path)
           {| format := Some "JPEG"; quality := Some quality; optimize := true |};;
         mret (str converted_path))
      (λ _, mret image_path).

(** The [except] clause of [detect_image_orientation]. The two locals it
    reads come as arguments: [processed_image_path] when it is bound,
    and whether [response] is. Printing an unbound [response] raises
    [UnboundLocalError] before [SystemExit] is reached. *)
Definition detection_failed (image_path : string)
    (processed_image_path : option string) (response_bound : bool) (e : exn) : M Z :=
  try_except
    (match processed_image_path with
     | Some processed_image_path =>
         if bool_decide (processed_image_path ≠ image_path)
         then os_remove processed_image_path else mret ()
     | None => mret ()
     end)
    (λ _, mret ());;
  if response_bound then raise SystemExit else raise UnboundLocalError.

Definition detect_image_orientation (image_path : string) : M Z :=
  try_then (_convert_to_compatible_format image_path)
    (detection_failed image_path None false) (λ processed_image_path,
  try_then (base64_image ← encode_image processed_image_path;
            responses_parse_orientation base64_image)
    (detection_failed image_path (Some processed_image_path) false) (λ response,
  try_except
    (match response with
     | None => raise AttributeError      (* [result.rotation_needed] on [None] *)
     | Some result =>
         (if bool_decide (processed_image_path ≠ image_path)
          then try_except (os_remove processed_image_path) (λ _, mret ())
          else mret ());;
         mret (rotation_needed result)
     end)
    (detection_failed image_path (Some processed_image_path) true))).

(** The [save_kwargs] dictionary, filled from a lower-cased suffix. *)
Definition save_kwargs (suffix_lower : string) : save_args :=
  if bool_decide (suffix_lower ∈ [".jpg"; ".jpeg"]) then
    {| format := None;
       quality := Some (get_int (config env) "image_processing" "image_quality" 95);
       optimize := true |}
  else if bool_decide (suffix_lower = ".png") then
    {| format := None; quality := None; optimize := true |}
  else {| format := None; quality := None; optimize := false |}.

Definition rotate_and_save_image (image_path : string) (rotation_degrees : Z)
    (output_path : option string) : M string :=
  if rotation_degrees =? 0 then mret image_path
  else
    try_except
      (img ← Image_open image_path;
       let pil_rotation := (360 - rotation_degrees) `mod` 360 in
       let rotated_img := Image_rotate pil_rotation img in
       let output_path :=
         match output_path with
         | None =>
             let original_path := Path image_path in
             str (joinpath (parent original_path)
                    (stem original_path ++ "_rotated" ++ suffix original_path))
         | Some output_path => output_path
         end in
       let output_path_obj := Path output_path in
       Image_save rotated_img output_path
         (save_kwargs (Str.lower (suffix output_path_obj)));;
       mret output_path)
      (λ _, mret image_path).

Definition resize_image_if_needed (image_path : string) (max_size : option (Z * Z)) : M string :=
  let max_size :=
    match max_size with
    | None => (get_int (config env) "image_processing" "max_image_width" 2048,
               get_int (config env) "image_processing" "max_image_height" 2048)
    | Some max_size => max_size
    end in
  img ← Image_open image_path;
  if (fst (Image.size img) <=? fst max_size) && (snd (Image.size img) <=? snd max_size)
  then mret image_path
  else
    let img := Image_thumbnail max_size img in
    let original_path := Path image_path in
    let resized_path :=
      joinpath (parent original_path)
        (stem original_path ++ "_resized" ++ suffix original_path) in
    Image_save img (str resized_path)
      (save_kwargs (Str.lower (suffix original_path)));;
    mret (str resized_path).

Definition _single_pass_extraction (base64_image : file) (p : prompt)
    (image_path : string) : M (list string) :=
  try_except
    (result ← responses_parse_extraction p base64_image;
     match result with
     | Some result => mret (card_names result)
     | None => mret []
     end)
    (λ _, mret []).

Definition _multi_pass_extraction (base64_image : file) (base_prompt : prompt)
    (cube_card_list : option (list string)) (image_path : string) : M (list string) :=
  let all_cards : gset string := ∅ in
  first_pass_cards ← _single_pass_extraction base64_image base_prompt image_path;
  let all_cards := update all_cards first_pass_cards in
  all_cards ←
    (if truthy_list cube_card_list && bool_decide (0 < length first_pass_cards)%nat then
       let expected_total := get_expected_deck_size (config env) in
       let missed_focus_prompt :=
         MissedFocusPrompt (length first_pass_cards) first_pass_cards expected_total in
       second_pass_cards ← _single_pass_extraction base64_image missed_focus_prompt image_path;
       let all_cards := update all_cards second_pass_cards in
       if truthy_list cube_card_list && get_enable_validation_pass (config env) then
         let found_cards := size all_cards in
         match below_coverage (Z.of_nat found_cards) expected_total with
         | None => raise OverflowError
         | Some false => mret all_cards
         | Some true =>
             let unfound_cards :=
               filter (λ card, card ∉ all_cards) (default [] cube_card_list) in
             if bool_decide (unfound_cards ≠ []) then
               let validation_prompt :=
                 ValidationPrompt found_cards all_cards unfound_cards in
               third_pass_cards ←
                 _single_pass_extraction base64_image validation_prompt image_path;
               mret (update all_cards third_pass_cards)
             else mret all_cards
         end
       else mret all_cards
     else mret all_cards);
  let final_cards := elements all_cards in
  mret final_cards.

(** The loop of the [finally] clause of [extract_card_names]. *)
Fixpoint remove_files (cleanup_files : list string) : M () :=
  match cleanup_files with
  | [] => mret ()
  | file_path :: rest =>
      try_except
        (os_path_exists file_path ≫= λ present : bool,
         if present then os_remove file_path else mret ())
        (λ _, mret ());;
      remove_files rest
  end.

Definition extract_card_names (image_path : string) (cubecobra_id : option string)
    (use_multi_pass : bool) : M (list string) :=
  compatible_image_path ← _convert_to_compatible_format image_path;
  processed_image_path ← resize_image_if_needed compatible_image_path None;
  base64_image ← encode_image processed_image_path;
  let cleanup_files :=
    ((if bool_decide (compatible_image_path ≠ image_path) then [compatible_image_path] else [])
     ++ (if bool_decide (processed_image_path ≠ compatible_image_path)
         then [processed_image_path] else []))%list in
  cube_card_list ←
    (if truthy_str cubecobra_id then fetch_cubecobra_list (default "" cubecobra_id)
     else mret None);
  let p :=
    if truthy_list cube_card_list then
      let max_cards_in_prompt := get_int (config env) "cubecobra" "max_cards_in_prompt" 360 in
      ExtractionPrompt (Some (slice_to max_cards_in_prompt (default [] cube_card_list)))
    else ExtractionPrompt None in
  try_finally
    (let use_multi_pass_config := get_use_multi_pass_detection (config env) in
     let actual_multi_pass := use_multi_pass && use_multi_pass_config in
     if actual_multi_pass
     then _multi_pass_extraction base64_image p cube_card_list image_path
     else _single_pass_extraction base64_image p image_path)
    (remove_files cleanup_files).

Definition extract_card_names_with_orientation (image_path : string)
    (cubecobra_id : option string) (use_multi_pass : bool) : M ExtractionResult.t :=
  if Str.contains "_oriented" (stem (Path image_path)) then
    card_names ← extract_card_names image_path cubecobra_id use_multi_pass;
    mret (ExtractionResult.make card_names image_path)
  else
    rotation_needed ← detect_image_orientation image_path;
    oriented_image_path ←
      (if bool_decide (rotation_needed ≠ 0) then
         let original_path := Path image_path in
         let oriented_image_path :=
           str (joinpath (parent original_path)
                  (stem original_path ++ "_oriented" ++ suffix original_path)) in
         rotate_and_save_image image_path rotation_needed (Some oriented_image_path)
       else mret image_path);
    card_names ← extract_card_names oriented_image_path cubecobra_id use_multi_pass;
    mret (ExtractionResult.make card_names oriented_image_path).

End ImageProcessor.

(** *** Batch processing *)

(** [s.endswith(ending)] *)
Definition endswith (s ending : string) : bool :=
  (String.length ending <=? String.length s)%nat &&
  String.eqb (Str.drop (String.length s - String.length ending) s) ending.

(** [posixpath.join(a, b)] *)
Definition os_path_join (a b : string) : string :=
  if Str.head_slash b then b
  else if String.eqb a "" || endswith a "/" then a ++ b
  else a ++ "/" ++ b.

Definition supported_formats : list string :=
  [".jpg"; ".jpeg"; ".png"; ".bmp"; ".tiff"; ".webp"; ".heic"; ".heif"].

(** [filename.lower().endswith(supported_formats)] *)
Definition supported (filename : string) : bool :=
  existsb (endswith (Str.lower filename)) supported_formats.

Section Batch.
Variable env : environment.
(** [os.listdir]: the entries of a directory in the order the OS gives
    them, [None] when there is no such directory. *)
Variable os_listdir : string → option (list string).

(** The loop of [process_multiple_images] over the entries still to be
    visited, [results] being the dictionary filled so far. *)
Fixpoint process_images (image_directory : string) (cubecobra_id : option string)
    (filenames : list string) (results : gmap string (list string))
    : M (gmap string (list string)) :=
  match filenames with
  | [] => mret results
  | filename :: filenames =>
      if supported filename then
        let image_path := os_path_join image_directory filename in
        card_names ← extract_card_names env image_path cubecobra_id true;
        process_images image_directory cubecobra_id filenames
          (<[filename := card_names]> results)
      else process_images image_directory cubecobra_id filenames results
  end.

Definition process_multiple_images (image_directory : string)
    (cubecobra_id : option string) : M (gmap string (list string)) :=
  match os_listdir image_directory with
  | None => raise FileNotFoundError
  | Some filenames => process_images image_directory cubecobra_id filenames ∅
  end.
End Batch.

(** ** The reply of CubeCobra *)

(** What [response.json()] returns. A number is kept as its literal. *)
#[warnings="-register-all"]
Inductive json :=
| JNull
| JBool (b : bool)
| JNumber (literal : string)
| JString (s : string)
| JArray (items : list json)
| JObject (members : gmap string json).

(** A step of the [try] block of [fetch_cubecobra_list]: a value, the
    [KeyError] its last [except] clause catches, or an exception that
    passes both clauses. *)
Inductive attempt (A : Type) :=
| Got (a : A)
| KeyError
| Uncaught (e : exn).
Arguments Got {A} _.
Arguments KeyError {A}.
Arguments Uncaught {A} _.

Global Instance attempt_ret : MRet attempt := λ A a, Got a.
Global Instance attempt_bind : MBind attempt := λ A B f m,
  match m with
  | Got a => f a
  | KeyError => KeyError
  | Uncaught e => Uncaught e
  end.

(** [x[key]] for a string key. *)
Definition subscript (x : json) (key : string) : attempt json :=
  match x with
  | JObject members =>
      match members !! key with
      | Some v => Got v
      | None => KeyError
      end
  | _ => Uncaught TypeError
  end.

Definition is_string (s : string) (x : json) : bool :=
  match x with
  | JString s' => String.eqb s' s
  | _ => false
  end.

(** [key in x] for a string key: a key of a dict, an item of a list, a
    substring of a string. *)
Definition contains_key (key : string) (x : json) : attempt bool :=
  match x with
  | JObject members => Got (bool_decide (is_Some (members !! key)))
  | JArray items => Got (existsb (is_string key) items)
  | JString s => Got (Str.contains key s)
  | _ => Uncaught TypeError
  end.

(** The characters of a string, each a string of its own. *)
Fixpoint characters (s : string) : list json :=
  match s with
  | EmptyString => []
  | String c s' => JString (String c EmptyString) :: characters s'
  end.

(** What [for card in x] visits: the items of a list, the keys of a
    dict, the characters of a string. *)
Definition iterate (x : json) : attempt (list json) :=
  match x with
  | JArray items => Got items
  | JObject members => Got (JString <$> (map_to_list members).*1)
  | JString s => Got (characters s)
  | _ => Uncaught TypeError
  end.

(** The body of the loop for one [card]: the name it appends, if any. *)
Definition card_name (card : json) : attempt (option json) :=
  match card with
  | JObject members =>
      let fallback (details_keys : attempt unit) : attempt (option json) :=
        match members !! "name" with
        | Some name => Got (Some name)           (* [elif 'name' in card] *)
        | None => details_keys;; Got None        (* [else], which prints *)
        end in
      match members !! "details" with
      | Some (JObject details) =>
          match details !! "name" with
          | Some name => Got (Some name)
          | None => fallback (Got tt)
          end
      | Some _ => fallback (Uncaught AttributeError)   (* [card['details'].keys()] *)
      | None => fallback (Got tt)
      end
  | _ => Got None                                (* not a dict: skipped *)
  end.

Fixpoint collect (cards : list json) (card_names : list json) : attempt (list json) :=
  match cards with
  | [] => Got card_names
  | card :: cards =>
      name ← card_name card;
      collect cards (card_names ++ option_list name)%list
  end.

(** Lines 85 to 101: the names appended to [card_names], in order. *)
Definition mainboard_card_names (cube_data : json) : attempt (list json) :=
  cards ← subscript cube_data "cards";
  contains_key "mainboard" cards ≫= λ listed : bool,
  (if listed then subscript cards "mainboard";; Got tt else Got tt);;
  mainboard ← subscript cards "mainboard";
  cards ← iterate mainboard;
  collect cards [].

Definition as_string (x : json) : option string :=
  match x with
  | JString s => Some s
  | _ => None
  end.

Definition hashable (x : json) : bool :=
  match x with
  | JArray _ | JObject _ => false
  | _ => true
  end.

Definition is_dict (x : json) : bool :=
  match x with
  | JObject _ => true
  | _ => false
  end.

Definition iterable (x : json) : bool :=
  match x with
  | JArray _ | JObject _ | JString _ => true
  | _ => false
  end.

(** How [fetch_cubecobra_list] ends for a reply, [None] standing for a
    request that failed, a status that is an error or a body that is not
    JSON. [sorted(set(card_names))] raises [TypeError] on a name that
    cannot be hashed. One end is left out, and is [None] here: names
    that can be hashed but are not all strings, with which the function
    would not return the list of strings it declares. *)
Definition cubecobra_reply_of (response : option json) : option cubecobra_reply :=
  match response with
  | None => Some RequestFailed
  | Some cube_data =>
      match mainboard_card_names cube_data with
      | KeyError => Some RequestFailed
      | Uncaught TypeError => Some UnexpectedShape
      | Uncaught AttributeError => Some UnnamedCard
      | Uncaught _ => None
      | Got card_names =>
          match mapM as_string card_names with
          | Some names => Some (MainboardNames names)
          | None => if forallb hashable card_names then None else Some UnexpectedShape
          end
      end
  end.

(** The name a well-formed card carries. *)
Definition listed_name (card : json) : option json :=
  match card with
  | JObject members =>
      match members !! "details" with
      | Some (JObject details) =>
          match details !! "name" with
          | Some name => Some name
          | None => members !! "name"
          end
      | _ => members !! "name"
      end
  | _ => None
  end.

(** A card whose [details] are no dict and that has no [name] of its own. *)
Definition broken_card (card : json) : bool :=
  match card with
  | JObject members =>
      match members !! "details", members !! "name" with
      | Some details, None => negb (is_dict details)
      | _, _ => false
      end
  | _ => false
  end.

(** ** The caller: [CubeWizard] of [main.py] *)

(** The dictionary of deck metadata, as [parse_filename_metadata] and
    [collect_deck_metadata] fill it; a dictionary with these keys is
    true in a condition. *)
Record deck_metadata := {
  pilot_name : string;
  match_wins : Z;
  match_losses : Z;
  match_draws : Z;
  record_logged : string;
  win_rate : spec_float
}.

(** The value of ["deck"] in the dictionary handed to the database;
    [enriched] is what Scryfall returns for the card names. *)
Record deck_data (enriched : Type) := {
  metadata : deck_metadata;
  image_source : string;
  cube_id : option string;
  processing_timestamp : string;
  total_cards : nat;
  cards : enriched
}.
Arguments metadata {enriched} _.
Arguments image_source {enriched} _.
Arguments cube_id {enriched} _.
Arguments processing_timestamp {enriched} _.
Arguments total_cards {enriched} _.
Arguments cards {enriched} _.

Section CubeWizard.
Variable env : environment.
(** The collaborators of [CubeWizard] outside the image pipeline: the
    user at the terminal, the clock, the working directory, Scryfall and
    the database. [db_get_cube_info] stands for the query together with
    the lines printed from its answer, which is used for nothing else.
    What the methods print is left out. *)
Variable enriched : Type.
Variable collect_deck_metadata : M deck_metadata.
Variable strftime_now : string.
Variable cwd : string.
Variable enrich_card_list : list string → M enriched.
Variable db_add_deck : string → deck_data enriched → M (option Z).
Variable db_get_cube_info : string → M ().

(** The truth value of an [Optional[int]]. *)
Definition truthy_int (n : option Z) : bool :=
  match n with
  | Some n => negb (n =? 0)
  | None => false
  end.

Definition add_deck_to_database (cube_id : string) (deck : deck_data enriched)
    : M (option Z) :=
  if negb (truthy_str (Some cube_id)) then mret None
  else
    try_except
      (deck_id ← db_add_deck cube_id deck;
       if truthy_int deck_id then
         db_get_cube_info cube_id;;
         mret deck_id
       else mret None)
      (λ _, mret None).

(** [str(Path(p).absolute())] *)
Definition absolute (p : string) : string :=
  PurePath.str (PurePath.joinpath (PurePath.Path cwd) p).

Definition process_single_image (image_path : string) (cubecobra_id : option string)
    (metadata : option deck_metadata) : M (option string) :=
  os_path_exists image_path ≫= λ present : bool,
  if negb present then raise FileNotFoundError
  else
    deck_metadata ←
      (match metadata with
       | Some metadata => mret metadata
       | None => collect_deck_metadata
       end);
    let timestamp := strftime_now in
    extraction_result ← extract_card_names_with_orientation env image_path cubecobra_id true;
    let card_names := ExtractionResult.card_names extraction_result in
    let oriented_image_path := ExtractionResult.oriented_image_path extraction_result in
    if bool_decide (card_names = []) then mret None
    else
      card_enriched_data ← enrich_card_list card_names;
      let deck := {|
        metadata := deck_metadata;
        image_source := absolute oriented_image_path;
        cube_id := cubecobra_id;
        processing_timestamp := timestamp;
        total_cards := length card_names;
        cards := card_enriched_data
      |} in
      deck_id ←
        (if truthy_str cubecobra_id then
           try_except (add_deck_to_database (default "" cubecobra_id) deck)
             (λ _, mret None)
         else mret None);
      mret (Some ("Deck processed successfully - " ++ pretty (length card_names) ++ " cards")).

End CubeWizard.

(** ** Vocabulary of the statements *)

(** The sibling of [image_path] whose name carries [marker] between stem
    and suffix: ["_oriented"], ["_rotated"], ["_resized"]. *)
Definition marked (marker image_path : string) : string :=
  let original_path := PurePath.Path image_path in
  PurePath.str
    (PurePath.joinpath (PurePath.parent original_path)
       (PurePath.stem original_path ++ marker ++ PurePath.suffix original_path)).

(** The sibling the Format Normalizer writes. *)
Definition converted (ending image_path : string) : string :=
  let original_path := PurePath.Path image_path in
  PurePath.str
    (PurePath.joinpath (PurePath.parent original_path)
       (PurePath.stem original_path ++ "_converted" ++ ending)).

(** The engine calls logged from [w] to [w']. *)
Definition new_calls (w w' : world) : list engine_call :=
  drop (length (engine_log w)) (engine_log w').

(** The names [_single_pass_extraction] draws from the [n]-th call: those
    of the structured result, none when the call raised or parsed to
    nothing. *)
Definition pass_result (env : environment) (n : nat) (c : engine_call) : list string :=
  match c with
  | ExtractionCall p image =>
      match extraction_engine env n p image with
      | Response (Some result) => card_names result
      | _ => []
      end
  | OrientationCall _ => []
  end.

(** The results of the passes run from [w] to [w'], in order. *)
Definition pass_results (env : environment) (w w' : world) : list (list string) :=
  imap (λ k, pass_result env (length (engine_log w) + k)) (new_calls w w').

(** The exact-string union of some pass results. *)
Definition names_of (passes : list (list string)) : gset string :=
  ⋃ (list_to_set <$> passes).

Definition is_extraction_call (c : engine_call) : bool :=
  match c with ExtractionCall _ _ => true | OrientationCall _ => false end.

(** The four conditions the specification lists for the validation pass,
    read on a run from [w] to [w']: a reference list was supplied, pass 2
    ran, validation is enabled, and the names gathered by the first two
    passes are fewer than [expected_count * 0.9]. *)
Definition pass3_conditions (env : environment) (cube : option (list string))
    (w w' : world) : Prop :=
  is_Some cube ∧
  (2 ≤ length (pass_results env w w'))%nat ∧
  get_enable_validation_pass (config env) = true ∧
  below_coverage (Z.of_nat (size (names_of (take 2 (pass_results env w w')))))
    (get_expected_deck_size (config env)) = Some true.

(** [m] adds only calls that satisfy [P] to the engine log. *)
Definition calls_only (P : engine_call → Prop) {A} (m : M A) : Prop :=
  ∀ w, ∃ cs, engine_log (m w).2 = (engine_log w ++ cs)%list ∧ Forall P cs.

Definition extraction_only {A} (m : M A) : Prop :=
  calls_only (λ c, is_extraction_call c = true) m.

(** Where [rotate_and_save_image] writes. *)
Definition rotation_target (image_path : string) (output_path : option string) : string :=
  default (marked "_rotated" image_path) output_path.

(** The rotation cannot be carried out: the source is missing or does not
    decode, or the rotated image cannot be saved. *)
Definition rotation_fails (env : environment) (image_path : string) (rotation_degrees : Z)
    (output_path : option string) (w : world) : Prop :=
  match disk w !! image_path with
  | Some (Encoded _ img) =>
      let target := rotation_target image_path output_path in
      save_ok env target
        (save_kwargs env (Str.lower (PurePath.suffix (PurePath.Path target))))
        (Image_rotate env ((360 - rotation_degrees) `mod` 360) img) = false
  | _ => True
  end.

(** What the specification asks of the oriented copy at [out], made from
    the image at [image_path] between [w] and [w']. *)
Definition oriented_copy (image_path : string) (w w' : world) (out : string) : Prop :=
  out ≠ image_path ∧
  Str.contains "_oriented" out = true ∧
  ∃ how img how' img',
    disk w !! image_path = Some (Encoded how img) ∧
    disk w' !! out = Some (Encoded how' img') ∧
    Image.size img' = (snd (Image.size img), fst (Image.size img)).


(** The specification's reading of a quarter turn, at one input: whenever
    detection answers 90 the rotation that follows yields an oriented
    copy. *)
Definition quarter_turn_always_persists (env : environment) (image_path : string)
    (w0 : world) : Prop :=
  ∀ w, detect_image_orientation env image_path w0 = (Return 90, w) →
    ∃ out w',
      rotate_and_save_image env image_path 90 (Some (marked "_oriented" image_path)) w
        = (Return out, w') ∧
      oriented_copy image_path w w' out.

(** Whether the double [expected * 0.9] separates the integers exactly as
    the decimal nine tenths of [expected] does. *)
Definition threshold_agrees (expected : Z) : bool :=
  match float_of_int expected with
  | Some x =>
      match SFmul 53 1024 x float_0_9 with
      | S754_zero _ => expected =? 0
      | S754_finite false m e =>
          (e <? 0) && ((Z.pos m - 1) / 2 ^ (- e) =? (9 * expected - 1) / 10)
      | _ => false
      end
  | None => false
  end.

(** The siblings of [image_path] that [extract_card_names] may write and
    delete: the converted copy, the resized copy, and the resized copy of
    the converted one. *)
Definition temporary_names (image_path : string) : list string :=
  [converted ".png" image_path; converted ".jpg" image_path;
   marked "_resized" image_path;
   marked "_resized" (converted ".png" image_path);
   marked "_resized" (converted ".jpg" image_path)].

(** Every name the composed entry point may write or delete. *)
Definition pipeline_names (image_path : string) : list string :=
  (temporary_names image_path ++
   marked "_oriented" image_path :: temporary_names (marked "_oriented" image_path))%list.

(** What an extraction call may carry as cube context: a prefix of the
    list fetched for a cube id that is not empty, cut as the slice
    [[:max_cards_in_prompt]] cuts it. *)
Definition cube_context_of (env : environment) (cubecobra_id : option string)
    (c : engine_call) : Prop :=
  match c with
  | ExtractionCall (ExtractionPrompt (Some cube_context)) _ =>
      ∃ cube_id names,
        cubecobra_id = Some cube_id ∧ cube_id ≠ "" ∧
        cubecobra env cube_id = MainboardNames names ∧ names ≠ [] ∧
        let max_cards_in_prompt := get_int (config env) "cubecobra" "max_cards_in_prompt" 360 in
        cube_context `prefix_of` sorted_set names ∧
        length cube_context =
          if 0 <=? max_cards_in_prompt
          then (Z.to_nat max_cards_in_prompt `min` length (sorted_set names))%nat
          else (length (sorted_set names) - Z.to_nat (- max_cards_in_prompt))%nat
  | _ => True
  end.

(** The [try] block of [extract_card_names]: the prompt built from the
    reference list, and the extraction it is handed to. *)
Definition extraction_step (env : environment) (use_multi_pass : bool) (image : file)
    (cube : option (list string)) (image_path : string) : M (list string) :=
  let p :=
    if truthy_list cube then
      ExtractionPrompt (Some (slice_to
        (get_int (config env) "cubecobra" "max_cards_in_prompt" 360) (default [] cube)))
    else ExtractionPrompt None in
  if use_multi_pass && get_use_multi_pass_detection (config env)
  then _multi_pass_extraction env image p cube image_path
  else _single_pass_extraction env image p image_path.

(** ** Concrete collaborators for the examples *)

Module Scenario.

(** A [config.ini] that sets nothing: every getter answers its default. *)
Definition defaults : ConfigManager := {| ints := ∅; bools := ∅ |}.

(** A photograph as it lies on the disk. *)
Definition photo (mode : string) (width height : Z) : file :=
  Encoded {| format := None; quality := None; optimize := false |}
    (Image.make mode (width, height) (Pixels 0)).

Definition on_disk (path : string) (f : file) : world :=
  {| disk := {[ path := f ]}; engine_log := []; fetch_log := [] |}.

(** [n] card names: ["A"], ["B"], ... *)
Definition deck (n : nat) : list string :=
  (λ i, String (ascii_of_nat (65 + i)) EmptyString) <$> seq 0 n.

(** An engine that answers the [n]-th call with the [n]-th list of names
    and with an unparsed response once the script is over. *)
Definition scripted (script : list (list string))
    : nat → prompt → file → reply CardExtractionResult :=
  λ n _ _,
    match script !! n with
    | Some names =>
        Response (Some {| card_names := names; confidence_level := "high"; notes := None |})
    | None => Response None
    end.

(** An engine that asks for [degrees] of clockwise rotation. *)
Definition turn (degrees : Z) : nat → file → reply OrientationResult :=
  λ _ _, Response (Some {| rotation_needed := degrees; confidence := "high";
                           reasoning := None |}).

(** PIL refuses to write an image with transparency or a palette as
    JPEG; every other save goes through. *)
Definition pil_save_ok (path : string) (how : save_args) (img : Image.t) : bool :=
  let jpeg :=
    match format how with
    | Some f => bool_decide (f = "JPEG")
    | None => bool_decide (Str.lower (PurePath.suffix (PurePath.Path path))
                             ∈ [".jpg"; ".jpeg"])
    end in
  negb (jpeg && (has_alpha (Image.mode img) || bool_decide (Image.mode img = "P"))).

Definition studio (degrees : Z) (script : list (list string)) : environment := {|
  config := defaults;
  orientation_engine := turn degrees;
  extraction_engine := scripted script;
  save_ok := pil_save_ok;
  expanded_size := λ _ size, size;
  thumbnail_size := λ max_size _, max_size;
  cubecobra := λ _, RequestFailed
|}.

(** The same with an engine that is down for orientation calls. *)
Definition engine_down : environment := {|
  config := defaults;
  orientation_engine := λ _ _, EngineRaises;
  extraction_engine := scripted [];
  save_ok := pil_save_ok;
  expanded_size := λ _ size, size;
  thumbnail_size := λ max_size _, max_size;
  cubecobra := λ _, RequestFailed
|}.

(** The same with a CubeCobra answer of an unexpected shape, such as
    [{"cards": []}]: indexing the list with ['mainboard'] raises a
    [TypeError], which [fetch_cubecobra_list] does not catch. *)
Definition odd_cube : environment := {|
  config := defaults;
  orientation_engine := turn 0;
  extraction_engine := scripted [];
  save_ok := pil_save_ok;
  expanded_size := λ _ size, size;
  thumbnail_size := λ max_size _, max_size;
  cubecobra := λ _, UnexpectedShape
|}.

End Scenario.

Module Cases.
Import Scenario.

(** A studio whose CubeCobra answers every cube id with [reply]. *)
Definition cube_shop (reply : cubecobra_reply) (degrees : Z) (script : list (list string))
    : environment := {|
  config := defaults;
  orientation_engine := turn degrees;
  extraction_engine := scripted script;
  save_ok := pil_save_ok;
  expanded_size := λ _ size, size;
  thumbnail_size := λ max_size _, max_size;
  cubecobra := λ _, reply
|}.

(** An engine whose orientation calls come back unparsed. *)
Definition mute : environment := {|
  config := defaults;
  orientation_engine := λ _ _, Response None;
  extraction_engine := scripted [];
  save_ok := pil_save_ok;
  expanded_size := λ _ size, size;
  thumbnail_size := λ max_size _, max_size;
  cubecobra := λ _, RequestFailed
|}.

(** A card as CubeCobra lists it. *)
Definition card (name : string) : json :=
  JObject {[ "cardID" := JString "0000"; "details" := JObject {[ "name" := JString name ]} ]}.

(** A cube with the given mainboard. *)
Definition cube_json (mainboard : json) : json :=
  JObject {[ "cards" := JObject {[ "mainboard" := mainboard ]} ]}.

(** A directory listing: [images] holds the given entries. *)
Definition listing (entries : list string) (dir : string) : option (list string) :=
  if String.eqb dir "images" then Some entries else None.

End Cases.

Module Desk.
Import Scenario.

(** Alice went 3-1: a win rate of [0.75]. *)
Definition alice : deck_metadata := {|
  pilot_name := "Alice";
  match_wins := 3;
  match_losses := 1;
  match_draws := 0;
  record_logged := "2025-01-01T12:00:00";
  win_rate := S754_finite false 6755399441055744 (-53)
|}.

(** A Scryfall that answers with the number of cards it was asked about. *)
Definition count_cards (card_names : list string) : M nat := mret (length card_names).

(** A database that is locked. *)
Definition locked (cube_id : string) (deck : deck_data nat) : M (option Z) :=
  raise TypeError.

(** [process_single_image] at a desk with nobody at the terminal, in
    [/srv], with that Scryfall and that database. *)
Definition process (env : environment) :=
  process_single_image env nat (raise SystemExit) "20250101_120000" "/srv"
    count_cards locked (λ _, mret ()).

End Desk.

(** * Properties *)

(** Unfolding the monad. *)
Ltac run :=
  unfold try_except, try_then, try_finally, mbind, M_bind, mret, M_ret, raise,
    encode_image, Image_open, Image_save, read_bytes, os_remove, os_path_exists; simpl.

(** ** Strings and paths *)

Module StrFacts.
Import Str.

Lemma app_cons c (a b : string) : String c a ++ b = String c (a ++ b).
Proof. reflexivity. Qed.

Lemma app_empty (b : string) : "" ++ b = b.
Proof. reflexivity. Qed.

Lemma app_empty_r (a : string) : a ++ "" = a.
Proof. induction a as [|c a IH]; [done|]. rewrite app_cons. by f_equal. Qed.

Lemma app_assoc (a b c : string) : (a ++ b) ++ c = a ++ b ++ c.
Proof. induction a as [|x a IH]; [done|]. rewrite !app_cons. by f_equal. Qed.

Lemma take_drop n s : take n s ++ drop n s = s.
Proof.
  revert s; induction n as [|n IH]; intros [|c s]; simpl; try reflexivity.
  rewrite app_cons. f_equal. apply IH.
Qed.

Lemma length_app (a b : string) :
  String.length (a ++ b) = (String.length a + String.length b)%nat.
Proof.
  induction a as [|c a IH]; [done|]. rewrite app_cons. simpl. by rewrite IH.
Qed.

Lemma slash_free_app a b : slash_free (a ++ b) = slash_free a && slash_free b.
Proof.
  induction a as [|c a IH]; [done|]. rewrite app_cons. simpl.
  rewrite IH. by rewrite andb_assoc.
Qed.

Lemma slash_free_take n s : slash_free s = true → slash_free (take n s) = true.
Proof.
  revert s; induction n as [|n IH]; intros [|c s]; simpl; try done.
  intros [Hc Hs]%andb_true_iff. rewrite Hc. simpl. by apply IH.
Qed.

Lemma slash_free_drop n s : slash_free s = true → slash_free (drop n s) = true.
Proof.
  revert s; induction n as [|n IH]; intros [|c s]; simpl; try done.
  intros [Hc Hs]%andb_true_iff. by apply IH.
Qed.

Lemma split_slash_nonempty s : split_slash s ≠ [].
Proof.
  destruct s as [|c s]; simpl; [done|].
  destruct (Ascii.eqb c "/"); [done|]. by destruct (split_slash s).
Qed.

Lemma split_slash_app a b :
  split_slash (a ++ String "/" b) = (split_slash a ++ split_slash b)%list.
Proof.
  induction a as [|c a IH]; [done|]. rewrite app_cons. simpl.
  destruct (Ascii.eqb c "/"); [by rewrite IH|].
  rewrite IH. pose proof (split_slash_nonempty a). by destruct (split_slash a).
Qed.

Lemma split_slash_free s : slash_free s = true → split_slash s = [s].
Proof.
  induction s as [|c s IH]; simpl; [done|].
  intros [Hc Hs]%andb_true_iff. apply negb_true_iff in Hc. rewrite Hc.
  by rewrite IH.
Qed.

Lemma split_slash_parts s : Forall (λ c, slash_free c = true) (split_slash s).
Proof.
  induction s as [|c s IH]; simpl; [by repeat constructor|].
  destruct (Ascii.eqb c "/") eqn:Hc; [by constructor|].
  pose proof (split_slash_nonempty s).
  destruct (split_slash s) as [|h t]; [done|].
  inversion_clear IH. constructor; [|done]. simpl. by rewrite Hc.
Qed.

Lemma prefix_app m b : String.prefix m (m ++ b) = true.
Proof.
  induction m as [|c m IH]; [by destruct b|]. rewrite app_cons. simpl.
  by destruct (ascii_dec c c).
Qed.

Lemma contains_prefix m s : String.prefix m s = true → contains m s = true.
Proof. destruct s; simpl; by intros ->. Qed.

Lemma contains_app a m b : contains m (a ++ m ++ b) = true.
Proof.
  induction a as [|c a IH].
  - rewrite app_empty. apply contains_prefix, prefix_app.
  - rewrite app_cons. simpl. rewrite IH. apply orb_true_r.
Qed.
End StrFacts.

Module PurePathFacts.
Import Str StrFacts PurePath.

Lemma root_of_head s :
  head_slash s = false →
  root_of s = "" ∧ root_of ("/" ++ s) = "/" ∧ root_of ("//" ++ s) = "//".
Proof.
  destruct s as [|c s]; [done|]. simpl. intros Hc.
  destruct c as [[] [] [] [] [] [] [] []]; done.
Qed.

Lemma root_of_cases s : root_of s ∈ [""; "/"; "//"].
Proof.
  destruct s as [|c s]; [set_solver|].
  destruct (head_slash (String c s)) eqn:Hc;
    [|apply root_of_head in Hc as (-> & _); set_solver].
  apply Ascii.eqb_eq in Hc as ->.
  destruct (head_slash s) eqn:Hc';
    [|apply root_of_head in Hc' as (_ & E & _); rewrite app_cons, app_empty in E;
      rewrite E; set_solver].
  destruct s as [|c' s]; [done|]. apply Ascii.eqb_eq in Hc' as ->.
  destruct (head_slash s) eqn:Hc'';
    [|apply root_of_head in Hc'' as (_ & _ & E); rewrite !app_cons, app_empty in E;
      rewrite E; set_solver].
  destruct s as [|c'' s]; [done|]. apply Ascii.eqb_eq in Hc'' as ->.
  set_solver.
Qed.

Lemma plain_head n : plain n → head_slash n = false.
Proof.
  intros [Hs Hk]. destruct n as [|c n]; [done|]. simpl in *.
  apply andb_true_iff in Hs as [Hc _]. by apply negb_true_iff in Hc.
Qed.

Lemma Path_plain n : plain n → Path n = {| root := ""; tail := [n] |}.
Proof.
  intros Hn. unfold Path. destruct Hn as [Hs Hk].
  rewrite (split_slash_free _ Hs). simpl. rewrite Hk.
  by destruct (root_of_head n (plain_head n (conj Hs Hk))) as (-> & _).
Qed.

Lemma joinpath_plain p n :
  plain n → joinpath p n = {| root := root p; tail := tail p ++ [n] |}.
Proof. intros Hn. unfold joinpath. by rewrite (Path_plain _ Hn). Qed.

Lemma name_joinpath p n : plain n → name (joinpath p n) = n.
Proof.
  intros Hn. rewrite (joinpath_plain _ _ Hn). unfold name. simpl.
  apply List.last_last.
Qed.

Lemma normal_Path s : normal (Path s).
Proof.
  split; [apply root_of_cases|]. simpl.
  pose proof (split_slash_parts s) as H.
  induction H as [|c l Hc _ IH]; simpl; [constructor|].
  destruct (kept c) eqn:Hk; [|done]. constructor; [by split|done].
Qed.

Lemma normal_parent p : normal p → normal (parent p).
Proof.
  intros [Hr Ht]. split; [done|]. simpl.
  induction Ht as [|c l Hc Hl IH]; simpl; [constructor|].
  destruct l; [constructor|]. by constructor.
Qed.

Lemma normal_joinpath p n : normal p → plain n → normal (joinpath p n).
Proof.
  intros [Hr Ht] Hn. rewrite (joinpath_plain _ _ Hn). split; [done|]. simpl.
  apply Forall_app. split; [done|]. by constructor.
Qed.

Lemma split_join l :
  Forall plain l → l ≠ [] → split_slash (join_slash l) = l.
Proof.
  induction 1 as [|c l [Hc _] Hl IH]; [done|]. intros _.
  destruct l as [|c' l]; [by apply split_slash_free|].
  change (join_slash (c :: c' :: l)) with (c ++ String "/" (join_slash (c' :: l))).
  rewrite split_slash_app, (split_slash_free _ Hc), IH; done.
Qed.

Lemma filter_kept_plain l : Forall plain l → List.filter kept l = l.
Proof.
  induction 1 as [|c l [_ Hk] _ IH]; [done|]. simpl. by rewrite Hk, IH.
Qed.

Lemma join_head l : Forall plain l → head_slash (join_slash l) = false.
Proof.
  destruct 1 as [|c l Hc Hl]; [done|].
  pose proof (plain_head _ Hc) as H.
  destruct l; [done|].
  change (join_slash (c :: s :: l)) with (c ++ String "/" (join_slash (s :: l))).
  destruct Hc as [_ Hk]. destruct c; done.
Qed.

(** Parsing the string form of a normal path gives the path back. *)
Lemma Path_str p : normal p → Path (str p) = p.
Proof.
  destruct p as [r l]. intros [Hr Hl]. simpl in *.
  pose proof (join_head _ Hl) as Hh. apply root_of_head in Hh as (H0 & H1 & H2).
  assert (List.filter kept (split_slash (join_slash l)) = l) as Hsplit.
  { destruct l as [|c l]; [done|]. rewrite split_join; [|done..].
    by apply filter_kept_plain. }
  unfold Path, str. cbn [root tail].
  apply list_elem_of_In in Hr. simpl in Hr.
  destruct Hr as [<-|[<-|[<-|[]]]].
  - destruct l as [|c l]; [done|]. rewrite app_empty. by rewrite H0, Hsplit.
  - rewrite H1. f_equal. rewrite app_cons, app_empty.
    change (split_slash (String "/" ?s)) with ("" :: split_slash s). done.
  - rewrite H2. f_equal. rewrite !app_cons, app_empty.
    change (split_slash (String "/" (String "/" ?s))) with ("" :: "" :: split_slash s).
    done.
Qed.

Lemma slash_free_name s : slash_free (name (Path s)) = true.
Proof.
  unfold name. pose proof (normal_Path s) as [_ H].
  induction H as [|c l [Hc _] Hl IH]; [done|].
  destruct l; [done|]. apply IH.
Qed.

Lemma stem_suffix p : stem p ++ suffix p = name p.
Proof.
  unfold stem, suffix.
  destruct (rfind_dot (name p)) as [i|]; [|apply app_empty_r].
  destruct (_ && _); [apply take_drop|apply app_empty_r].
Qed.

Lemma slash_free_stem s : slash_free (stem (Path s)) = true.
Proof.
  pose proof (slash_free_name s) as H. unfold stem.
  destruct (rfind_dot _); [|done]. destruct (_ && _); [|done].
  by apply slash_free_take.
Qed.

Lemma slash_free_suffix s : slash_free (suffix (Path s)) = true.
Proof.
  pose proof (slash_free_name s) as H. unfold suffix.
  destruct (rfind_dot _); [|done]. destruct (_ && _); [|done].
  by apply slash_free_drop.
Qed.

Lemma rfind_dot_drop n i :
  rfind_dot n = Some i → ∃ rest, drop i n = String "." rest.
Proof.
  revert i. induction n as [|c n IH]; [done|]. simpl. intros i.
  destruct (rfind_dot n) as [j|].
  - intros [= <-]. simpl. by apply IH.
  - destruct (Ascii.eqb c ".") eqn:Hc; [|done]. intros [= <-].
    apply Ascii.eqb_eq in Hc as ->. by exists n.
Qed.

Lemma suffix_head p : suffix p = "" ∨ ∃ rest, suffix p = String "." rest.
Proof.
  unfold suffix. destruct (rfind_dot (name p)) as [i|] eqn:E; [|by left].
  destruct (_ && _); [|by left]. right. by apply rfind_dot_drop.
Qed.

(** The names the pipeline derives: the stem, a marker that is no
    shorter than two characters and has no slash, and an ending. *)
Lemma plain_derived s c1 c2 marker ending :
  slash_free (String c1 (String c2 marker)) = true →
  slash_free ending = true →
  plain (stem (Path s) ++ String c1 (String c2 marker) ++ ending).
Proof.
  intros Hm He. split.
  - rewrite !slash_free_app, slash_free_stem, Hm, He. done.
  - unfold kept. apply andb_true_iff. split; apply negb_true_iff, String.eqb_neq;
      intros E; apply (f_equal String.length) in E;
      rewrite !length_app in E; simpl in E; lia.
Qed.

(** A derived path is not the path it was derived from. *)
Lemma str_joinpath_ne s n :
  plain n → n ≠ name (Path s) → str (joinpath (parent (Path s)) n) ≠ s.
Proof.
  intros Hn Hne E. apply Hne.
  rewrite <- E at 1. rewrite Path_str.
  - symmetry. by apply name_joinpath.
  - apply normal_joinpath; [|done]. apply normal_parent, normal_Path.
Qed.

Lemma str_joinpath_contains p marker a b :
  plain (a ++ marker ++ b) →
  contains marker (str (joinpath p (a ++ marker ++ b))) = true.
Proof.
  intros Hn. rewrite (joinpath_plain _ _ Hn). unfold str. cbn [root tail].
  assert (∃ pre, join_slash (tail p ++ [a ++ marker ++ b]) = pre ++ a ++ marker ++ b)
    as [pre Hpre].
  { induction (tail p) as [|c l [pre IH]]; [by exists ""|].
    destruct l as [|c' l].
    - exists (c ++ "/"). simpl. by rewrite app_assoc.
    - exists (c ++ "/" ++ pre).
      change (join_slash ((c :: c' :: l) ++ [a ++ marker ++ b]))
        with (c ++ "/" ++ join_slash ((c' :: l) ++ [a ++ marker ++ b])).
      rewrite IH. by rewrite !app_assoc. }
  assert (∀ r, contains marker (r ++ pre ++ a ++ marker ++ b) = true) as H.
  { intros r. rewrite <- (app_assoc pre a), <- (app_assoc r). apply contains_app. }
  destruct (root p) as [|c r] eqn:Hr; [|rewrite Hpre; apply H].
  destruct (tail p ++ [(a ++ marker ++ b)%string])%list eqn:El; [by destruct (tail p)|].
  rewrite Hpre. apply (H "").
Qed.

Lemma marked_ne c1 c2 marker s :
  slash_free (String c1 (String c2 marker)) = true →
  marked (String c1 (String c2 marker)) s ≠ s.
Proof.
  intros Hm. apply str_joinpath_ne.
  - apply plain_derived; [done|apply slash_free_suffix].
  - rewrite <- stem_suffix. intros E%(f_equal String.length).
    rewrite !length_app in E. simpl in E. lia.
Qed.

Lemma converted_ne ending s :
  slash_free ending = true → converted ending s ≠ s.
Proof.
  intros He. apply str_joinpath_ne.
  - by apply (plain_derived s "_" "c" "onverted").
  - rewrite <- stem_suffix. intros E%(inj (String.app _)).
    destruct (suffix_head (Path s)) as [H|[rest H]]; rewrite H in E; done.
Qed.

Lemma marked_contains marker s c1 c2 m :
  marker = String c1 (String c2 m) → slash_free marker = true →
  contains marker (marked marker s) = true.
Proof.
  intros -> Hm. apply str_joinpath_contains, plain_derived; [done|].
  apply slash_free_suffix.
Qed.

Lemma rfind_dot_app a b :
  rfind_dot (a ++ b) =
  match rfind_dot b with
  | Some i => Some (String.length a + i)%nat
  | None => rfind_dot a
  end.
Proof.
  induction a as [|c a IH]; [rewrite app_empty; by destruct (rfind_dot b)|].
  rewrite app_cons. simpl. rewrite IH. by destruct (rfind_dot b).
Qed.

Lemma drop_app a b : drop (String.length a) (a ++ b) = b.
Proof. induction a as [|c a IH]; [by destruct b|]. by rewrite app_cons. Qed.

Lemma take_app a b : take (String.length a) (a ++ b) = a.
Proof.
  induction a as [|c a IH]; [by destruct b|]. rewrite app_cons. simpl. by rewrite IH.
Qed.

(** A name made of a non-empty front and one of the two endings the
    Format Normalizer writes splits at that ending. *)
Lemma split_at_ending p a ending :
  name p = a ++ ending → a ≠ "" → ending ∈ [".png"; ".jpg"] →
  stem p = a ∧ suffix p = ending.
Proof.
  intros Hn Ha He. unfold stem, suffix. rewrite Hn, rfind_dot_app.
  assert (rfind_dot ending = Some 0%nat ∧ String.length ending = 4%nat) as [-> Hl].
  { apply list_elem_of_In in He. simpl in He. by destruct He as [<-|[<-|[]]]. }
  rewrite Nat.add_0_r, length_app, Hl.
  assert ((0 <? String.length a)%nat && (String.length a <? String.length a + 4 - 1)%nat
          = true) as ->.
  { destruct a; [done|]. simpl. apply Nat.ltb_lt. lia. }
  by rewrite take_app, drop_app.
Qed.

Lemma name_converted ending s :
  ending ∈ [".png"; ".jpg"] →
  name (Path (converted ending s)) = (stem (Path s) ++ "_converted") ++ ending.
Proof.
  intros He.
  assert (plain (stem (Path s) ++ "_converted" ++ ending)) as Hp.
  { apply (plain_derived s "_" "c" "onverted"); [done|].
    apply list_elem_of_In in He. simpl in He. by destruct He as [<-|[<-|[]]]. }
  unfold converted. rewrite Path_str.
  - rewrite name_joinpath by done. by rewrite app_assoc.
  - apply normal_joinpath; [|done]. apply normal_parent, normal_Path.
Qed.

Lemma name_marked c1 c2 m s :
  slash_free (String c1 (String c2 m)) = true →
  name (Path (marked (String c1 (String c2 m)) s))
  = stem (Path s) ++ String c1 (String c2 m) ++ suffix (Path s).
Proof.
  intros Hm.
  assert (plain (stem (Path s) ++ String c1 (String c2 m) ++ suffix (Path s))) as Hp
    by (apply plain_derived; [done|apply slash_free_suffix]).
  unfold marked. rewrite Path_str.
  - by rewrite name_joinpath.
  - apply normal_joinpath; [|done]. apply normal_parent, normal_Path.
Qed.

(** The resized sibling of a converted copy is not the original either,
    whose extension the Format Normalizer did not accept. *)
Lemma resized_converted_ne ending s :
  ending ∈ [".png"; ".jpg"] →
  lower (suffix (Path s)) ∉ [".jpg"; ".jpeg"; ".png"] →
  marked "_resized" (converted ending s) ≠ s.
Proof.
  intros He Hext E. apply Hext.
  assert (stem (Path s) ++ "_converted" ≠ "") as Hfront.
  { intros H%(f_equal String.length). rewrite length_app in H. simpl in H. lia. }
  destruct (split_at_ending _ _ _ (name_converted ending s He) Hfront He) as [Hstem Hsuffix].
  pose proof (name_marked "_" "r" "esized" (converted ending s) eq_refl) as Hname.
  rewrite E, Hsuffix, <- app_assoc in Hname.
  assert (stem (Path (converted ending s)) ++ "_resized" ≠ "") as Hfront'.
  { intros H%(f_equal String.length). rewrite length_app in H. simpl in H. lia. }
  destruct (split_at_ending _ _ _ Hname Hfront' He) as [_ ->].
  apply list_elem_of_In in He. simpl in He.
  destruct He as [<-|[<-|[]]]; set_solver.
Qed.
End PurePathFacts.

(** ** The coverage threshold *)

(** For a positive divisor, [n * d < a + 1] says [n ≤ a / d]. *)
Lemma below_quotient n a d : 0 < d → n * d < a + 1 ↔ n ≤ a / d.
Proof.
  intros Hd. split; intros H.
  - apply Z.div_le_lower_bound; lia.
  - pose proof (Z.mul_div_le a d Hd) as Hq.
    pose proof (Z.mul_le_mono_nonneg_l n (a / d) d ltac:(lia) H). lia.
Qed.

Lemma threshold_agrees_sound found expected :
  threshold_agrees expected = true →
  below_coverage found expected = Some (10 * found <? 9 * expected).
Proof.
  unfold threshold_agrees, below_coverage.
  destruct (float_of_int expected) as [x|]; [|done].
  destruct (SFmul 53 1024 x float_0_9) as [s|s| |[] m e]; try done.
  - intros ->%Z.eqb_eq. simpl. f_equal. apply eq_true_iff_eq.
    rewrite !Z.ltb_lt. lia.
  - intros [He Hq%Z.eqb_eq]%andb_true_iff. apply Z.ltb_lt in He.
    simpl. assert ((0 <=? e) = false) as -> by (apply Z.leb_gt; lia).
    f_equal. apply eq_true_iff_eq. rewrite !Z.ltb_lt.
    assert (0 < 2 ^ (- e)) as Hpow by (apply Z.pow_pos_nonneg; lia).
    pose proof (below_quotient found (Z.pos m - 1) (2 ^ (- e)) Hpow) as H1.
    pose proof (below_quotient found (9 * expected - 1) 10 ltac:(lia)) as H2.
    rewrite Hq in H1. split; intros H.
    + assert (found * 10 < 9 * expected - 1 + 1) by (apply H2, H1; lia). lia.
    + assert (found * 2 ^ (- e) < Z.pos m - 1 + 1) by (apply H1, H2; lia). lia.
Qed.

Lemma threshold_agrees_up_to_4096 :
  forallb threshold_agrees (Z.of_nat <$> seq 0 (Z.to_nat 4097)) = true.
Proof. vm_compute. reflexivity. Qed.

(** X20. For every deck size from 0 to 4096 the floating-point test of
    the source is the decimal one: [found < expected * 0.9] holds exactly
    when [10 * found < 9 * expected]. *)
Lemma below_coverage_is_nine_tenths found expected :
  0 ≤ expected ≤ 4096 →
  below_coverage found expected = Some (10 * found <? 9 * expected).
Proof.
  intros H. apply threshold_agrees_sound.
  pose proof threshold_agrees_up_to_4096 as Hall.
  rewrite forallb_forall in Hall. apply Hall.
  apply in_map_iff. exists (Z.to_nat expected). split; [lia|].
  apply in_seq. lia.
Qed.

(** ** The multi-pass recogniser *)

Section MultiPass.
Variable env : environment.

Lemma log_calls_app cs cs' w : log_calls cs' (log_calls cs w) = log_calls (cs ++ cs') w.
Proof. unfold log_calls. simpl. by rewrite <- (assoc_L (++)). Qed.

Lemma length_log_calls cs w :
  length (engine_log (log_calls cs w)) = (length (engine_log w) + length cs)%nat.
Proof. unfold log_calls. simpl. apply length_app. Qed.

Lemma new_calls_log_calls cs w : new_calls w (log_calls cs w) = cs.
Proof. unfold new_calls, log_calls. simpl. by rewrite drop_app_length. Qed.

Lemma single_pass_run image p image_path w :
  _single_pass_extraction env image p image_path w =
  (Return (pass_result env (length (engine_log w)) (ExtractionCall p image)),
   log_calls [ExtractionCall p image] w).
Proof.
  unfold _single_pass_extraction, try_except, mbind, M_bind, responses_parse_extraction.
  simpl. by destruct (extraction_engine env _ p image) as [|[r|]].
Qed.

(** [_multi_pass_extraction], run symbolically. *)
Lemma multi_pass_run image p cube image_path w :
  let n := length (engine_log w) in
  let c1 := ExtractionCall p image in
  let R1 := pass_result env n c1 in
  let expected_total := get_expected_deck_size (config env) in
  let c2 := ExtractionCall (MissedFocusPrompt (length R1) R1 expected_total) image in
  let R2 := pass_result env (S n) c2 in
  let S2 := update (update ∅ R1) R2 in
  let unfound := filter (λ card, card ∉ S2) (default [] cube) in
  let c3 := ExtractionCall (ValidationPrompt (size S2) S2 unfound) image in
  let R3 := pass_result env (S (S n)) c3 in
  _multi_pass_extraction env image p cube image_path w =
  if truthy_list cube && bool_decide (0 < length R1)%nat then
    if truthy_list cube && get_enable_validation_pass (config env) then
      match below_coverage (Z.of_nat (size S2)) expected_total with
      | None => (Raise OverflowError, log_calls [c1; c2] w)
      | Some false => (Return (elements S2), log_calls [c1; c2] w)
      | Some true =>
          if bool_decide (unfound ≠ [])
          then (Return (elements (update S2 R3)), log_calls [c1; c2; c3] w)
          else (Return (elements S2), log_calls [c1; c2] w)
      end
    else (Return (elements S2), log_calls [c1; c2] w)
  else (Return (elements (update ∅ R1)), log_calls [c1] w).
Proof.
  intros. unfold _multi_pass_extraction, mbind, M_bind, mret, M_ret.
  rewrite single_pass_run. fold n c1 R1.
  destruct (truthy_list cube && bool_decide (0 < length R1)%nat) eqn:G2; [|done].
  rewrite single_pass_run, length_log_calls, log_calls_app.
  simpl length. rewrite Nat.add_1_r. simpl app.
  fold n expected_total c2 R2 S2.
  destruct (truthy_list cube && get_enable_validation_pass (config env)); [|done].
  destruct (below_coverage _ _) as [[]|]; [|done..].
  fold unfound. destruct (bool_decide (unfound ≠ [])); [|done].
  rewrite single_pass_run, length_log_calls, log_calls_app.
  simpl length. rewrite Nat.add_succ_r, Nat.add_1_r. simpl app.
  done.
Qed.

Lemma pass_results_log_calls cs w :
  pass_results env w (log_calls cs w) =
  imap (λ k, pass_result env (length (engine_log w) + k)) cs.
Proof. unfold pass_results. by rewrite new_calls_log_calls. Qed.

Lemma update_grows all_cards cards : all_cards ⊆ update all_cards cards.
Proof. unfold update. set_solver. Qed.

Lemma elem_of_names_of name passes :
  name ∈ names_of passes ↔ ∃ R, R ∈ passes ∧ name ∈ R.
Proof.
  unfold names_of. rewrite elem_of_union_list. split.
  - intros (X & HX & Hn). apply list_elem_of_fmap in HX as (R & -> & HR).
    exists R. split; [done|]. by apply elem_of_list_to_set in Hn.
  - intros (R & HR & Hn). exists (list_to_set R). split.
    + apply list_elem_of_fmap. by exists R.
    + by apply elem_of_list_to_set.
Qed.

Lemma names_of_take_mono k passes :
  names_of (take k passes) ⊆ names_of (take (S k) passes).
Proof.
  intros name (R & HR & Hn)%elem_of_names_of. apply elem_of_names_of.
  exists R. split; [|done].
  apply list_elem_of_lookup in HR as [i Hi]. apply list_elem_of_lookup. exists i.
  apply lookup_take_Some in Hi as [Hi Hlt]. apply lookup_take_Some. split; [done|lia].
Qed.

Lemma names_of_one R1 : update ∅ R1 = names_of [R1].
Proof.
  unfold names_of, update. simpl.
  by rewrite (left_id_L ∅ (∪)), (right_id_L ∅ (∪)).
Qed.

Lemma names_of_two R1 R2 : update (update ∅ R1) R2 = names_of [R1; R2].
Proof.
  unfold names_of, update. simpl.
  by rewrite (left_id_L ∅ (∪)), (right_id_L ∅ (∪)).
Qed.

Lemma names_of_three R1 R2 R3 :
  update (update (update ∅ R1) R2) R3 = names_of [R1; R2; R3].
Proof.
  unfold names_of, update. simpl.
  by rewrite (left_id_L ∅ (∪)), (right_id_L ∅ (∪)), (assoc_L (∪)).
Qed.

(** C1. Every run of [_multi_pass_extraction] makes one to three engine
    calls, the second exactly when a non-empty reference list came with
    a non-empty first pass, and the card names it returns are the
    exact-string union of the results of the passes it ran. The union
    only grows from pass to pass, every name in it was returned by some
    pass as it stands, and the set handed to the validation pass is the
    union of the first two passes; [update], the one operation on the
    accumulated set, never removes a name. A run ends without a result
    in one case only: after two passes, when the coverage test is
    reached with a configured deck size that Python cannot convert to a
    float, it raises [OverflowError]. *)
Theorem card_name_set_is_union_of_passes image p cube image_path w :
  (∃ outcome w',
    _multi_pass_extraction env image p cube image_path w = (outcome, w') ∧
    disk w' = disk w ∧
    let passes := pass_results env w w' in
    (1 ≤ length passes ≤ 3)%nat ∧
    ((2 ≤ length passes)%nat ↔
       truthy_list cube = true ∧ ∃ R1, passes !! 0%nat = Some R1 ∧ R1 ≠ []) ∧
    (∀ k, names_of (take k passes) ⊆ names_of (take (S k) passes)) ∧
    (∀ found already_found unfound image',
        new_calls w w' !! 2%nat
          = Some (ExtractionCall (ValidationPrompt found already_found unfound) image') →
        already_found = names_of (take 2 passes)) ∧
    match outcome with
    | Return final_cards =>
        NoDup final_cards ∧
        list_to_set final_cards = names_of passes ∧
        (∀ name, name ∈ final_cards → ∃ R, R ∈ passes ∧ name ∈ R)
    | Raise e =>
        e = OverflowError ∧
        length passes = 2%nat ∧
        get_enable_validation_pass (config env) = true ∧
        float_of_int (get_expected_deck_size (config env)) = None
    end) ∧
  (∀ all_cards cards, all_cards ⊆ update all_cards cards).
Proof.
  split; [|apply update_grows].
  pose proof (multi_pass_run image p cube image_path w) as Hrun. cbv zeta in Hrun.
  set (n := length (engine_log w)) in *.
  set (R1 := pass_result env n (ExtractionCall p image)) in *.
  set (c2 := ExtractionCall (MissedFocusPrompt _ _ _) image) in *.
  set (R2 := pass_result env (S n) c2) in *.
  set (S2 := update (update ∅ R1) R2) in *.
  set (c3 := ExtractionCall (ValidationPrompt _ _ _) image) in *.
  set (R3 := pass_result env (S (S n)) c3) in *.
  assert ((0 < length R1)%nat ↔ R1 ≠ []) as HR1
    by (destruct R1; simpl; split; (done || lia)).
  pose proof (names_of_one R1) as HS1.
  pose proof (names_of_two R1 R2) as HS2. fold S2 in HS2.
  pose proof (names_of_three R1 R2 R3) as HS3. fold S2 in HS3.
  rewrite Hrun. clear Hrun.
  assert (∀ cs outcome,
    (1 ≤ length cs ≤ 3)%nat →
    ((2 ≤ length cs)%nat ↔
       truthy_list cube = true ∧
       ∃ R, imap (λ k, pass_result env (n + k)) cs !! 0%nat = Some R ∧ R ≠ []) →
    (∀ found already_found unfound image',
        cs !! 2%nat
          = Some (ExtractionCall (ValidationPrompt found already_found unfound) image') →
        already_found = names_of (take 2 (imap (λ k, pass_result env (n + k)) cs))) →
    match outcome with
    | Return final_cards =>
        final_cards = elements (names_of (imap (λ k, pass_result env (n + k)) cs))
    | Raise e =>
        e = OverflowError ∧ length cs = 2%nat ∧
        get_enable_validation_pass (config env) = true ∧
        float_of_int (get_expected_deck_size (config env)) = None
    end →
    ∃ outcome' w',
      (outcome, log_calls cs w) = (outcome', w') ∧
      disk w' = disk w ∧
      let passes := pass_results env w w' in
      (1 ≤ length passes ≤ 3)%nat ∧
      ((2 ≤ length passes)%nat ↔
         truthy_list cube = true ∧ ∃ R1, passes !! 0%nat = Some R1 ∧ R1 ≠ []) ∧
      (∀ k, names_of (take k passes) ⊆ names_of (take (S k) passes)) ∧
      (∀ found already_found unfound image',
          new_calls w w' !! 2%nat
            = Some (ExtractionCall (ValidationPrompt found already_found unfound) image') →
          already_found = names_of (take 2 passes)) ∧
      match outcome' with
      | Return final_cards =>
          NoDup final_cards ∧
          list_to_set final_cards = names_of passes ∧
          (∀ name, name ∈ final_cards → ∃ R, R ∈ passes ∧ name ∈ R)
      | Raise e =>
          e = OverflowError ∧
          length passes = 2%nat ∧
          get_enable_validation_pass (config env) = true ∧
          float_of_int (get_expected_deck_size (config env)) = None
      end) as Hcase.
  { intros cs outcome Hlen Hgate Hprompt Hout. eexists _, _. split; [done|]. split; [done|].
    cbv zeta. rewrite pass_results_log_calls, new_calls_log_calls, length_imap.
    split_and!; try done; try lia.
    - intros k. apply names_of_take_mono.
    - destruct outcome as [final_cards|e]; [|done]. subst final_cards. split_and!.
      + apply NoDup_elements.
      + apply list_to_set_elements_L.
      + intros name Hn. apply elem_of_names_of. by apply elem_of_elements. }
  destruct (truthy_list cube) eqn:Hcube; simpl.
  2:{ apply Hcase; simpl; [lia| |done|rewrite Nat.add_0_r; exact (f_equal elements HS1)].
      split; [lia|by intros []]. }
  case_bool_decide as Hlen; simpl.
  2:{ apply Hcase; simpl; [lia| |done|rewrite Nat.add_0_r; exact (f_equal elements HS1)].
      split; [lia|]. rewrite Nat.add_0_r. intros [_ (R & [= <-] & HR)].
      by apply HR1 in HR. }
  assert (∃ R, Some R1 = Some R ∧ R ≠ []) as Hgate2.
  { exists R1. split; [done|]. by apply HR1. }
  destruct (get_enable_validation_pass (config env)) eqn:Hvalidation;
    [destruct (below_coverage _ _) as [[]|] eqn:Hcoverage; [case_bool_decide| |]|];
    (apply Hcase; simpl;
     rewrite ?Nat.add_0_r, ?Nat.add_1_r, ?Nat.add_succ_r, ?Nat.add_0_r;
     [lia|split; [intros _; split; [done|exact Hgate2]|lia]|try done|]).
  - intros ? ? ? ? [= _ <- _ _]. done.
  - exact (f_equal elements HS3).
  - exact (f_equal elements HS2).
  - exact (f_equal elements HS2).
  - split_and!; try done. unfold below_coverage in Hcoverage.
    by destruct (float_of_int _).
  - exact (f_equal elements HS2).
Qed.

Local Opaque pass_result.

(** C2, amended. The validation pass runs exactly when the four listed
    conditions hold and, besides, some entry of the reference list is
    not yet among the names gathered by the first two passes. *)
Theorem pass3_runs_iff image p cube image_path w :
  let w' := (_multi_pass_extraction env image p cube image_path w).2 in
  (3 ≤ length (pass_results env w w'))%nat ↔
  pass3_conditions env cube w w' ∧
  ∃ card, card ∈ default [] cube ∧ card ∉ names_of (take 2 (pass_results env w w')).
Proof.
  pose proof (multi_pass_run image p cube image_path w) as Hrun. cbv zeta in Hrun.
  set (n := length (engine_log w)) in *.
  set (R1 := pass_result env n (ExtractionCall p image)) in *.
  set (c2 := ExtractionCall (MissedFocusPrompt _ _ _) image) in *.
  set (R2 := pass_result env (S n) c2) in *.
  set (S2 := update (update ∅ R1) R2) in *.
  set (unfound := filter _ _) in *.
  set (c3 := ExtractionCall (ValidationPrompt _ _ _) image) in *.
  set (R3 := pass_result env (S (S n)) c3) in *.
  pose proof (names_of_two R1 R2) as HS2. fold S2 in HS2.
  cbv zeta. unfold pass3_conditions. rewrite Hrun. clear Hrun.
  destruct (truthy_list cube && bool_decide (0 < length R1)%nat) eqn:G2.
  2:{ simpl. rewrite pass_results_log_calls. simpl. split; [lia|].
      intros [(_ & ? & _) _]. lia. }
  apply andb_true_iff in G2 as [Hcube _].
  assert (is_Some cube) as Hsome by (destruct cube; [done|discriminate]).
  destruct (get_enable_validation_pass (config env)); simpl.
  2:{ rewrite andb_false_r. simpl. rewrite pass_results_log_calls. simpl.
      split; [lia|]. by intros [(_ & _ & ? & _) _]. }
  rewrite Hcube. simpl.
  destruct (below_coverage (Z.of_nat (size S2)) _) as [[]|] eqn:Hcov.
  - case_bool_decide as Hunfound; simpl; rewrite pass_results_log_calls; simpl;
      rewrite Nat.add_0_r, Nat.add_1_r, ?Nat.add_succ_r, ?Nat.add_0_r;
      fold n R1 R2 R3; rewrite <- HS2.
    + split; [intros _|lia]. split; [split_and!; (done || lia)|].
      destruct unfound as [|card rest] eqn:E; [done|].
      assert (card ∈ unfound) as Hin by (rewrite E; left).
      apply list_elem_of_filter in Hin as [? ?]. by exists card.
    + split; [lia|]. intros [_ (card & Hin & Hnot)]. exfalso.
      assert (card ∈ unfound) as Hc by (apply list_elem_of_filter; done).
      rewrite Hunfound in Hc. by apply not_elem_of_nil in Hc.
  - simpl. rewrite pass_results_log_calls. simpl.
    rewrite Nat.add_0_r, Nat.add_1_r. fold n R1 R2. rewrite <- HS2.
    split; [lia|]. intros [(_ & _ & _ & Hc) _]. congruence.
  - simpl. rewrite pass_results_log_calls. simpl.
    rewrite Nat.add_0_r, Nat.add_1_r. fold n R1 R2. rewrite <- HS2.
    split; [lia|]. intros [(_ & _ & _ & Hc) _]. congruence.
Qed.
End MultiPass.

(** ** Preparation and orientation *)

Section Preparation.
Variable env : environment.
Import PurePath PurePathFacts.

(** The Format Normalizer either hands the path back and leaves the
    world alone, or writes one sibling and returns it. *)
Lemma convert_run image_path w :
  _convert_to_compatible_format env image_path w = (Return image_path, w) ∨
  ∃ ending how img,
    _convert_to_compatible_format env image_path w =
      (Return (converted ending image_path),
       with_disk (<[converted ending image_path := Encoded how img]> (disk w)) w) ∧
    ending ∈ [".png"; ".jpg"] ∧
    converted ending image_path ≠ image_path ∧
    is_Some (disk w !! image_path) ∧
    Str.lower (suffix (Path image_path)) ∉ [".jpg"; ".jpeg"; ".png"].
Proof.
  unfold _convert_to_compatible_format.
  case_bool_decide as Hext; [by left|]. run.
  destruct (disk w !! image_path) as [[b|how img]|] eqn:Hf; simpl; [by left| |by left].
  case_bool_decide as Hmode; run.
  - destruct (save_ok env _ _ img) eqn:Hs; simpl; [|by left]. right.
    exists ".png", {| format := Some "PNG"; quality := None; optimize := true |}, img.
    split_and!; [done|by left|by apply converted_ne|done|done].
  - destruct (save_ok env _ _ _) eqn:Hs; simpl; [|by left]. right.
    eexists ".jpg", _, _.
    split_and!; [done|by right; left|by apply converted_ne|done|done].
Qed.

(** An image in mode ["RGBA"] or ["P"] under an extension that is not
    accepted is written as PNG, the image itself unchanged. *)
Lemma rgba_and_palette_are_written_as_png image_path how img w :
  let png := {| format := Some "PNG"; quality := None; optimize := true |} in
  Str.lower (suffix (Path image_path)) ∉ [".jpg"; ".jpeg"; ".png"] →
  disk w !! image_path = Some (Encoded how img) →
  Image.mode img ∈ ["RGBA"; "P"] →
  save_ok env (converted ".png" image_path) png img = true →
  _convert_to_compatible_format env image_path w =
    (Return (converted ".png" image_path),
     with_disk (<[converted ".png" image_path := Encoded png img]> (disk w)) w).
Proof.
  intros png Hext Hf Hmode Hsave. unfold _convert_to_compatible_format.
  rewrite bool_decide_eq_false_2 by done. run. rewrite Hf. simpl.
  rewrite bool_decide_eq_true_2 by done. run.
  change (str (joinpath (parent (Path image_path)) (stem (Path image_path) ++ "_converted.png")))
    with (converted ".png" image_path).
  fold png. by rewrite Hsave.
Qed.

(** An image in any other mode is converted to RGB, unless it is RGB
    already, and written as JPEG: this includes the modes ["LA"], ["PA"],
    ["RGBa"] and ["La"], whose transparency is dropped. *)
Lemma other_modes_are_written_as_jpeg image_path how img w :
  let jpeg := {| format := Some "JPEG";
                 quality := Some (get_int (config env) "image_processing" "image_quality" 95);
                 optimize := true |} in
  let rgb := if bool_decide (Image.mode img ≠ "RGB") then Image_convert "RGB" img else img in
  Str.lower (suffix (Path image_path)) ∉ [".jpg"; ".jpeg"; ".png"] →
  disk w !! image_path = Some (Encoded how img) →
  Image.mode img ∉ ["RGBA"; "P"] →
  save_ok env (converted ".jpg" image_path) jpeg rgb = true →
  _convert_to_compatible_format env image_path w =
    (Return (converted ".jpg" image_path),
     with_disk (<[converted ".jpg" image_path := Encoded jpeg rgb]> (disk w)) w) ∧
  Image.mode rgb = "RGB".
Proof.
  intros jpeg rgb Hext Hf Hmode Hsave. split.
  - unfold _convert_to_compatible_format.
    rewrite bool_decide_eq_false_2 by done. run. rewrite Hf. simpl.
    rewrite bool_decide_eq_false_2 by done. run.
    change (str (joinpath (parent (Path image_path)) (stem (Path image_path) ++ "_converted.jpg")))
      with (converted ".jpg" image_path).
    fold jpeg rgb. by rewrite Hsave.
  - unfold rgb. by case_bool_decide as H.
Qed.

(** C5. An image whose extension is already accepted comes back from the
    Format Normalizer under the very path it came in with, and an image
    within the size bound comes back from the Resizer likewise; in both
    cases the world is the one before the call, so no file was created. *)
Theorem accepted_and_small_images_are_left_alone image_path max_size how img w :
  (Str.lower (suffix (Path image_path)) ∈ [".jpg"; ".jpeg"; ".png"] →
     _convert_to_compatible_format env image_path w = (Return image_path, w)) ∧
  (disk w !! image_path = Some (Encoded how img) →
   (let bound := default (get_int (config env) "image_processing" "max_image_width" 2048,
                          get_int (config env) "image_processing" "max_image_height" 2048)
                   max_size in
    fst (Image.size img) ≤ fst bound ∧ snd (Image.size img) ≤ snd bound) →
     resize_image_if_needed env image_path max_size w = (Return image_path, w)).
Proof.
  split.
  - intros Hext. unfold _convert_to_compatible_format. by rewrite bool_decide_eq_true_2.
  - intros Hf [Hw Hh]. unfold resize_image_if_needed. run. rewrite Hf.
    destruct max_size as [[mw mh]|]; simpl in *.
    + apply Z.leb_le in Hw, Hh. by rewrite Hw, Hh.
    + apply Z.leb_le in Hw, Hh. by rewrite Hw, Hh.
Qed.

(** What [extract_card_names], called by itself, does with a path that
    is not on the disk: it raises [FileNotFoundError], and the world is
    the one before the call, so nothing was converted, resized, encoded,
    fetched or sent. There is no test of the path: the normaliser
    swallows its own failure to open the file, and the error is the one
    of the resizer's [Image.open]. *)
Theorem missing_source_file_surfaces image_path cubecobra_id use_multi_pass w :
  disk w !! image_path = None →
  extract_card_names env image_path cubecobra_id use_multi_pass w
    = (Raise FileNotFoundError, w).
Proof.
  intros Hf. unfold extract_card_names. unfold mbind at 1. unfold M_bind at 1.
  destruct (convert_run image_path w) as [->|(? & ? & ? & _ & _ & _ & [f Hf'] & _)];
    [|congruence].
  unfold mbind at 1. unfold M_bind at 1. unfold resize_image_if_needed. run.
  by rewrite Hf.
Qed.

Lemma new_calls_refl w : new_calls w w = [].
Proof. unfold new_calls. by rewrite drop_all. Qed.

(** C3. When the orientation call raises, [detect_image_orientation]
    raises as well and returns no rotation, the composed entry point
    stops there without a single extraction call or reference-list
    fetch, and every file on the disk afterwards was there before: the
    converted copy made for the call is gone. *)
Theorem orientation_failure_is_fatal image_path cubecobra_id use_multi_pass w :
  (∀ image, orientation_engine env (length (engine_log w)) image = EngineRaises) →
  ∃ w',
    detect_image_orientation env image_path w = (Raise UnboundLocalError, w') ∧
    (Str.contains "_oriented" (stem (Path image_path)) = false →
       extract_card_names_with_orientation env image_path cubecobra_id use_multi_pass w
         = (Raise UnboundLocalError, w')) ∧
    disk w' ⊆ disk w ∧
    Forall (λ c, is_extraction_call c = false) (new_calls w w') ∧
    fetch_log w' = fetch_log w.
Proof.
  intros Hengine.
  assert (∃ w', detect_image_orientation env image_path w = (Raise UnboundLocalError, w') ∧
            disk w' ⊆ disk w ∧
            Forall (λ c, is_extraction_call c = false) (new_calls w w') ∧
            fetch_log w' = fetch_log w) as (w' & Hrun & Hrest).
  { unfold detect_image_orientation. unfold try_then at 1.
    destruct (convert_run image_path w)
      as [->|(ending & how & img & -> & _ & Hne & _ & _)].
    - unfold try_then, detection_failed, responses_parse_orientation. run.
      rewrite bool_decide_eq_false_2 by (by intros []). simpl.
      destruct (disk w !! image_path) as [f|]; simpl.
      + rewrite Hengine. simpl. eexists. split; [done|].
        rewrite new_calls_log_calls. split_and!; [done|by repeat constructor|done].
      + eexists. split; [done|]. rewrite new_calls_refl. done.
    - unfold try_then, detection_failed, responses_parse_orientation. run.
      rewrite lookup_insert_eq. simpl. rewrite Hengine. simpl.
      rewrite bool_decide_eq_true_2 by done. simpl.
      rewrite lookup_insert_eq. simpl.
      eexists. split; [done|]. rewrite delete_insert_eq.
      split_and!; [apply delete_subseteq| |done].
      unfold new_calls. simpl. rewrite drop_app_length. by repeat constructor. }
  exists w'. split; [done|]. split; [|done].
  intros Hguard. unfold extract_card_names_with_orientation. rewrite Hguard.
  unfold mbind at 1. unfold M_bind at 1. by rewrite Hrun.
Qed.

(** X11. Through the composed entry point a missing file surfaces before
    any engine call as well, as [FileNotFoundError] when the guard sends it
    straight to extraction and as the [UnboundLocalError] of the
    detection's [except] clause otherwise. *)
Lemma missing_source_with_orientation image_path cubecobra_id use_multi_pass w :
  disk w !! image_path = None →
  extract_card_names_with_orientation env image_path cubecobra_id use_multi_pass w =
    (Raise (if Str.contains "_oriented" (stem (Path image_path))
            then FileNotFoundError else UnboundLocalError), w).
Proof.
  intros Hf. unfold extract_card_names_with_orientation.
  destruct (convert_run image_path w) as [Hc|(? & ? & ? & _ & _ & _ & [f Hf'] & _)];
    [|congruence].
  destruct (Str.contains _ _).
  - unfold extract_card_names, mbind, M_bind. rewrite Hc.
    unfold resize_image_if_needed. run. by rewrite Hf.
  - unfold detect_image_orientation, mbind, M_bind, try_then. rewrite Hc.
    unfold detection_failed. run. rewrite Hf. simpl.
    by rewrite bool_decide_eq_false_2 by (by intros []).
Qed.

(** *** Which engine calls a computation can make *)

Lemma calls_only_silent P {A} (m : M A) :
  (∀ w, engine_log (m w).2 = engine_log w) → calls_only P m.
Proof. intros H w. exists []. by rewrite H, app_nil_r. Qed.

Lemma calls_only_ret P {A} (a : A) : calls_only P (mret a).
Proof. by apply calls_only_silent. Qed.

Lemma calls_only_raise P {A} e : calls_only P (raise e : M A).
Proof. by apply calls_only_silent. Qed.

Lemma calls_only_bind P {A B} (m : M A) (f : A → M B) :
  calls_only P m → (∀ a, calls_only P (f a)) → calls_only P (m ≫= f).
Proof.
  intros Hm Hf w. unfold mbind, M_bind. destruct (Hm w) as (cs & Hcs & HP).
  destruct (m w) as [[a|e] w1]; simpl in *; [|by exists cs].
  destruct (Hf a w1) as (cs' & Hcs' & HP'). exists (cs ++ cs')%list.
  rewrite Hcs', Hcs, (assoc_L (++)). split; [done|]. by apply Forall_app.
Qed.

Lemma calls_only_try_except P {A} (m : M A) (h : exn → M A) :
  calls_only P m → (∀ e, calls_only P (h e)) → calls_only P (try_except m h).
Proof.
  intros Hm Hh w. unfold try_except. destruct (Hm w) as (cs & Hcs & HP).
  destruct (m w) as [[a|e] w1]; simpl in *; [by exists cs|].
  destruct (is_Exception e); [|by exists cs].
  destruct (Hh e w1) as (cs' & Hcs' & HP'). exists (cs ++ cs')%list.
  rewrite Hcs', Hcs, (assoc_L (++)). split; [done|]. by apply Forall_app.
Qed.

Lemma calls_only_try_finally P {A} (m : M A) (c : M ()) :
  calls_only P m → calls_only P c → calls_only P (try_finally m c).
Proof.
  intros Hm Hc w. unfold try_finally. destruct (Hm w) as (cs & Hcs & HP).
  destruct (m w) as [r w1]; simpl in *.
  destruct (Hc w1) as (cs' & Hcs' & HP'). exists (cs ++ cs')%list.
  rewrite (assoc_L (++)), <- Hcs, <- Hcs'. split; [|by apply Forall_app].
  by destruct (c w1) as [[[]|e] w2].
Qed.

Lemma calls_only_Image_open P path : calls_only P (Image_open path).
Proof.
  apply calls_only_silent. intros w. unfold Image_open.
  by destruct (disk w !! path) as [[]|].
Qed.

Lemma calls_only_Image_save P img path how : calls_only P (Image_save env img path how).
Proof.
  apply calls_only_silent. intros w. unfold Image_save. by destruct (save_ok _ _ _ _).
Qed.

Lemma calls_only_read_bytes P path : calls_only P (read_bytes path).
Proof.
  apply calls_only_silent. intros w. unfold read_bytes. by destruct (disk w !! path).
Qed.

Lemma calls_only_os_remove P path : calls_only P (os_remove path).
Proof.
  apply calls_only_silent. intros w. unfold os_remove. by destruct (disk w !! path).
Qed.

Lemma calls_only_convert P path : calls_only P (_convert_to_compatible_format env path).
Proof.
  apply calls_only_silent. intros w.
  by destruct (convert_run path w) as [->|(? & ? & ? & -> & _)].
Qed.

Lemma calls_only_resize P path max_size :
  calls_only P (resize_image_if_needed env path max_size).
Proof.
  unfold resize_image_if_needed. apply calls_only_bind; [apply calls_only_Image_open|].
  intros img. destruct (_ && _); [apply calls_only_ret|].
  apply calls_only_bind; [apply calls_only_Image_save|]. intros _. apply calls_only_ret.
Qed.

Lemma calls_only_fetch P cube_id : calls_only P (fetch_cubecobra_list env cube_id).
Proof.
  apply calls_only_silent. intros w. unfold fetch_cubecobra_list.
  by destruct (cubecobra env cube_id).
Qed.

Lemma calls_only_remove_files P files : calls_only P (remove_files files).
Proof.
  induction files as [|f files IH]; [apply calls_only_ret|]. simpl.
  apply calls_only_bind; [|done]. apply calls_only_try_except.
  - apply calls_only_bind; [by apply calls_only_silent|].
    intros []; [apply calls_only_os_remove|apply calls_only_ret].
  - intros _. apply calls_only_ret.
Qed.

Lemma extraction_only_single_pass image p path :
  extraction_only (_single_pass_extraction env image p path).
Proof.
  intros w. rewrite single_pass_run. eexists. split; [done|]. by repeat constructor.
Qed.

Lemma extraction_only_multi_pass image p cube path :
  extraction_only (_multi_pass_extraction env image p cube path).
Proof.
  intros w. rewrite multi_pass_run.
  repeat (case_match; simpl); eexists; (split; [done|]); by repeat constructor.
Qed.

Lemma extraction_only_extract_card_names path cubecobra_id use_multi_pass :
  extraction_only (extract_card_names env path cubecobra_id use_multi_pass).
Proof.
  unfold extract_card_names.
  apply calls_only_bind; [apply calls_only_convert|]. intros compatible.
  apply calls_only_bind; [apply calls_only_resize|]. intros processed.
  apply calls_only_bind; [apply calls_only_read_bytes|]. intros image.
  apply calls_only_bind.
  { destruct (truthy_str _); [apply calls_only_fetch|apply calls_only_ret]. }
  intros cube. apply calls_only_try_finally; [|apply calls_only_remove_files].
  destruct (_ && _);
    [apply extraction_only_multi_pass|apply extraction_only_single_pass].
Qed.

Lemma calls_only_new_calls P {A} (m : M A) w :
  calls_only P m → Forall P (new_calls w (m w).2).
Proof.
  intros H. destruct (H w) as (cs & Hcs & HP). unfold new_calls.
  by rewrite Hcs, drop_app_length.
Qed.

(** The guard as the code has it. When the stem of the file name
    carries ["_oriented"], the composed entry point goes straight to
    extraction on the path it was given: the engine receives no
    orientation call, no rotation is applied, and the path returned is
    the input path. *)
Theorem oriented_marker_skips_detection image_path cubecobra_id use_multi_pass w :
  Str.contains "_oriented" (stem (Path image_path)) = true →
  ∃ r w',
    extract_card_names_with_orientation env image_path cubecobra_id use_multi_pass w
      = (r, w') ∧
    (r, w') =
      (let (names, w'') := extract_card_names env image_path cubecobra_id use_multi_pass w in
       (match names with
        | Return card_names => Return (ExtractionResult.make card_names image_path)
        | Raise e => Raise e
        end, w'')) ∧
    Forall (λ c, is_extraction_call c = true) (new_calls w w') ∧
    (∀ result, r = Return result →
       ExtractionResult.oriented_image_path result = image_path).
Proof.
  intros Hguard. unfold extract_card_names_with_orientation. rewrite Hguard.
  pose proof (calls_only_new_calls _ _ w
    (extraction_only_extract_card_names image_path cubecobra_id use_multi_pass)) as Hcalls.
  unfold mbind, M_bind at 1.
  destruct (extract_card_names env image_path cubecobra_id use_multi_pass w)
    as [[names|e] w'] eqn:Hrun; simpl in *; eexists _, _; split_and!; try done.
  by intros ? [= <-].
Qed.
End Preparation.

(** ** Temporary files *)

Section Cleanup.
Variable env : environment.
Import PurePath PurePathFacts.

Lemma with_disk_id w : with_disk (disk w) w = w.
Proof. by destruct w. Qed.

(** The [finally] loop deletes every listed file that exists. *)
Lemma remove_files_run files w :
  remove_files files w = (Return (), with_disk (foldl (λ d f, delete f d) (disk w) files) w).
Proof.
  revert w. induction files as [|f files IH]; intros w; simpl.
  - by rewrite with_disk_id.
  - run. destruct (disk w !! f) eqn:Hf; simpl.
    + rewrite Hf. simpl. by rewrite IH.
    + rewrite IH. by rewrite (delete_id _ _ Hf).
Qed.

Lemma resize_run image_path max_size w :
  resize_image_if_needed env image_path max_size w =
  match disk w !! image_path with
  | None => (Raise FileNotFoundError, w)
  | Some (Undecodable _) => (Raise UnidentifiedImageError, w)
  | Some (Encoded _ img) =>
      let bound :=
        default (get_int (config env) "image_processing" "max_image_width" 2048,
                 get_int (config env) "image_processing" "max_image_height" 2048)
          max_size in
      if (fst (Image.size img) <=? fst bound) && (snd (Image.size img) <=? snd bound)
      then (Return image_path, w)
      else
        let resized := marked "_resized" image_path in
        let how := save_kwargs env (Str.lower (suffix (Path image_path))) in
        let small := Image_thumbnail env bound img in
        if save_ok env resized how small
        then (Return resized, with_disk (<[resized := Encoded how small]> (disk w)) w)
        else (Raise SaveError, w)
  end.
Proof.
  unfold resize_image_if_needed. run.
  destruct (disk w !! image_path) as [[b|how img]|]; simpl; [done| |done].
  destruct max_size as [[mw mh]|]; simpl;
    (destruct (_ && _); [done|]; by destruct (save_ok env _ _ _)).
Qed.

(** The passes leave the disk alone. *)
Lemma disk_single_pass image p path w :
  disk (_single_pass_extraction env image p path w).2 = disk w.
Proof. by rewrite single_pass_run. Qed.

Lemma disk_multi_pass image p cube path w :
  disk (_multi_pass_extraction env image p cube path w).2 = disk w.
Proof. rewrite multi_pass_run. by repeat case_match. Qed.

(** The part of [extract_card_names] after encoding: the call to
    CubeCobra and the [try] block. When it returns, or raises out of the
    [try] block, the listed files are deleted. *)
Lemma fetch_and_passes_clean_up (body : option (list string) → M (list string))
    cubecobra_id files w1 r w' :
  (∀ cube w, disk (body cube w).2 = disk w) →
  ((if truthy_str cubecobra_id
    then fetch_cubecobra_list env (default "" cubecobra_id) else mret None)
   ≫= λ cube, try_finally (body cube) (remove_files files)) w1 = (r, w') →
  r ≠ Raise TypeError ∧ r ≠ Raise AttributeError →
  disk w' = foldl (λ d f, delete f d) (disk w1) files.
Proof.
  intros Hdisk Hrun [Hr Hr']. unfold mbind, M_bind, try_finally in Hrun.
  assert (∀ cube w2, disk w2 = disk w1 →
            (let (r0, w3) := body cube w2 in
             match remove_files files w3 with
             | (Return _, w'') => (r0, w'')
             | (Raise e, w'') => (Raise e, w'')
             end) = (r, w') → disk w' = foldl (λ d f, delete f d) (disk w1) files) as Hfin.
  { intros cube w2 Hw2. pose proof (Hdisk cube w2) as Hd. destruct (body cube w2) as [r0 w3].
    rewrite remove_files_run. intros [= <- <-]. simpl in *. by rewrite Hd, Hw2. }
  destruct (truthy_str cubecobra_id); simpl in Hrun.
  - unfold fetch_cubecobra_list in Hrun. destruct (cubecobra env _); simpl in Hrun.
    + exact (Hfin _ (log_fetch _ w1) eq_refl Hrun).
    + exact (Hfin _ (log_fetch _ w1) eq_refl Hrun).
    + by injection Hrun as <- <-.
    + by injection Hrun as <- <-.
  - exact (Hfin _ w1 eq_refl Hrun).
Qed.

(** Once preparation is over, that is whenever [extract_card_names]
    returns or the coverage test overflows, the temporary files are gone:
    every file on the disk afterwards was there before. *)
Lemma extract_card_names_cleans_up image_path cubecobra_id use_multi_pass w r w' :
  extract_card_names env image_path cubecobra_id use_multi_pass w = (r, w') →
  (∃ names, r = Return names) ∨ r = Raise OverflowError →
  disk w' ⊆ disk w.
Proof.
  intros Hrun Hr.
  assert (r ≠ Raise TypeError ∧ r ≠ Raise AttributeError ∧ r ≠ Raise FileNotFoundError ∧
          r ≠ Raise UnidentifiedImageError ∧ r ≠ Raise SaveError) as (Ht & Ha & Hn & Hu & Hs).
  { destruct Hr as [[? ->]| ->]; done. }
  unfold extract_card_names in Hrun. unfold mbind at 1 in Hrun. unfold M_bind at 1 in Hrun.
  assert (∀ cube image w, disk ((if use_multi_pass && get_use_multi_pass_detection (config env)
            then _multi_pass_extraction env image
                   (if truthy_list cube
                    then ExtractionPrompt (Some (slice_to
                           (get_int (config env) "cubecobra" "max_cards_in_prompt" 360)
                           (default [] cube)))
                    else ExtractionPrompt None) cube image_path
            else _single_pass_extraction env image
                   (if truthy_list cube
                    then ExtractionPrompt (Some (slice_to
                           (get_int (config env) "cubecobra" "max_cards_in_prompt" 360)
                           (default [] cube)))
                    else ExtractionPrompt None) image_path) w).2 = disk w) as Hpasses.
  { intros cube image w0. destruct (_ && _);
      [apply disk_multi_pass|apply disk_single_pass]. }
  destruct (convert_run env image_path w)
    as [Hc|(ending & how & img & Hc & Hend & Hne & _ & Hext)]; rewrite Hc in Hrun; clear Hc.
  - (* nothing converted *)
    unfold mbind at 1 in Hrun. unfold M_bind at 1 in Hrun. rewrite resize_run in Hrun.
    destruct (disk w !! image_path) as [[b|how img]|] eqn:Hf;
      [by injection Hrun as <- <-| |by injection Hrun as <- <-].
    cbv zeta in Hrun. destruct (_ && _).
    + unfold mbind at 1 in Hrun. unfold M_bind at 1 in Hrun.
      unfold encode_image, read_bytes in Hrun. rewrite Hf in Hrun.
      rewrite !bool_decide_eq_false_2 in Hrun by (by intros []). simpl app in Hrun.
      eapply fetch_and_passes_clean_up in Hrun; [|by intros; apply Hpasses|done].
      by rewrite Hrun.
    + destruct (save_ok env _ _ _); [|by injection Hrun as <- <-].
      unfold mbind at 1 in Hrun. unfold M_bind at 1 in Hrun.
      unfold encode_image, read_bytes in Hrun. simpl disk in Hrun.
      rewrite lookup_insert_eq in Hrun.
      rewrite (bool_decide_eq_false_2 (image_path ≠ image_path)) in Hrun by (by intros []).
      rewrite bool_decide_eq_true_2 in Hrun by (by apply marked_ne).
      simpl app in Hrun.
      eapply fetch_and_passes_clean_up in Hrun; [|by intros; apply Hpasses|done].
      rewrite Hrun. simpl. rewrite delete_insert_eq. apply delete_subseteq.
  - (* a converted copy was written *)
    set (conv := converted ending image_path) in *.
    unfold mbind at 1 in Hrun. unfold M_bind at 1 in Hrun. rewrite resize_run in Hrun.
    simpl disk in Hrun. rewrite lookup_insert_eq in Hrun.
    cbv zeta in Hrun. destruct (_ && _).
    + unfold mbind at 1 in Hrun. unfold M_bind at 1 in Hrun.
      unfold encode_image, read_bytes in Hrun. simpl disk in Hrun.
      rewrite lookup_insert_eq in Hrun.
      rewrite bool_decide_eq_true_2 in Hrun by done.
      rewrite bool_decide_eq_false_2 in Hrun by (by intros []). simpl app in Hrun.
      eapply fetch_and_passes_clean_up in Hrun; [|by intros; apply Hpasses|done].
      rewrite Hrun. simpl. rewrite delete_insert_eq. apply delete_subseteq.
    + destruct (save_ok env _ _ _); [|by injection Hrun as <- <-].
      unfold mbind at 1 in Hrun. unfold M_bind at 1 in Hrun.
      unfold encode_image, read_bytes in Hrun. simpl disk in Hrun.
      rewrite lookup_insert_eq in Hrun.
      rewrite bool_decide_eq_true_2 in Hrun by done.
      rewrite bool_decide_eq_true_2 in Hrun by (by apply marked_ne).
      simpl app in Hrun.
      eapply fetch_and_passes_clean_up in Hrun; [|by intros; apply Hpasses|done].
      rewrite Hrun. simpl.
      apply map_subseteq_spec. intros i x Hi.
      apply lookup_delete_Some in Hi as [Hi1 Hi].
      apply lookup_delete_Some in Hi as [Hi2 Hi].
      by rewrite !lookup_insert_ne in Hi.
Qed.

Lemma fetch_and_passes_disk (body : option (list string) → M (list string))
    cubecobra_id files w1 r w' :
  (∀ cube w, disk (body cube w).2 = disk w) →
  ((if truthy_str cubecobra_id
    then fetch_cubecobra_list env (default "" cubecobra_id) else mret None)
   ≫= λ cube, try_finally (body cube) (remove_files files)) w1 = (r, w') →
  disk w' = foldl (λ d f, delete f d) (disk w1) files ∨ disk w' = disk w1.
Proof.
  intros Hdisk Hrun.
  unfold mbind, M_bind, try_finally in Hrun.
  assert (∀ cube w2, disk w2 = disk w1 →
            (let (r0, w3) := body cube w2 in
             match remove_files files w3 with
             | (Return _, w'') => (r0, w'')
             | (Raise e, w'') => (Raise e, w'')
             end) = (r, w') →
            disk w' = foldl (λ d f, delete f d) (disk w1) files) as Hfin.
  { intros cube w2 Hw2. pose proof (Hdisk cube w2) as Hd. destruct (body cube w2) as [r0 w3].
    rewrite remove_files_run. intros [= _ <-]. simpl in *. by rewrite Hd, Hw2. }
  destruct (truthy_str cubecobra_id); simpl in Hrun.
  - unfold fetch_cubecobra_list in Hrun. destruct (cubecobra env _); simpl in Hrun.
    + left. exact (Hfin _ (log_fetch _ w1) eq_refl Hrun).
    + left. exact (Hfin _ (log_fetch _ w1) eq_refl Hrun).
    + right. by injection Hrun as _ <-.
    + right. by injection Hrun as _ <-.
  - left. exact (Hfin _ w1 eq_refl Hrun).
Qed.

(** Whatever happens, [extract_card_names] neither deletes nor rewrites
    the file it was given: the original input, or the oriented copy the
    composed entry point hands it. *)
Lemma extract_card_names_keeps_its_input image_path cubecobra_id use_multi_pass w :
  disk (extract_card_names env image_path cubecobra_id use_multi_pass w).2 !! image_path
  = disk w !! image_path.
Proof.
  destruct (extract_card_names env image_path cubecobra_id use_multi_pass w)
    as [r w'] eqn:Hrun. simpl.
  unfold extract_card_names in Hrun. unfold mbind at 1 in Hrun. unfold M_bind at 1 in Hrun.
  assert (∀ cube image w, disk ((if use_multi_pass && get_use_multi_pass_detection (config env)
            then _multi_pass_extraction env image
                   (if truthy_list cube
                    then ExtractionPrompt (Some (slice_to
                           (get_int (config env) "cubecobra" "max_cards_in_prompt" 360)
                           (default [] cube)))
                    else ExtractionPrompt None) cube image_path
            else _single_pass_extraction env image
                   (if truthy_list cube
                    then ExtractionPrompt (Some (slice_to
                           (get_int (config env) "cubecobra" "max_cards_in_prompt" 360)
                           (default [] cube)))
                    else ExtractionPrompt None) image_path) w).2 = disk w) as Hpasses.
  { intros cube image w0. destruct (_ && _);
      [apply disk_multi_pass|apply disk_single_pass]. }
  pose proof (marked_ne "_" "r" "esized" image_path eq_refl) as Hresized.
  destruct (convert_run env image_path w)
    as [Hc|(ending & how & img & Hc & Hend & Hne & _ & Hext)]; rewrite Hc in Hrun; clear Hc.
  - unfold mbind at 1 in Hrun. unfold M_bind at 1 in Hrun. rewrite resize_run in Hrun.
    destruct (disk w !! image_path) as [[b|how img]|] eqn:Hf;
      [by injection Hrun as <- <-| |by injection Hrun as <- <-].
    cbv zeta in Hrun. destruct (_ && _).
    + unfold mbind at 1 in Hrun. unfold M_bind at 1 in Hrun.
      unfold encode_image, read_bytes in Hrun. rewrite Hf in Hrun.
      rewrite !bool_decide_eq_false_2 in Hrun by (by intros []). simpl app in Hrun.
      eapply fetch_and_passes_disk in Hrun as [-> | ->];
        [done|done|by intros; apply Hpasses].
    + destruct (save_ok env _ _ _); [|by injection Hrun as <- <-].
      unfold mbind at 1 in Hrun. unfold M_bind at 1 in Hrun.
      unfold encode_image, read_bytes in Hrun. simpl disk in Hrun.
      rewrite lookup_insert_eq in Hrun.
      rewrite (bool_decide_eq_false_2 (image_path ≠ image_path)) in Hrun by (by intros []).
      rewrite bool_decide_eq_true_2 in Hrun by done.
      simpl app in Hrun.
      eapply fetch_and_passes_disk in Hrun as [-> | ->];
        [| |by intros; apply Hpasses]; simpl;
        by rewrite ?lookup_delete_ne, ?lookup_insert_ne by done.
  - set (conv := converted ending image_path) in *.
    pose proof (marked_ne "_" "r" "esized" conv eq_refl) as Hresized'.
    pose proof (resized_converted_ne ending image_path Hend Hext) as Hrc. fold conv in Hrc.
    unfold mbind at 1 in Hrun. unfold M_bind at 1 in Hrun. rewrite resize_run in Hrun.
    simpl disk in Hrun. rewrite lookup_insert_eq in Hrun.
    cbv zeta in Hrun. destruct (_ && _).
    + unfold mbind at 1 in Hrun. unfold M_bind at 1 in Hrun.
      unfold encode_image, read_bytes in Hrun. simpl disk in Hrun.
      rewrite lookup_insert_eq in Hrun.
      rewrite bool_decide_eq_true_2 in Hrun by done.
      rewrite bool_decide_eq_false_2 in Hrun by (by intros []). simpl app in Hrun.
      eapply fetch_and_passes_disk in Hrun as [-> | ->];
        [| |by intros; apply Hpasses]; simpl;
        by rewrite ?lookup_delete_ne, ?lookup_insert_ne by done.
    + destruct (save_ok env _ _ _).
      2:{ injection Hrun as <- <-. simpl. by rewrite lookup_insert_ne. }
      unfold mbind at 1 in Hrun. unfold M_bind at 1 in Hrun.
      unfold encode_image, read_bytes in Hrun. simpl disk in Hrun.
      rewrite lookup_insert_eq in Hrun.
      rewrite bool_decide_eq_true_2 in Hrun by done.
      rewrite bool_decide_eq_true_2 in Hrun by done.
      simpl app in Hrun.
      eapply fetch_and_passes_disk in Hrun as [-> | ->];
        [| |by intros; apply Hpasses]; simpl;
        by rewrite ?lookup_delete_ne, ?lookup_insert_ne by done.
Qed.
End Cleanup.

(** ** Rotation *)

Section Rotation.
Variable env : environment.
Import PurePath PurePathFacts.

Lemma rotate_run image_path rotation_degrees output_path w :
  rotation_degrees ≠ 0 →
  rotate_and_save_image env image_path rotation_degrees output_path w =
  match disk w !! image_path with
  | Some (Encoded _ img) =>
      let target := rotation_target image_path output_path in
      let how := save_kwargs env (Str.lower (suffix (Path target))) in
      let rotated_img := Image_rotate env ((360 - rotation_degrees) `mod` 360) img in
      if save_ok env target how rotated_img
      then (Return target, with_disk (<[target := Encoded how rotated_img]> (disk w)) w)
      else (Return image_path, w)
  | _ => (Return image_path, w)
  end.
Proof.
  intros Hr. unfold rotate_and_save_image.
  apply Z.eqb_neq in Hr. rewrite Hr. run.
  destruct (disk w !! image_path) as [[b|how img]|]; simpl; [done| |done].
  destruct output_path as [out|]; simpl; by destruct (save_ok env _ _ _).
Qed.

(** C10. When a non-zero rotation cannot be carried out,
    [rotate_and_save_image] hands back the input path and leaves the
    world as it was; the composed entry point then runs extraction on
    the unrotated input and, when extraction returns, reports the input
    path, which carries no marker, as the oriented image. The failed
    rotation itself raises nothing. *)
Theorem failed_rotation_returns_input_path
    image_path rotation_degrees output_path cubecobra_id use_multi_pass w0 w :
  rotation_degrees ≠ 0 →
  rotation_fails env image_path rotation_degrees output_path w →
  rotate_and_save_image env image_path rotation_degrees output_path w
    = (Return image_path, w) ∧
  (output_path = Some (marked "_oriented" image_path) →
   Str.contains "_oriented" (stem (Path image_path)) = false →
   detect_image_orientation env image_path w0 = (Return rotation_degrees, w) →
   extract_card_names_with_orientation env image_path cubecobra_id use_multi_pass w0 =
     (let (names, w') := extract_card_names env image_path cubecobra_id use_multi_pass w in
      (match names with
       | Return card_names => Return (ExtractionResult.make card_names image_path)
       | Raise e => Raise e
       end, w'))).
Proof.
  intros Hr Hfail.
  assert (rotate_and_save_image env image_path rotation_degrees output_path w
            = (Return image_path, w)) as Hrot.
  { rewrite rotate_run by done. unfold rotation_fails in Hfail.
    destruct (disk w !! image_path) as [[b|how img]|]; [done| |done].
    cbv zeta in *. by rewrite Hfail. }
  split; [done|]. intros -> Hguard Hdetect.
  unfold extract_card_names_with_orientation. rewrite Hguard.
  unfold mbind at 1. unfold M_bind at 1. rewrite Hdetect.
  rewrite bool_decide_eq_true_2 by done.
  unfold mbind at 1. unfold M_bind at 1.
  change (str (joinpath (parent (Path image_path))
            (stem (Path image_path) ++ "_oriented" ++ suffix (Path image_path))))
    with (marked "_oriented" image_path).
  rewrite Hrot. unfold mbind, M_bind.
  by destruct (extract_card_names env image_path cubecobra_id use_multi_pass w) as [[|] ?].
Qed.

(** C7, amended. When detection answers 90 and the source decodes and
    the rotated image can be saved, the rotation writes a new file whose
    canvas is the original's with width and height exchanged, at a path
    that differs from the input path and carries ["_oriented"]; the
    composed entry point runs extraction on that path and reports it, and
    the file is still there when extraction is over. *)
Theorem quarter_turn_writes_oriented_copy
    image_path how img cubecobra_id use_multi_pass w0 w :
  let out := marked "_oriented" image_path in
  let rotated_img := Image_rotate env 270 img in
  let args := save_kwargs env (Str.lower (suffix (Path out))) in
  let w' := with_disk (<[out := Encoded args rotated_img]> (disk w)) w in
  disk w !! image_path = Some (Encoded how img) →
  save_ok env out args rotated_img = true →
  rotate_and_save_image env image_path 90 (Some out) w = (Return out, w') ∧
  oriented_copy image_path w w' out ∧
  (Str.contains "_oriented" (stem (Path image_path)) = false →
   detect_image_orientation env image_path w0 = (Return 90, w) →
   extract_card_names_with_orientation env image_path cubecobra_id use_multi_pass w0 =
     (let (names, w'') := extract_card_names env out cubecobra_id use_multi_pass w' in
      (match names with
       | Return card_names => Return (ExtractionResult.make card_names out)
       | Raise e => Raise e
       end, w''))) ∧
  disk (extract_card_names env out cubecobra_id use_multi_pass w').2 !! out
    = Some (Encoded args rotated_img).
Proof.
  intros out rotated_img args w' Hf Hsave.
  assert (rotate_and_save_image env image_path 90 (Some out) w = (Return out, w')) as Hrot.
  { rewrite rotate_run by done. rewrite Hf. simpl. fold out.
    change ((360 - 90) `mod` 360) with 270. fold rotated_img args. by rewrite Hsave. }
  split; [done|]. split; [|split].
  - split; [by apply marked_ne|]. split; [by eapply marked_contains|].
    exists how, img, args, rotated_img. split; [done|]. split.
    + unfold w'. simpl. apply lookup_insert_eq.
    + unfold rotated_img, Image_rotate. by destruct (Image.size img).
  - intros Hguard Hdetect.
    unfold extract_card_names_with_orientation. rewrite Hguard.
    unfold mbind at 1. unfold M_bind at 1. rewrite Hdetect.
    rewrite bool_decide_eq_true_2 by done.
    unfold mbind at 1. unfold M_bind at 1. fold (marked "_oriented" image_path). fold out.
    rewrite Hrot. unfold mbind, M_bind.
    by destruct (extract_card_names env out cubecobra_id use_multi_pass w') as [[|] ?].
  - rewrite extract_card_names_keeps_its_input. unfold w'. simpl. apply lookup_insert_eq.
Qed.
End Rotation.

(** ** The reference list *)

Section ReferenceList.
Variable env : environment.

Lemma sorted_set_spec names :
  StronglySorted String.le (sorted_set names) ∧ NoDup (sorted_set names) ∧
  ∀ x, x ∈ sorted_set names ↔ x ∈ names.
Proof.
  unfold sorted_set. split_and!.
  - apply StronglySorted_merge_sort; apply _.
  - rewrite merge_sort_Permutation. apply NoDup_remove_dups.
  - intros x. rewrite merge_sort_Permutation. apply elem_of_remove_dups.
Qed.

Lemma sorted_set_ext names names' :
  (∀ x, x ∈ names' ↔ x ∈ names) → sorted_set names' = sorted_set names.
Proof.
  intros H. destruct (sorted_set_spec names) as (S1 & N1 & E1).
  destruct (sorted_set_spec names') as (S2 & N2 & E2).
  apply (StronglySorted_unique String.le); [done..|].
  apply NoDup_Permutation; [done..|]. intros x. rewrite E1, E2. apply H.
Qed.

(** X1. When [fetch_cubecobra_list] returns a list, it is the names of
    the mainboard in ascending order and without duplicates: it holds
    exactly the names collected, it depends on their set alone and not
    on their order or multiplicity, and the only trace the call leaves
    is the log of the request. *)
Theorem fetched_list_is_sorted_and_duplicate_free cube_id w cube w' :
  fetch_cubecobra_list env cube_id w = (Return (Some cube), w') →
  ∃ names,
    cubecobra env cube_id = MainboardNames names ∧
    StronglySorted String.le cube ∧ NoDup cube ∧
    (∀ x, x ∈ cube ↔ x ∈ names) ∧
    (∀ names', (∀ x, x ∈ names' ↔ x ∈ names) → sorted_set names' = cube) ∧
    w' = log_fetch cube_id w.
Proof.
  unfold fetch_cubecobra_list. destruct (cubecobra env cube_id) as [|names| |] eqn:E; [done| |done..].
  intros [= <- <-]. exists names. destruct (sorted_set_spec names) as (S1 & N1 & E1).
  split_and!; try done. apply sorted_set_ext.
Qed.
End ReferenceList.

Section CubeCobraReply.
Variable env : environment.

Lemma card_name_cases card :
  card_name card = if broken_card card then Uncaught AttributeError
                   else Got (listed_name card).
Proof.
  destruct card as [| | | | |members]; try done. simpl.
  destruct (members !! "details") as [[| | | | |details]|]; simpl;
    destruct (members !! "name"); try done.
  all: by destruct (details !! "name").
Qed.

Lemma collect_cases cards card_names :
  collect cards card_names =
  if existsb broken_card cards then Uncaught AttributeError
  else Got (card_names ++ omap listed_name cards)%list.
Proof.
  revert card_names. induction cards as [|card cards IH]; intros card_names; simpl.
  - by rewrite app_nil_r.
  - rewrite card_name_cases. destruct (broken_card card); [done|]. simpl.
    rewrite IH. destruct (existsb broken_card cards); [done|].
    destruct (listed_name card); simpl; by rewrite <- ?(assoc_L (++)), ?app_nil_r.
Qed.

Lemma omap_listed_name_strings (l : list json) :
  Forall (λ x, is_dict x = false) l → omap listed_name l = [].
Proof.
  induction 1 as [|x l Hx _ IH]; [done|]. destruct x; try done; apply IH.
Qed.

Lemma existsb_broken_strings (l : list json) :
  Forall (λ x, is_dict x = false) l → existsb broken_card l = false.
Proof.
  induction 1 as [|x l Hx _ IH]; [done|]. destruct x; try done; apply IH.
Qed.

Lemma characters_not_dict s : Forall (λ x, is_dict x = false) (characters s).
Proof. induction s; by constructor. Qed.

(** [mainboard_card_names], case by case. *)
Lemma mainboard_card_names_cases cube_data :
  mainboard_card_names cube_data =
  match cube_data with
  | JObject members =>
      match members !! "cards" with
      | None => KeyError
      | Some (JObject cards) =>
          match cards !! "mainboard" with
          | None => KeyError
          | Some (JArray items) =>
              if existsb broken_card items then Uncaught AttributeError
              else Got (omap listed_name items)
          | Some mainboard => if iterable mainboard then Got [] else Uncaught TypeError
          end
      | Some _ => Uncaught TypeError
      end
  | _ => Uncaught TypeError
  end.
Proof.
  destruct cube_data as [| | | | |members]; try done.
  unfold mainboard_card_names. simpl.
  destruct (members !! "cards") as [[| | |s|items|cards]|]; simpl; try done.
  - by destruct (Str.contains _ _).
  - by destruct (existsb _ _).
  - destruct (cards !! "mainboard") as [mainboard|] eqn:Hm; simpl.
    + rewrite ?Hm. simpl.
      destruct mainboard as [| | |s|items|keys]; simpl; try done.
      * rewrite collect_cases.
        rewrite existsb_broken_strings, omap_listed_name_strings;
          [done|apply characters_not_dict..].
      * by rewrite collect_cases.
      * rewrite collect_cases.
        assert (Forall (λ x, is_dict x = false) (JString <$> (map_to_list keys).*1)) as H.
        { apply Forall_fmap. by apply Forall_true. }
        by rewrite existsb_broken_strings, omap_listed_name_strings.
    + done.
Qed.
(** X2. For a reply that is JSON, [fetch_cubecobra_list] returns [None]
    exactly when the reply is a dict without ['cards'], or one whose
    ['cards'] is a dict without ['mainboard']: the [KeyError] is the only
    failure of the traversal that the function turns into [None]. *)
Theorem missing_keys_give_no_reference_list cube_id cube_data w :
  cubecobra_reply_of (Some cube_data) = Some (cubecobra env cube_id) →
  fetch_cubecobra_list env cube_id w = (Return None, log_fetch cube_id w) ↔
  ∃ members,
    cube_data = JObject members ∧
    (members !! "cards" = None ∨
     ∃ cards, members !! "cards" = Some (JObject cards) ∧ cards !! "mainboard" = None).
Proof.
  unfold cubecobra_reply_of, fetch_cubecobra_list.
  rewrite mainboard_card_names_cases. intros Hreply. split.
  - intros Hrun. destruct (cubecobra env cube_id); [clear Hrun|done..].
    destruct cube_data as [| | | | |members]; try done. exists members. split; [done|].
    destruct (members !! "cards") as [[| | | | |cards]|]; try done; [|by left].
    right. exists cards. split; [done|].
    destruct (cards !! "mainboard") as [mainboard|]; [|done]. exfalso.
    destruct mainboard as [| | |s|items|keys]; simpl in Hreply; try done.
    destruct (existsb broken_card items); [done|].
    destruct (mapM as_string _); [done|]. by destruct (forallb hashable _).
  - intros (members & -> & [Hc|(cards & Hc & Hm)]); rewrite Hc in Hreply.
    + by injection Hreply as <-.
    + rewrite Hm in Hreply. by injection Hreply as <-.
Qed.

(** X3. A reply of the shape CubeCobra sends, a dict whose
    ['cards']['mainboard'] is a list of cards that each carry a string at
    ['details']['name'], yields those names, a ['name'] of the card
    itself notwithstanding, and the function returns them sorted and
    without duplicates. *)
Theorem well_formed_reply_lists_every_card cube_id members cards items names w :
  cubecobra_reply_of (Some (JObject members)) = Some (cubecobra env cube_id) →
  members !! "cards" = Some (JObject cards) →
  cards !! "mainboard" = Some (JArray items) →
  Forall2 (λ item name, ∃ card details,
             item = JObject card ∧ card !! "details" = Some (JObject details) ∧
             details !! "name" = Some (JString name)) items names →
  cubecobra env cube_id = MainboardNames names ∧
  fetch_cubecobra_list env cube_id w
    = (Return (Some (sorted_set names)), log_fetch cube_id w).
Proof.
  intros Hreply Hc Hm Hitems.
  assert (cubecobra env cube_id = MainboardNames names) as Henv.
  { unfold cubecobra_reply_of in Hreply. rewrite mainboard_card_names_cases in Hreply.
    rewrite Hc, Hm in Hreply.
    assert (existsb broken_card items = false ∧
            mapM as_string (omap listed_name items) = Some names) as [Hb Hn].
    { clear -Hitems. induction Hitems as [|item name items names Hitem _ [IH1 IH2]]; [done|].
      destruct Hitem as (card & details & -> & Hd & Hn).
      assert (listed_name (JObject card) = Some (JString name)) as Hl
        by (simpl; by rewrite Hd, Hn).
      split.
      - simpl. rewrite Hd, IH1. by destruct (card !! "name").
      - change (omap listed_name (JObject card :: items))
          with (match listed_name (JObject card) with
                | Some y => y :: omap listed_name items
                | None => omap listed_name items
                end).
        rewrite Hl.
        change (mapM as_string (JString name :: omap listed_name items))
          with (y ← as_string (JString name);
                k ← mapM as_string (omap listed_name items); mret (y :: k)).
        by rewrite IH2. }
    rewrite Hb, Hn in Hreply. by injection Hreply. }
  split; [done|]. unfold fetch_cubecobra_list. by rewrite Henv.
Qed.

(** X4. The mainboard loop lets two exceptions escape
    [fetch_cubecobra_list], which catches neither. It is a [TypeError]
    when the reply, or its ['cards'], is not a dict, or when
    ['mainboard'] cannot be iterated. It is an [AttributeError] when a
    card of the list has ['details'] that are no dict and no ['name'] of
    its own: the branch that reports the card asks the details for
    their keys. In both cases the function raises the exception. *)
Theorem uncaught_exceptions_of_the_mainboard_loop cube_data e :
  mainboard_card_names cube_data = Uncaught e →
  (e = TypeError ∧
   cubecobra_reply_of (Some cube_data) = Some UnexpectedShape ∧
   (is_dict cube_data = false ∨
    ∃ members cards,
      cube_data = JObject members ∧ members !! "cards" = Some cards ∧
      (is_dict cards = false ∨
       ∃ keys mainboard,
         cards = JObject keys ∧ keys !! "mainboard" = Some mainboard ∧
         iterable mainboard = false))) ∨
  (e = AttributeError ∧
   cubecobra_reply_of (Some cube_data) = Some UnnamedCard ∧
   ∃ members cards items card details,
     cube_data = JObject members ∧ members !! "cards" = Some (JObject cards) ∧
     cards !! "mainboard" = Some (JArray items) ∧
     JObject card ∈ items ∧
     card !! "details" = Some details ∧ is_dict details = false ∧
     card !! "name" = None).
Proof.
  intros Hrun. pose proof Hrun as Hcases. rewrite mainboard_card_names_cases in Hcases.
  assert (e = TypeError → cubecobra_reply_of (Some cube_data) = Some UnexpectedShape) as Hreply.
  { intros ->. unfold cubecobra_reply_of. by rewrite Hrun. }
  assert (e = AttributeError → cubecobra_reply_of (Some cube_data) = Some UnnamedCard) as Hattr.
  { intros ->. unfold cubecobra_reply_of. by rewrite Hrun. }
  destruct cube_data as [| | | | |members];
    try (injection Hcases as <-; left; split_and!; [done|by apply Hreply|by left]).
  destruct (members !! "cards") as [cards|] eqn:Hc; [|done].
  destruct cards as [| | | | |keys];
    try (injection Hcases as <-; left; split_and!; [done|by apply Hreply|];
         right; eexists _, _; split_and!; [done..|by left]).
  destruct (keys !! "mainboard") as [mainboard|] eqn:Hm; [|done].
  destruct mainboard as [| | |s|items|ks]; simpl in Hcases; try done;
    try (injection Hcases as <-; left; split_and!; [done|by apply Hreply|];
         right; eexists _, _; split_and!; [done..|];
         right; eexists _, _; by split_and!).
  destruct (existsb broken_card items) eqn:Hb; [|done]. injection Hcases as <-.
  right. split; [done|]. split; [by apply Hattr|].
  apply existsb_exists in Hb as (card & Hin & Hcard).
  destruct card as [| | | | |card]; try done. simpl in Hcard.
  destruct (card !! "details") as [details|] eqn:Hd; [|done].
  destruct (card !! "name") eqn:Hn; [done|].
  exists members, keys, items, card, details. split_and!; try done.
  - by apply list_elem_of_In.
  - by apply negb_true_iff.
Qed.
End CubeCobraReply.

(** ** The cube context of the prompt *)

Section CubeContext.
Variable env : environment.

Lemma slice_to_prefix {A} n (l : list A) : slice_to n l `prefix_of` l.
Proof. unfold slice_to. destruct (0 <=? n); apply prefix_take. Qed.

Lemma length_slice_to {A} n (l : list A) :
  length (slice_to n l) =
  if 0 <=? n then (Z.to_nat n `min` length l)%nat else (length l - Z.to_nat (- n))%nat.
Proof. unfold slice_to. destruct (0 <=? n); rewrite length_take; lia. Qed.

Lemma calls_only_bind_post P {A B} (Q : A → Prop) (m : M A) (f : A → M B) :
  calls_only P m → (∀ w a w', m w = (Return a, w') → Q a) →
  (∀ a, Q a → calls_only P (f a)) → calls_only P (m ≫= f).
Proof.
  intros Hm HQ Hf w. unfold mbind, M_bind. destruct (Hm w) as (cs & Hcs & HP).
  destruct (m w) as [[a|e] w1] eqn:E; simpl in *; [|by exists cs].
  destruct (Hf a (HQ _ _ _ E) w1) as (cs' & Hcs' & HP'). exists (cs ++ cs')%list.
  rewrite Hcs', Hcs, (assoc_L (++)). split; [done|]. by apply Forall_app.
Qed.

Lemma cube_context_single_pass cubecobra_id image p path :
  (∀ image, cube_context_of env cubecobra_id (ExtractionCall p image)) →
  calls_only (cube_context_of env cubecobra_id) (_single_pass_extraction env image p path).
Proof.
  intros Hp w. rewrite single_pass_run. eexists. split; [done|]. by repeat constructor.
Qed.

Lemma cube_context_multi_pass cubecobra_id image p cube path :
  (∀ image, cube_context_of env cubecobra_id (ExtractionCall p image)) →
  calls_only (cube_context_of env cubecobra_id) (_multi_pass_extraction env image p cube path).
Proof.
  intros Hp w. rewrite multi_pass_run.
  repeat (case_match; simpl); eexists; (split; [done|]); by repeat constructor.
Qed.

(** X5. Every extraction call [extract_card_names] makes with a cube
    context in its prompt was made for a cube id that is not empty and
    for which CubeCobra answered with a mainboard that is not empty; the
    context is a prefix of the sorted list, of
    [min(max_cards_in_prompt, len)] names when the option is not negative
    (360 when it is unset) and of all but the last [-max_cards_in_prompt]
    names when it is. *)
Theorem cube_context_is_a_bounded_prefix image_path cubecobra_id use_multi_pass w :
  Forall (cube_context_of env cubecobra_id)
    (new_calls w (extract_card_names env image_path cubecobra_id use_multi_pass w).2).
Proof.
  apply calls_only_new_calls. unfold extract_card_names.
  apply calls_only_bind; [apply calls_only_convert|]. intros compatible.
  apply calls_only_bind; [apply calls_only_resize|]. intros processed.
  apply calls_only_bind; [apply calls_only_read_bytes|]. intros image.
  apply (calls_only_bind_post _
    (λ cube, truthy_list cube = true →
       ∃ cube_id names, cubecobra_id = Some cube_id ∧ cube_id ≠ "" ∧
         cubecobra env cube_id = MainboardNames names ∧ names ≠ [] ∧
         cube = Some (sorted_set names))).
  { destruct (truthy_str _); [apply calls_only_fetch|apply calls_only_ret]. }
  { intros w0 cube w1. destruct cubecobra_id as [[|c id]|]; simpl.
    - by intros [= <- _].
    - unfold fetch_cubecobra_list. destruct (cubecobra env _) as [|names| |] eqn:E; [| |done..].
      + by intros [= <- _].
      + intros [= <- _] Ht. exists (String c id), names. split_and!; try done.
        intros Hn. by rewrite Hn in Ht.
    - by intros [= <- _]. }
  intros cube Hcube. apply calls_only_try_finally; [|apply calls_only_remove_files].
  assert (∀ image, cube_context_of env cubecobra_id (ExtractionCall
            (if truthy_list cube
             then ExtractionPrompt (Some (slice_to
                    (get_int (config env) "cubecobra" "max_cards_in_prompt" 360)
                    (default [] cube)))
             else ExtractionPrompt None) image)) as Hp.
  { intros image'. destruct (truthy_list cube) eqn:Ht; [|done].
    destruct (Hcube eq_refl) as (cube_id & names & -> & Hid & Hreply & Hne & ->).
    exists cube_id, names. split_and!; try done. split.
    - apply slice_to_prefix.
    - apply length_slice_to. }
  destruct (_ && _); [by apply cube_context_multi_pass|by apply cube_context_single_pass].
Qed.
End CubeContext.

(** ** Orientation detection *)

Section Detection.
Variable env : environment.
Import PurePath PurePathFacts.

(** [detect_image_orientation], run symbolically. *)
Lemma detect_run image_path w :
  ∃ r w',
    detect_image_orientation env image_path w = (r, w') ∧
    fetch_log w' = fetch_log w ∧
    (disk w' = disk w ∨
     ∃ ending, ending ∈ [".png"; ".jpg"] ∧ converted ending image_path ≠ image_path ∧
       disk w' = delete (converted ending image_path) (disk w)) ∧
    ((r = Raise UnboundLocalError ∧ w' = w ∧ disk w !! image_path = None) ∨
     ∃ image, is_Some (disk w !! image_path) ∧
       engine_log w' = (engine_log w ++ [OrientationCall image])%list ∧
       r = match orientation_engine env (length (engine_log w)) image with
           | EngineRaises => Raise UnboundLocalError
           | Response None => Raise SystemExit
           | Response (Some result) => Return (rotation_needed result)
           end).
Proof.
  unfold detect_image_orientation. unfold try_then at 1.
  destruct (convert_run env image_path w)
    as [->|(ending & how & img & -> & Hend & Hne & Hsome & _)].
  - unfold try_then, detection_failed, responses_parse_orientation. run.
    rewrite bool_decide_eq_false_2 by (by intros []). simpl.
    destruct (disk w !! image_path) as [f|] eqn:Hf; simpl.
    + destruct (orientation_engine env _ f) as [|[result|]] eqn:He; simpl;
        eexists _, _; (split; [done|]); (split; [done|]); (split; [by left|]);
        right; exists f; rewrite He; by split_and!.
    + eexists _, _. split; [done|]. split; [done|]. split; [by left|]. by left.
  - unfold try_then, detection_failed, responses_parse_orientation. run.
    rewrite lookup_insert_eq. simpl.
    rewrite bool_decide_eq_true_2 by done. simpl.
    destruct (orientation_engine env _ _) as [|[result|]] eqn:He; simpl;
      rewrite ?lookup_insert_eq; simpl;
      eexists _, _; (split; [done|]); (split; [done|]); simpl;
      (split; [right; exists ending; by rewrite delete_insert_eq|]);
      right; eexists; rewrite He; by split_and!.
Qed.
(** X9. [detect_image_orientation] ends in one of three ways: it returns
    the rotation the engine answered, it raises [SystemExit], or it
    raises the [UnboundLocalError] of its own [except] clause. It makes at
    most one engine call, an orientation call, and no request; every
    file on the disk afterwards was there before, and the photograph
    itself is as it was. *)
Theorem orientation_detection_outcomes image_path w :
  ∃ r w',
    detect_image_orientation env image_path w = (r, w') ∧
    (r = Raise UnboundLocalError ∨ r = Raise SystemExit ∨
     ∃ image result,
       orientation_engine env (length (engine_log w)) image = Response (Some result) ∧
       r = Return (rotation_needed result)) ∧
    (length (new_calls w w') ≤ 1)%nat ∧
    Forall (λ c, is_extraction_call c = false) (new_calls w w') ∧
    disk w' ⊆ disk w ∧
    disk w' !! image_path = disk w !! image_path ∧
    fetch_log w' = fetch_log w.
Proof.
  destruct (detect_run image_path w) as (r & w' & Hrun & Hfetch & Hdisk & Hcalls).
  exists r, w'. split; [done|].
  assert (disk w' ⊆ disk w ∧ disk w' !! image_path = disk w !! image_path) as [Hsub Hsame].
  { destruct Hdisk as [->|(ending & _ & Hne & ->)]; [done|].
    split; [apply delete_subseteq|by apply lookup_delete_ne]. }
  destruct Hcalls as [(-> & -> & _)|(image & _ & Hlog & ->)].
  - rewrite new_calls_refl. split_and!; try done; [by left|simpl; lia].
  - assert (new_calls w w' = [OrientationCall image]) as ->.
    { unfold new_calls. by rewrite Hlog, drop_app_length. }
    split_and!; try done; [|by repeat constructor].
    destruct (orientation_engine env _ image) as [|[result|]] eqn:He;
      [by left|right; right; by exists image, result|right; by left].
Qed.

(** X10. When the engine answers the orientation call with a response
    that did not parse, [detect_image_orientation] raises [SystemExit]
    after exactly one call, the converted copy made for the call is
    gone, and through the composed entry point the exit passes every
    [except Exception] handler a caller may wrap around it. *)
Theorem unparsed_orientation_response_exits image_path cubecobra_id use_multi_pass w :
  is_Some (disk w !! image_path) →
  (∀ image, orientation_engine env (length (engine_log w)) image = Response None) →
  ∃ w',
    detect_image_orientation env image_path w = (Raise SystemExit, w') ∧
    (Str.contains "_oriented" (stem (Path image_path)) = false →
     ∀ handler,
       try_except
         (extract_card_names_with_orientation env image_path cubecobra_id use_multi_pass)
         handler w = (Raise SystemExit, w')) ∧
    disk w' ⊆ disk w ∧
    length (new_calls w w') = 1%nat ∧
    fetch_log w' = fetch_log w.
Proof.
  intros [f Hf] Hengine.
  destruct (detect_run image_path w) as (r & w' & Hrun & Hfetch & Hdisk & Hcalls).
  destruct Hcalls as [(_ & _ & Hnone)|(image & _ & Hlog & ->)]; [congruence|].
  rewrite Hengine in Hrun. exists w'. split; [done|]. split_and!.
  - intros Hguard handler. unfold try_except, extract_card_names_with_orientation.
    rewrite Hguard. unfold mbind at 1. unfold M_bind at 1. by rewrite Hrun.
  - destruct Hdisk as [->|(ending & _ & Hne & ->)]; [done|apply delete_subseteq].
  - unfold new_calls. by rewrite Hlog, drop_app_length.
  - done.
Qed.
End Detection.

(** ** What a run may touch *)

Section Frame.
Variable env : environment.
Import Str PurePath StrFacts PurePathFacts.

Lemma resized_converted_differs ending s :
  ending ∈ [".png"; ".jpg"] → marked "_resized" (converted ending s) ≠ s.
Proof.
  intros He E.
  assert (stem (Path s) ++ "_converted" ≠ "") as Hfront.
  { intros H%(f_equal String.length). rewrite length_app in H. simpl in H. lia. }
  destruct (split_at_ending _ _ _ (name_converted ending s He) Hfront He) as [Hstem Hsuffix].
  pose proof (name_marked "_" "r" "esized" (converted ending s) eq_refl) as Hname.
  rewrite E, Hstem, Hsuffix, <- stem_suffix, !app_assoc in Hname.
  apply (inj (String.app _)) in Hname.
  destruct (suffix_head (Path s)) as [H|[rest H]]; rewrite H in Hname; done.
Qed.

Lemma temporary_names_exclude_input image_path : image_path ∉ temporary_names image_path.
Proof.
  unfold temporary_names. rewrite !not_elem_of_cons. split_and!.
  - intros E. by apply (converted_ne ".png" image_path).
  - intros E. by apply (converted_ne ".jpg" image_path).
  - intros E. by apply (marked_ne "_" "r" "esized" image_path).
  - intros E. apply (resized_converted_differs ".png" image_path); [by left|done].
  - intros E. apply (resized_converted_differs ".jpg" image_path); [by right; left|done].
  - apply not_elem_of_nil.
Qed.

Lemma extract_card_names_frame image_path cubecobra_id use_multi_pass w path :
  path ∉ temporary_names image_path →
  disk (extract_card_names env image_path cubecobra_id use_multi_pass w).2 !! path
  = disk w !! path.
Proof.
  intros Hpath.
  unfold temporary_names in Hpath. rewrite !not_elem_of_cons in Hpath.
  destruct Hpath as (Hpng & Hjpg & Hres & Hrpng & Hrjpg & _).
  destruct (extract_card_names env image_path cubecobra_id use_multi_pass w)
    as [r w'] eqn:Hrun. simpl.
  unfold extract_card_names in Hrun. unfold mbind at 1 in Hrun. unfold M_bind at 1 in Hrun.
  assert (∀ cube image w, disk ((if use_multi_pass && get_use_multi_pass_detection (config env)
            then _multi_pass_extraction env image
                   (if truthy_list cube
                    then ExtractionPrompt (Some (slice_to
                           (get_int (config env) "cubecobra" "max_cards_in_prompt" 360)
                           (default [] cube)))
                    else ExtractionPrompt None) cube image_path
            else _single_pass_extraction env image
                   (if truthy_list cube
                    then ExtractionPrompt (Some (slice_to
                           (get_int (config env) "cubecobra" "max_cards_in_prompt" 360)
                           (default [] cube)))
                    else ExtractionPrompt None) image_path) w).2 = disk w) as Hpasses.
  { intros cube image w0. destruct (_ && _);
      [apply disk_multi_pass|apply disk_single_pass]. }
  destruct (convert_run env image_path w)
    as [Hc|(ending & how & img & Hc & Hend & Hne & _ & Hext)]; rewrite Hc in Hrun; clear Hc.
  - unfold mbind at 1 in Hrun. unfold M_bind at 1 in Hrun. rewrite resize_run in Hrun.
    destruct (disk w !! image_path) as [[b|how img]|] eqn:Hf;
      [by injection Hrun as <- <-| |by injection Hrun as <- <-].
    cbv zeta in Hrun. destruct (_ && _).
    + unfold mbind at 1 in Hrun. unfold M_bind at 1 in Hrun.
      unfold encode_image, read_bytes in Hrun. rewrite Hf in Hrun.
      rewrite !bool_decide_eq_false_2 in Hrun by (by intros []). simpl app in Hrun.
      eapply fetch_and_passes_disk in Hrun as [-> | ->];
        [done|done|by intros; apply Hpasses].
    + destruct (save_ok env _ _ _); [|by injection Hrun as <- <-].
      unfold mbind at 1 in Hrun. unfold M_bind at 1 in Hrun.
      unfold encode_image, read_bytes in Hrun. simpl disk in Hrun.
      rewrite lookup_insert_eq in Hrun.
      rewrite (bool_decide_eq_false_2 (image_path ≠ image_path)) in Hrun by (by intros []).
      rewrite bool_decide_eq_true_2 in Hrun by (by apply (marked_ne "_" "r" "esized")).
      simpl app in Hrun.
      eapply fetch_and_passes_disk in Hrun as [-> | ->];
        [| |by intros; apply Hpasses]; simpl;
        by rewrite ?lookup_delete_ne, ?lookup_insert_ne by done.
  - assert (path ≠ converted ending image_path ∧
            path ≠ marked "_resized" (converted ending image_path)) as [Hconv Hrconv].
    { apply list_elem_of_In in Hend. simpl in Hend. by destruct Hend as [<-|[<-|[]]]. }
    set (conv := converted ending image_path) in *.
    pose proof (marked_ne "_" "r" "esized" conv eq_refl) as Hresized'.
    unfold mbind at 1 in Hrun. unfold M_bind at 1 in Hrun. rewrite resize_run in Hrun.
    simpl disk in Hrun. rewrite lookup_insert_eq in Hrun.
    cbv zeta in Hrun. destruct (_ && _).
    + unfold mbind at 1 in Hrun. unfold M_bind at 1 in Hrun.
      unfold encode_image, read_bytes in Hrun. simpl disk in Hrun.
      rewrite lookup_insert_eq in Hrun.
      rewrite bool_decide_eq_true_2 in Hrun by done.
      rewrite bool_decide_eq_false_2 in Hrun by (by intros []). simpl app in Hrun.
      eapply fetch_and_passes_disk in Hrun as [-> | ->];
        [| |by intros; apply Hpasses]; simpl;
        by rewrite ?lookup_delete_ne, ?lookup_insert_ne by done.
    + destruct (save_ok env _ _ _).
      2:{ injection Hrun as <- <-. simpl. by rewrite lookup_insert_ne. }
      unfold mbind at 1 in Hrun. unfold M_bind at 1 in Hrun.
      unfold encode_image, read_bytes in Hrun. simpl disk in Hrun.
      rewrite lookup_insert_eq in Hrun.
      rewrite bool_decide_eq_true_2 in Hrun by done.
      rewrite bool_decide_eq_true_2 in Hrun by done.
      simpl app in Hrun.
      eapply fetch_and_passes_disk in Hrun as [-> | ->];
        [| |by intros; apply Hpasses]; simpl;
        by rewrite ?lookup_delete_ne, ?lookup_insert_ne by done.
Qed.

(** X12. [extract_card_names] touches nothing but the siblings it derives
    from the path it is given, the converted copy, the resized copy and
    the resized copy of the converted one: every other path, the input
    among them, holds afterwards what it held before, a file that is
    gone was one of those siblings, and when the call returns every file
    on the disk was there before. *)
Theorem extract_card_names_touches_only_its_siblings
    image_path cubecobra_id use_multi_pass w r w' :
  extract_card_names env image_path cubecobra_id use_multi_pass w = (r, w') →
  (image_path ∉ temporary_names image_path) ∧
  (∀ path, path ∉ temporary_names image_path → disk w' !! path = disk w !! path) ∧
  (∀ path, is_Some (disk w !! path) → disk w' !! path = None →
     path ∈ temporary_names image_path) ∧
  ((∃ names, r = Return names) → disk w' ⊆ disk w).
Proof.
  intros Hrun.
  assert (∀ path, path ∉ temporary_names image_path → disk w' !! path = disk w !! path)
    as Hframe.
  { intros path Hpath.
    pose proof (extract_card_names_frame image_path cubecobra_id use_multi_pass w path Hpath)
      as H. by rewrite Hrun in H. }
  split_and!; [apply temporary_names_exclude_input|done| |].
  - intros path [f Hf] Hgone.
    destruct (decide (path ∈ temporary_names image_path)) as [|Hout]; [done|].
    rewrite (Hframe _ Hout), Hf in Hgone. done.
  - intros Hr. eapply extract_card_names_cleans_up; [done|by left].
Qed.
Lemma length_ne_app (a b : string) : b ≠ "" → a ≠ a ++ b.
Proof.
  intros Hb E%(f_equal String.length). rewrite length_app in E.
  destruct b; [done|]. simpl in E. lia.
Qed.

(** The names written for an oriented copy are not the name of the
    photograph the copy was made from. *)
Lemma oriented_temporaries_exclude_source s :
  s ∉ marked "_oriented" s :: temporary_names (marked "_oriented" s).
Proof.
  set (out := marked "_oriented" s).
  pose proof (name_marked "_" "o" "riented" s eq_refl) as Hout. fold out in Hout.
  assert (∀ a ending, ending ∈ [".png"; ".jpg"] → a ≠ "" →
            name (Path s) = a ++ ending → stem (Path out) = stem (Path s) ++ "_oriented")
    as Hstem.
  { intros a ending He Ha Hn.
    destruct (split_at_ending _ _ _ Hn Ha He) as [_ Hsuf].
    rewrite Hsuf, <- app_assoc in Hout.
    refine (proj1 (split_at_ending _ _ _ Hout _ He)).
    intros H%(f_equal String.length). rewrite length_app in H. simpl in H. lia. }
  assert (∀ a, a ≠ "" → ∀ ending, ending ∈ [".png"; ".jpg"] →
            name (Path s) ≠ (stem (Path out) ++ a) ++ ending) as Hclash.
  { intros a Ha ending He Hn.
    assert (stem (Path out) ++ a ≠ "") as Hfront.
    { intros H%(f_equal String.length). rewrite length_app in H.
      destruct a; [done|]. simpl in H. lia. }
    pose proof (Hstem _ _ He Hfront Hn) as Hso.
    destruct (split_at_ending _ _ _ Hn Hfront He) as [Hs _].
    rewrite Hso, !app_assoc in Hs. by apply length_ne_app in Hs. }
  assert (∀ ending, ending ∈ [".png"; ".jpg"] → converted ending out ≠ s) as Hconv.
  { intros ending He E. pose proof (name_converted ending out He) as Hn.
    rewrite E in Hn. by apply Hclash in Hn. }
  assert (∀ ending, ending ∈ [".png"; ".jpg"] →
            marked "_resized" (converted ending out) ≠ s) as Hrconv.
  { intros ending He E.
    assert (stem (Path out) ++ "_converted" ≠ "") as Hfront.
    { intros H%(f_equal String.length). rewrite length_app in H. simpl in H. lia. }
    destruct (split_at_ending _ _ _ (name_converted ending out He) Hfront He)
      as [Hstem' Hsuffix'].
    pose proof (name_marked "_" "r" "esized" (converted ending out) eq_refl) as Hn.
    rewrite E, Hstem', Hsuffix' in Hn.
    apply (Hclash "_converted_resized" ltac:(done) ending He).
    rewrite Hn, !app_assoc. reflexivity. }
  unfold temporary_names. rewrite !not_elem_of_cons. split_and!.
  - intros E. by apply (marked_ne "_" "o" "riented" s).
  - intros E. apply (Hconv ".png"); [by left|done].
  - intros E. apply (Hconv ".jpg"); [by right; left|done].
  - intros E. pose proof (name_marked "_" "r" "esized" out eq_refl) as Hn.
    rewrite <- E in Hn. apply (f_equal String.length) in Hn.
    pose proof (f_equal String.length (stem_suffix (Path out))) as H1.
    pose proof (f_equal String.length (stem_suffix (Path s))) as H2.
    rewrite Hout in H1. rewrite !length_app in Hn. rewrite !length_app in H1.
    rewrite !length_app in H2. cbn [String.length] in *. lia.
  - intros E. apply (Hrconv ".png"); [by left|done].
  - intros E. apply (Hrconv ".jpg"); [by right; left|done].
  - apply not_elem_of_nil.
Qed.

Lemma pipeline_names_exclude_source image_path : image_path ∉ pipeline_names image_path.
Proof.
  unfold pipeline_names. rewrite not_elem_of_app. split.
  - apply temporary_names_exclude_input.
  - apply oriented_temporaries_exclude_source.
Qed.

Lemma bind_ret_world {A B} (m : M A) (g : A → B) w :
  ((m ≫= λ a, mret (g a)) w).2 = (m w).2.
Proof. unfold mbind, M_bind, mret, M_ret. by destruct (m w) as [[a|e] w']. Qed.

Lemma with_orientation_frame image_path cubecobra_id use_multi_pass w path :
  path ∉ pipeline_names image_path →
  disk (extract_card_names_with_orientation env image_path cubecobra_id use_multi_pass w).2
    !! path = disk w !! path.
Proof.
  unfold pipeline_names. rewrite not_elem_of_app, not_elem_of_cons.
  intros (Htemp & Hout & Htemp').
  unfold extract_card_names_with_orientation. destruct (contains _ _).
  - rewrite bind_ret_world. by apply extract_card_names_frame.
  - unfold mbind at 1. unfold M_bind at 1.
    destruct (detect_run env image_path w) as (r & w1 & -> & _ & Hdisk & Hcalls).
    assert (disk w1 !! path = disk w !! path) as Hw1.
    { destruct Hdisk as [->|(ending & Hend & Hne & ->)]; [done|].
      apply lookup_delete_ne. intros <-.
      apply Htemp. unfold temporary_names.
      apply list_elem_of_In in Hend. simpl in Hend.
      destruct Hend as [<-|[<-|[]]]; [by left|by right; left]. }
    destruct r as [rotation_needed|e]; [|done].
    unfold mbind at 1. unfold M_bind at 1.
    case_bool_decide as Hrot.
    + rewrite rotate_run by done. unfold rotation_target. simpl default.
      fold (marked "_oriented" image_path).
      destruct (disk w1 !! image_path) as [[b|how img]|] eqn:Hf; simpl.
      * rewrite bind_ret_world. by rewrite extract_card_names_frame.
      * destruct (save_ok env _ _ _).
        -- rewrite bind_ret_world. rewrite extract_card_names_frame by done.
           simpl. by rewrite lookup_insert_ne.
        -- rewrite bind_ret_world. by rewrite extract_card_names_frame.
      * rewrite bind_ret_world. by rewrite extract_card_names_frame.
    + unfold mret at 1. unfold M_ret at 1. rewrite bind_ret_world.
      by rewrite extract_card_names_frame.
Qed.
Lemma extract_card_names_needs_its_input image_path cubecobra_id use_multi_pass w :
  disk w !! image_path = None →
  extract_card_names env image_path cubecobra_id use_multi_pass w
    = (Raise FileNotFoundError, w).
Proof.
  intros Hf. unfold extract_card_names. unfold mbind at 1. unfold M_bind at 1.
  destruct (convert_run env image_path w) as [->|(? & ? & ? & _ & _ & _ & [f Hf'] & _)];
    [|congruence].
  unfold mbind at 1. unfold M_bind at 1. rewrite resize_run. by rewrite Hf.
Qed.

Lemma extract_card_names_returns_with_input image_path cubecobra_id use_multi_pass w names w' :
  extract_card_names env image_path cubecobra_id use_multi_pass w = (Return names, w') →
  is_Some (disk w' !! image_path).
Proof.
  intros Hrun.
  pose proof (extract_card_names_keeps_its_input env image_path cubecobra_id use_multi_pass w)
    as Hkeep. rewrite Hrun in Hkeep. simpl in Hkeep. rewrite Hkeep.
  destruct (disk w !! image_path) eqn:Hf; [done|].
  by rewrite extract_card_names_needs_its_input in Hrun.
Qed.

Lemma parent_joinpath p n : plain n → parent (joinpath p n) = p.
Proof.
  intros Hn. rewrite (joinpath_plain _ _ Hn). unfold parent. simpl.
  rewrite List.removelast_last. by destruct p.
Qed.

Lemma parent_derived s n :
  plain n → parent (Path (str (joinpath (parent (Path s)) n))) = parent (Path s).
Proof.
  intros Hn. rewrite Path_str.
  - by apply parent_joinpath.
  - apply normal_joinpath; [|done]. apply normal_parent, normal_Path.
Qed.

Lemma parent_marked c1 c2 m s :
  slash_free (String c1 (String c2 m)) = true →
  parent (Path (marked (String c1 (String c2 m)) s)) = parent (Path s).
Proof.
  intros Hm. apply parent_derived, plain_derived; [done|apply slash_free_suffix].
Qed.

Lemma parent_converted ending s :
  slash_free ending = true → parent (Path (converted ending s)) = parent (Path s).
Proof. intros He. by apply parent_derived, (plain_derived s "_" "c" "onverted"). Qed.

Lemma temporary_names_are_siblings s t :
  t ∈ temporary_names s → parent (Path t) = parent (Path s).
Proof.
  unfold temporary_names. rewrite !elem_of_cons.
  intros [->|[->|[->|[->|[->|[]%elem_of_nil]]]]];
    rewrite ?(parent_marked "_" "r" "esized") by done; by rewrite ?parent_converted.
Qed.

(** X19. Every name the pipeline derives lies in the directory of the
    photograph and differs from the photograph's own path. *)
Theorem pipeline_names_are_siblings image_path t :
  t ∈ pipeline_names image_path →
  parent (Path t) = parent (Path image_path) ∧ t ≠ image_path.
Proof.
  intros Ht. split.
  - unfold pipeline_names in Ht. rewrite elem_of_app, elem_of_cons in Ht.
    destruct Ht as [Ht|[->|Ht]].
    + by apply temporary_names_are_siblings.
    + by apply (parent_marked "_" "o" "riented").
    + rewrite (temporary_names_are_siblings _ _ Ht).
      by apply (parent_marked "_" "o" "riented").
  - intros ->. by apply (pipeline_names_exclude_source image_path).
Qed.

(** X17. Whatever happens, the composed entry point leaves the
    photograph it was given as it was, and any other file it changes or
    deletes bears one of the names it derives from the photograph's. *)
Theorem source_photograph_is_never_modified image_path cubecobra_id use_multi_pass w :
  let w' :=
    (extract_card_names_with_orientation env image_path cubecobra_id use_multi_pass w).2 in
  disk w' !! image_path = disk w !! image_path ∧
  (∀ path, is_Some (disk w !! path) → disk w' !! path ≠ disk w !! path →
     path ∈ pipeline_names image_path ∧ path ≠ image_path).
Proof.
  intros w'. split.
  - apply with_orientation_frame, pipeline_names_exclude_source.
  - intros path _ Hchanged.
    destruct (decide (path ∈ pipeline_names image_path)) as [Hin|Hout].
    + split; [done|]. intros ->. by apply (pipeline_names_exclude_source image_path).
    + destruct Hchanged. by apply with_orientation_frame.
Qed.

(** X18. When the composed entry point returns, the path it reports as
    the oriented image is the input path or its [_oriented] sibling, and
    a file is there, so that the caller can store it; the photograph was
    on the disk to begin with. *)
Theorem reported_oriented_path_is_on_disk
    image_path cubecobra_id use_multi_pass w result w' :
  extract_card_names_with_orientation env image_path cubecobra_id use_multi_pass w
    = (Return result, w') →
  ExtractionResult.oriented_image_path result
    ∈ [image_path; marked "_oriented" image_path] ∧
  is_Some (disk w' !! ExtractionResult.oriented_image_path result) ∧
  is_Some (disk w !! image_path).
Proof.
  intros Hrun. unfold extract_card_names_with_orientation in Hrun.
  assert (∀ p w1,
            (extract_card_names env p cubecobra_id use_multi_pass ≫=
               λ card_names, mret (ExtractionResult.make card_names p)) w1
              = (Return result, w') →
            ExtractionResult.oriented_image_path result = p ∧
            is_Some (disk w' !! p) ∧ is_Some (disk w1 !! p)) as Hextract.
  { intros p w1. unfold mbind, M_bind, mret, M_ret.
    destruct (extract_card_names env p cubecobra_id use_multi_pass w1)
      as [[names|e] w2] eqn:E; [|done]. intros [= <- <-]. split; [done|]. split.
    - by eapply extract_card_names_returns_with_input.
    - destruct (disk w1 !! p) eqn:Hf; [done|].
      by rewrite extract_card_names_needs_its_input in E. }
  destruct (contains _ _).
  - apply Hextract in Hrun as (-> & H1 & H2). split_and!; [by left|done..].
  - unfold mbind at 1 in Hrun. unfold M_bind at 1 in Hrun.
    destruct (detect_run env image_path w) as (r & w1 & Hdet & _ & Hdisk & Hcalls).
    rewrite Hdet in Hrun.
    destruct Hcalls as [(-> & _)|(image & Hsrc & _ & Hr)]; [done|].
    destruct r as [rotation_needed|e]; [|done].
    unfold mbind at 1 in Hrun. unfold M_bind at 1 in Hrun.
    case_bool_decide as Hrot.
    + rewrite rotate_run in Hrun by done. unfold rotation_target in Hrun.
      simpl default in Hrun. fold (marked "_oriented" image_path) in Hrun.
      destruct (disk w1 !! image_path) as [[b|how img]|] eqn:Hf; simpl in Hrun.
      * apply Hextract in Hrun as (-> & H1 & H2). split_and!; [by left|done..].
      * destruct (save_ok env _ _ _).
        -- apply Hextract in Hrun as (-> & H1 & H2). split_and!; [by right; left|done..].
        -- apply Hextract in Hrun as (-> & H1 & H2). split_and!; [by left|done..].
      * apply Hextract in Hrun as (-> & H1 & H2). split_and!; [by left|done..].
    + unfold mret at 1 in Hrun. unfold M_ret at 1 in Hrun.
      apply Hextract in Hrun as (-> & H1 & H2). split_and!; [by left|done..].
Qed.
End Frame.

Section TakenNames.
Variable env : environment.
Import Str PurePath StrFacts PurePathFacts.

(** X24. A photograph with an accepted extension that exceeds the size
    bound takes over the name of its resized copy: when
    [extract_card_names] returns, no file bears that name, whatever bore
    it before the call. *)
Theorem a_large_photograph_claims_its_resized_name
    image_path cubecobra_id use_multi_pass how img w names w' :
  Str.lower (suffix (Path image_path)) ∈ [".jpg"; ".jpeg"; ".png"] →
  disk w !! image_path = Some (Encoded how img) →
  ¬ (fst (Image.size img) ≤ get_int (config env) "image_processing" "max_image_width" 2048 ∧
     snd (Image.size img) ≤ get_int (config env) "image_processing" "max_image_height" 2048) →
  extract_card_names env image_path cubecobra_id use_multi_pass w = (Return names, w') →
  disk w' = delete (marked "_resized" image_path) (disk w) ∧
  marked "_resized" image_path ≠ image_path.
Proof.
  intros Hext Hf Hlarge Hrun.
  split; [|by apply (marked_ne "_" "r" "esized")].
  unfold extract_card_names in Hrun. unfold mbind at 1 in Hrun. unfold M_bind at 1 in Hrun.
  unfold _convert_to_compatible_format in Hrun.
  rewrite bool_decide_eq_true_2 in Hrun by done.
  unfold mret at 1 in Hrun. unfold M_ret at 1 in Hrun.
  unfold mbind at 1 in Hrun. unfold M_bind at 1 in Hrun. rewrite resize_run, Hf in Hrun.
  cbv zeta in Hrun. simpl default in Hrun.
  destruct (_ && _) eqn:Hfit.
  { destruct Hlarge. apply andb_true_iff in Hfit as [H1 H2]. split; by apply Z.leb_le. }
  destruct (save_ok env _ _ _); [|done].
  unfold mbind at 1 in Hrun. unfold M_bind at 1 in Hrun.
  unfold encode_image, read_bytes in Hrun. simpl disk in Hrun.
  rewrite lookup_insert_eq in Hrun.
  rewrite (bool_decide_eq_false_2 (image_path ≠ image_path)) in Hrun by (by intros []).
  rewrite bool_decide_eq_true_2 in Hrun by (by apply (marked_ne "_" "r" "esized")).
  simpl app in Hrun.
  eapply fetch_and_passes_clean_up in Hrun; [| |done].
  - rewrite Hrun. simpl. apply delete_insert_eq.
  - intros cube w0. simpl.
    destruct (use_multi_pass && get_use_multi_pass_detection (config env));
      [apply disk_multi_pass|apply disk_single_pass].
Qed.
End TakenNames.

(** ** The preparation steps, one by one *)

Section Steps.
Variable env : environment.
Import Str PurePath StrFacts PurePathFacts.

Lemma rotated_size angle img :
  0 ≤ angle < 360 →
  (angle `mod` 180 = 0 → Image.size (Image_rotate env angle img) = Image.size img) ∧
  (angle `mod` 180 = 90 →
     Image.size (Image_rotate env angle img) = (snd (Image.size img), fst (Image.size img))).
Proof.
  intros Hrange. unfold Image_rotate. destruct (Image.size img) as [width height]. simpl.
  split; intros Hmod.
  - assert (angle = 0 ∨ angle = 180) as [-> | ->] by (Z.div_mod_to_equations; lia); done.
  - assert (angle = 90 ∨ angle = 270) as [-> | ->] by (Z.div_mod_to_equations; lia); done.
Qed.

(** X8. [rotate_and_save_image] never raises and makes no engine call or
    request. It returns the input path in an unchanged world, or, for a
    rotation other than 0, the target path after writing exactly that
    file: the image of the source in the same mode, of the same size
    when the rotation is a multiple of 180 and with width and height
    exchanged when it is an odd multiple of 90. *)
Theorem rotation_never_raises image_path rotation_degrees output_path w :
  ∃ p w',
    rotate_and_save_image env image_path rotation_degrees output_path w = (Return p, w') ∧
    engine_log w' = engine_log w ∧ fetch_log w' = fetch_log w ∧
    (p = image_path ∧ w' = w ∨
     rotation_degrees ≠ 0 ∧ p = rotation_target image_path output_path ∧
     ∃ how img how' rotated_img,
       disk w !! image_path = Some (Encoded how img) ∧
       disk w' = <[p := Encoded how' rotated_img]> (disk w) ∧
       Image.mode rotated_img = Image.mode img ∧
       (rotation_degrees `mod` 180 = 0 → Image.size rotated_img = Image.size img) ∧
       (rotation_degrees `mod` 180 = 90 →
          Image.size rotated_img = (snd (Image.size img), fst (Image.size img)))).
Proof.
  destruct (decide (rotation_degrees = 0)) as [->|Hr].
  { exists image_path, w. split_and!; try done. by left. }
  rewrite rotate_run by done.
  destruct (disk w !! image_path) as [[b|how img]|] eqn:Hf;
    [exists image_path, w; split_and!; try done; by left| |
     exists image_path, w; split_and!; try done; by left].
  cbv zeta. destruct (save_ok env _ _ _);
    [|exists image_path, w; split_and!; try done; by left].
  eexists _, _. split; [done|]. split_and!; try done. right.
  split; [done|]. split; [done|]. eexists how, img, _, _. split; [done|].
  split; [done|]. split; [unfold Image_rotate; by destruct (Image.size img)|].
  assert (0 ≤ (360 - rotation_degrees) `mod` 360 < 360) as Hrange
    by (apply Z.mod_pos_bound; lia).
  destruct (rotated_size ((360 - rotation_degrees) `mod` 360) img Hrange) as [H0 H90].
  split; intros Hmod; [apply H0|apply H90];
    clear -Hmod; Z.div_mod_to_equations; lia.
Qed.
Lemma suffix_converted ending s :
  ending ∈ [".png"; ".jpg"] → suffix (Path (converted ending s)) = ending.
Proof.
  intros He.
  assert (stem (Path s) ++ "_converted" ≠ "") as Hfront.
  { intros H%(f_equal String.length). rewrite length_app in H. simpl in H. lia. }
  by destruct (split_at_ending _ _ _ (name_converted ending s He) Hfront He).
Qed.

(** X6. The Format Normalizer never raises and is idempotent: it
    returns a path on which a second call changes nothing. Either it
    hands the input path back in an unchanged world, or it has written
    one sibling of the input, under another name and with the suffix
    [.png] or [.jpg]: the image as it was for the modes ["RGBA"] and
    ["P"], an RGB image of the same size for every other mode. *)
Theorem format_normaliser_is_idempotent image_path w :
  ∃ p w1,
    _convert_to_compatible_format env image_path w = (Return p, w1) ∧
    _convert_to_compatible_format env p w1 = (Return p, w1) ∧
    engine_log w1 = engine_log w ∧ fetch_log w1 = fetch_log w ∧
    (p = image_path ∧ w1 = w ∨
     ∃ ending how img how' img',
       ending ∈ [".png"; ".jpg"] ∧
       p = converted ending image_path ∧ p ≠ image_path ∧
       suffix (Path p) = ending ∧
       disk w !! image_path = Some (Encoded how img) ∧
       disk w1 = <[p := Encoded how' img']> (disk w) ∧
       Image.size img' = Image.size img ∧
       (ending = ".png" → img' = img ∧ Image.mode img ∈ ["RGBA"; "P"]) ∧
       (ending = ".jpg" → Image.mode img' = "RGB" ∧ Image.mode img ∉ ["RGBA"; "P"])).
Proof.
  assert (∀ ending, ending ∈ [".png"; ".jpg"] → ∀ w1,
            _convert_to_compatible_format env (converted ending image_path) w1
            = (Return (converted ending image_path), w1)) as Hagain.
  { intros ending He w1. unfold _convert_to_compatible_format at 1.
    rewrite suffix_converted by done. rewrite bool_decide_eq_true_2; [done|].
    apply list_elem_of_In in He. simpl in He.
    destruct He as [<-|[<-|[]]]; vm_compute; repeat constructor. }
  destruct (_convert_to_compatible_format env image_path w) as [r w1] eqn:Hrun.
  pose proof Hrun as Hrun'.
  unfold _convert_to_compatible_format in Hrun.
  case_bool_decide as Hext.
  { injection Hrun as <- <-. exists image_path, w. split_and!; try done. by left. }
  revert Hrun. run.
  destruct (disk w !! image_path) as [[b|how img]|] eqn:Hf; simpl;
    [intros [= <- <-]; exists image_path, w; split_and!; try done; by left| |
     intros [= <- <-]; exists image_path, w; split_and!; try done; by left].
  case_bool_decide as Hmode; run.
  - fold (converted ".png" image_path).
    destruct (save_ok env _ _ img) eqn:Hs; simpl; intros [= <- <-];
      [|exists image_path, w; split_and!; try done; by left].
    eexists _, _. split; [done|]. split; [apply Hagain; by left|].
    split_and!; try done. right.
    eexists ".png", how, img, _, img. split_and!; try done.
    + by left.
    + by apply converted_ne.
    + apply suffix_converted. by left.
  - fold (converted ".jpg" image_path).
    destruct (save_ok env _ _ _) eqn:Hs; simpl; intros [= <- <-];
      [|exists image_path, w; split_and!; try done; by left].
    eexists _, _. split; [done|]. split; [apply Hagain; by right; left|].
    split_and!; try done. right.
    eexists ".jpg", how, img, _, _. split_and!; try done.
    + by right; left.
    + by apply converted_ne.
    + apply suffix_converted. by right; left.
    + by case_bool_decide.
    + by case_bool_decide.
Qed.
(** X7. Provided PIL's [thumbnail] keeps within the bound it is given,
    resizing is idempotent: a path that [resize_image_if_needed]
    returned comes back unchanged from a second call, which writes
    nothing. What the first call returned is the input path in an
    unchanged world, or the [_resized] sibling it has just written, in
    the mode of the original. *)
Theorem resizing_twice_changes_nothing image_path max_size w p w' :
  (∀ bound size,
     fst (thumbnail_size env bound size) ≤ fst bound ∧
     snd (thumbnail_size env bound size) ≤ snd bound) →
  resize_image_if_needed env image_path max_size w = (Return p, w') →
  resize_image_if_needed env p max_size w' = (Return p, w') ∧
  (p = image_path ∧ w' = w ∨
   p = marked "_resized" image_path ∧ p ≠ image_path ∧
   ∃ how img how' img',
     disk w !! image_path = Some (Encoded how img) ∧
     disk w' = <[p := Encoded how' img']> (disk w) ∧
     Image.mode img' = Image.mode img).
Proof.
  intros Hpil Hrun. pose proof Hrun as Hrun'. rewrite resize_run in Hrun.
  destruct (disk w !! image_path) as [[b|how img]|] eqn:Hf; [done| |done].
  cbv zeta in Hrun. destruct (_ && _) eqn:Hfit.
  { injection Hrun as <- <-. split; [done|]. by left. }
  destruct (save_ok env _ _ _); [|done]. injection Hrun as <- <-. split.
  - rewrite resize_run. simpl disk. rewrite lookup_insert_eq. cbv zeta.
    set (bound := default _ max_size).
    destruct (Hpil bound (Image.size img)) as [Hw Hh].
    apply Z.leb_le in Hw, Hh. unfold Image_thumbnail. simpl. by rewrite Hw, Hh.
  - right. split; [done|]. split; [by apply (marked_ne "_" "r" "esized")|].
    by eexists how, img, _, _.
Qed.
Lemma lookup_foldl_delete (files : list string) (d : gmap string file) p :
  foldl (λ d f, delete f d) d files !! p = if bool_decide (p ∈ files) then None else d !! p.
Proof.
  revert d. induction files as [|f files IH]; intros d.
  - case_bool_decide as H; [by apply elem_of_nil in H|done].
  - change (foldl (λ d f, delete f d) d (f :: files))
      with (foldl (λ d f, delete f d) (delete f d) files).
    rewrite IH. destruct (decide (p = f)) as [->|Hne].
    + rewrite lookup_delete_eq. rewrite (bool_decide_eq_true_2 (f ∈ f :: files)) by left.
      by case_bool_decide.
    + rewrite lookup_delete_ne by done.
      case_bool_decide as H1; case_bool_decide as H2; try done.
      * destruct H2. by right.
      * apply elem_of_cons in H2 as [?|?]; done.
Qed.

(** X13. The loop of the [finally] clause never raises: it deletes the
    listed files, skipping those that are missing, leaves every other
    path as it was and makes no engine call or request. *)
Theorem cleanup_never_raises files w :
  ∃ w',
    remove_files files w = (Return (), w') ∧
    (∀ p, disk w' !! p = if bool_decide (p ∈ files) then None else disk w !! p) ∧
    engine_log w' = engine_log w ∧ fetch_log w' = fetch_log w.
Proof.
  rewrite remove_files_run. eexists. split; [done|]. split; [|done].
  intros p. simpl. apply lookup_foldl_delete.
Qed.
End Steps.

(** ** Engine calls *)

Section EngineCalls.
Variable env : environment.
Import Str PurePath StrFacts PurePathFacts.

Lemma fetch_and_passes_run (body : option (list string) → M (list string))
    cubecobra_id files w1 r w' :
  ((if truthy_str cubecobra_id
    then fetch_cubecobra_list env (default "" cubecobra_id) else mret None)
   ≫= λ cube, try_finally (body cube) (remove_files files)) w1 = (r, w') →
  ((r = Raise TypeError ∨ r = Raise AttributeError) ∧ engine_log w' = engine_log w1) ∨
  ∃ cube w2 w3,
    engine_log w2 = engine_log w1 ∧
    fetch_log w2 = (fetch_log w1 ++
                    if truthy_str cubecobra_id then [default "" cubecobra_id] else [])%list ∧
    (if truthy_str cubecobra_id
     then match cubecobra env (default "" cubecobra_id) with
          | RequestFailed => cube = None
          | MainboardNames names => cube = Some (sorted_set names)
          | UnexpectedShape | UnnamedCard => False
          end
     else cube = None) ∧
    body cube w2 = (r, w3) ∧
    engine_log w' = engine_log w3 ∧ fetch_log w' = fetch_log w3.
Proof.
  intros Hrun. unfold mbind, M_bind, try_finally in Hrun.
  assert (∀ cube w2,
            (let (r0, w3) := body cube w2 in
             match remove_files files w3 with
             | (Return _, w'') => (r0, w'')
             | (Raise e, w'') => (Raise e, w'')
             end) = (r, w') →
            ∃ w3, body cube w2 = (r, w3) ∧
              engine_log w' = engine_log w3 ∧ fetch_log w' = fetch_log w3) as Hfin.
  { intros cube w2. destruct (body cube w2) as [r0 w3].
    rewrite remove_files_run. intros [= <- <-]. by exists w3. }
  destruct (truthy_str cubecobra_id); simpl in Hrun.
  - unfold fetch_cubecobra_list in Hrun.
    destruct (cubecobra env _) as [|names| |] eqn:Hreply; simpl in Hrun.
    + right. apply Hfin in Hrun as (w3 & ? & ? & ?). eexists None, _, w3.
      split_and!; [| | |done..]; done.
    + right. apply Hfin in Hrun as (w3 & ? & ? & ?). eexists (Some _), _, w3.
      split_and!; [| | |done..]; done.
    + left. injection Hrun as <- <-. split; [by left|done].
    + left. injection Hrun as <- <-. split; [by right|done].
  - right. apply Hfin in Hrun as (w3 & ? & ? & ?). eexists None, _, w3.
    split_and!; try done. simpl. by rewrite app_nil_r.
Qed.

Lemma extract_card_names_run image_path cubecobra_id use_multi_pass w r w' :
  extract_card_names env image_path cubecobra_id use_multi_pass w = (r, w') →
  (∃ e, r = Raise e ∧
     e ∈ [FileNotFoundError; UnidentifiedImageError; SaveError; TypeError; AttributeError] ∧
     engine_log w' = engine_log w) ∨
  ∃ image cube w2 w3,
    engine_log w2 = engine_log w ∧
    fetch_log w2 = (fetch_log w ++
                    if truthy_str cubecobra_id then [default "" cubecobra_id] else [])%list ∧
    (if truthy_str cubecobra_id
     then match cubecobra env (default "" cubecobra_id) with
          | RequestFailed => cube = None
          | MainboardNames names => cube = Some (sorted_set names)
          | UnexpectedShape | UnnamedCard => False
          end
     else cube = None) ∧
    extraction_step env use_multi_pass image cube image_path w2 = (r, w3) ∧
    engine_log w' = engine_log w3 ∧ fetch_log w' = fetch_log w3.
Proof.
  intros Hrun.
  unfold extract_card_names in Hrun. unfold mbind at 1 in Hrun. unfold M_bind at 1 in Hrun.
  assert (∀ e, e ∈ [FileNotFoundError; UnidentifiedImageError; SaveError] →
            e ∈ [FileNotFoundError; UnidentifiedImageError; SaveError; TypeError; AttributeError]) as Hin.
  { intros e. rewrite !elem_of_cons. tauto. }
  assert (∀ image files w1, engine_log w1 = engine_log w → fetch_log w1 = fetch_log w →
            ((if truthy_str cubecobra_id
              then fetch_cubecobra_list env (default "" cubecobra_id) else mret None)
             ≫= λ cube, try_finally (extraction_step env use_multi_pass image cube image_path)
                          (remove_files files)) w1 = (r, w') →
            (∃ e, r = Raise e ∧
               e ∈ [FileNotFoundError; UnidentifiedImageError; SaveError; TypeError; AttributeError] ∧
               engine_log w' = engine_log w) ∨
            ∃ image cube w2 w3,
              engine_log w2 = engine_log w ∧
              fetch_log w2 = (fetch_log w ++
                 if truthy_str cubecobra_id then [default "" cubecobra_id] else [])%list ∧
              (if truthy_str cubecobra_id
               then match cubecobra env (default "" cubecobra_id) with
                    | RequestFailed => cube = None
                    | MainboardNames names => cube = Some (sorted_set names)
                    | UnexpectedShape | UnnamedCard => False
                    end
               else cube = None) ∧
              extraction_step env use_multi_pass image cube image_path w2 = (r, w3) ∧
              engine_log w' = engine_log w3 ∧ fetch_log w' = fetch_log w3) as Htail.
  { intros image files w1 He Hfe Htail.
    apply fetch_and_passes_run in Htail
      as [[[-> | ->] Hlog]|(cube & w2 & w3 & H1 & H2 & H3 & H4 & H5)].
    - left. exists TypeError. split_and!; [done|set_solver|by rewrite Hlog].
    - left. exists AttributeError. split_and!; [done|set_solver|by rewrite Hlog].
    - right. exists image, cube, w2, w3.
      destruct H5. split_and!; try done; rewrite ?H1, ?H2, ?Hfe; done. }
  destruct (convert_run env image_path w)
    as [Hc|(ending & how & img & Hc & Hend & Hne & _ & Hext)]; rewrite Hc in Hrun; clear Hc.
  - unfold mbind at 1 in Hrun. unfold M_bind at 1 in Hrun. rewrite resize_run in Hrun.
    destruct (disk w !! image_path) as [[b|how img]|] eqn:Hf.
    + injection Hrun as <- <-. left. eexists. split_and!; [done|set_solver|done].
    + cbv zeta in Hrun. destruct (_ && _).
      * unfold mbind at 1 in Hrun. unfold M_bind at 1 in Hrun.
        unfold encode_image, read_bytes in Hrun. rewrite Hf in Hrun.
        by eapply Htail in Hrun.
      * destruct (save_ok env _ _ _).
        -- unfold mbind at 1 in Hrun. unfold M_bind at 1 in Hrun.
           unfold encode_image, read_bytes in Hrun. simpl disk in Hrun.
           rewrite lookup_insert_eq in Hrun. by eapply Htail in Hrun.
        -- injection Hrun as <- <-. left. eexists. split_and!; [done|set_solver|done].
    + injection Hrun as <- <-. left. eexists. split_and!; [done|set_solver|done].
  - unfold mbind at 1 in Hrun. unfold M_bind at 1 in Hrun. rewrite resize_run in Hrun.
    simpl disk in Hrun. rewrite lookup_insert_eq in Hrun.
    cbv zeta in Hrun. destruct (_ && _).
    + unfold mbind at 1 in Hrun. unfold M_bind at 1 in Hrun.
      unfold encode_image, read_bytes in Hrun. simpl disk in Hrun.
      rewrite lookup_insert_eq in Hrun. by eapply Htail in Hrun.
    + destruct (save_ok env _ _ _).
      * unfold mbind at 1 in Hrun. unfold M_bind at 1 in Hrun.
        unfold encode_image, read_bytes in Hrun. simpl disk in Hrun.
        rewrite lookup_insert_eq in Hrun. by eapply Htail in Hrun.
      * injection Hrun as <- <-. left. eexists. split_and!; [done|set_solver|done].
Qed.

(** X14. When no extraction call yields a name, because the engine
    raises, answers without a parsed result or finds nothing,
    [extract_card_names] does not fail: once the image is prepared it
    returns the empty list after exactly one call, also in multi-pass
    mode and with a reference list. The only other outcome is an
    exception of the preparation or of the fetch, with no call made:
    a missing or unreadable photograph, a copy that cannot be saved, or
    the [TypeError] or [AttributeError] that a malformed reply of
    CubeCobra raises in [fetch_cubecobra_list]. *)
Theorem engine_failure_yields_an_empty_list
    image_path cubecobra_id use_multi_pass w r w' :
  (∀ n p image, pass_result env n (ExtractionCall p image) = []) →
  extract_card_names env image_path cubecobra_id use_multi_pass w = (r, w') →
  (r = Return [] ∧ ∃ p image, new_calls w w' = [ExtractionCall (ExtractionPrompt p) image]) ∨
  (∃ e, r = Raise e ∧
     e ∈ [FileNotFoundError; UnidentifiedImageError; SaveError; TypeError; AttributeError] ∧
     new_calls w w' = []).
Proof.
  intros Hengine Hrun.
  apply extract_card_names_run in Hrun
    as [(e & -> & He & Hlog)|(image & cube & w2 & w3 & H1 & _ & _ & Hstep & H2 & _)].
  { right. exists e. split_and!; [done..|]. unfold new_calls. rewrite Hlog. apply drop_all. }
  left. unfold extraction_step in Hstep.
  assert (∀ p, engine_log w3 = (engine_log w2 ++ [ExtractionCall (ExtractionPrompt p) image])%list →
            ∃ p image, new_calls w w' = [ExtractionCall (ExtractionPrompt p) image]) as Hcalls.
  { intros p Hlog. exists p, image. unfold new_calls.
    by rewrite H2, Hlog, H1, drop_app_length. }
  destruct (_ && _).
  - rewrite multi_pass_run in Hstep. rewrite Hengine in Hstep.
    rewrite andb_false_r in Hstep. injection Hstep as <- <-. split.
    + unfold update. simpl. rewrite (right_id_L ∅ (∪)). by rewrite elements_empty.
    + destruct (truthy_list cube); by eapply Hcalls.
  - rewrite single_pass_run in Hstep. rewrite Hengine in Hstep.
    injection Hstep as <- <-. split; [done|].
    destruct (truthy_list cube); by eapply Hcalls.
Qed.
Lemma extraction_step_calls use_multi_pass image cube image_path w :
  ∃ p cs,
    engine_log (extraction_step env use_multi_pass image cube image_path w).2
      = (engine_log w ++ ExtractionCall (ExtractionPrompt p) image :: cs)%list ∧
    (length cs ≤ 2)%nat ∧
    Forall (λ c, is_extraction_call c = true) cs ∧
    (use_multi_pass && get_use_multi_pass_detection (config env) = false →
     cs = [] ∧
     (extraction_step env use_multi_pass image cube image_path w).1
       = Return (pass_result env (length (engine_log w))
                   (ExtractionCall (ExtractionPrompt p) image))).
Proof.
  unfold extraction_step.
  pose (p := if truthy_list cube
            then Some (slice_to (get_int (config env) "cubecobra" "max_cards_in_prompt" 360)
                         (default [] cube))
            else None).
  assert ((if truthy_list cube
           then ExtractionPrompt (Some (slice_to
                  (get_int (config env) "cubecobra" "max_cards_in_prompt" 360)
                  (default [] cube)))
           else ExtractionPrompt None) = ExtractionPrompt p) as ->
    by (unfold p; by destruct (truthy_list cube)).
  exists p. destruct (_ && _).
  - rewrite multi_pass_run.
    repeat (case_match; simpl); eexists; (split; [done|]);
      (split; [simpl; lia|]); (split; [by repeat constructor|done]).
  - rewrite single_pass_run. exists []. simpl. split_and!; try done. lia.
Qed.

Lemma extract_card_names_calls image_path cubecobra_id use_multi_pass w r w' :
  extract_card_names env image_path cubecobra_id use_multi_pass w = (r, w') →
  (new_calls w w' = [] ∧ ∃ e, r = Raise e) ∨
  ∃ p image cs,
    new_calls w w' = ExtractionCall (ExtractionPrompt p) image :: cs ∧
    (length cs ≤ 2)%nat ∧
    Forall (λ c, is_extraction_call c = true) cs ∧
    (use_multi_pass && get_use_multi_pass_detection (config env) = false →
     cs = [] ∧
     r = Return (pass_result env (length (engine_log w))
                   (ExtractionCall (ExtractionPrompt p) image))).
Proof.
  intros Hrun.
  apply extract_card_names_run in Hrun
    as [(e & -> & He & Hlog)|(image & cube & w2 & w3 & H1 & _ & _ & Hstep & H2 & _)].
  { left. split; [|by exists e]. unfold new_calls. rewrite Hlog. apply drop_all. }
  right.
  destruct (extraction_step_calls use_multi_pass image cube image_path w2)
    as (p & cs & Hlog & Hlen & Hcs & Hsingle).
  rewrite Hstep in Hlog, Hsingle. simpl in Hlog, Hsingle.
  exists p, image, cs. split_and!; try done.
  - unfold new_calls. by rewrite H2, Hlog, H1, drop_app_length.
  - intros Hoff. rewrite <- H1. by apply Hsingle.
Qed.

(** X15. With multi-pass detection switched off, by the argument or by
    the configuration, a run of [extract_card_names] that returns has
    made exactly one engine call and returns the names of that call as
    they came, repeated names included; the temporary files are gone. *)
Theorem single_pass_mode_returns_the_engine_list
    image_path cubecobra_id use_multi_pass w names w' :
  use_multi_pass && get_use_multi_pass_detection (config env) = false →
  extract_card_names env image_path cubecobra_id use_multi_pass w = (Return names, w') →
  ∃ p image,
    new_calls w w' = [ExtractionCall (ExtractionPrompt p) image] ∧
    names = pass_result env (length (engine_log w)) (ExtractionCall (ExtractionPrompt p) image) ∧
    disk w' ⊆ disk w.
Proof.
  intros Hoff Hrun. pose proof Hrun as Hdisk.
  apply extract_card_names_cleans_up in Hdisk; [|left; by eexists].
  apply extract_card_names_calls in Hrun
    as [[_ [e [=]]]|(p & image & cs & Hcalls & _ & _ & Hsingle)].
  destruct (Hsingle Hoff) as [-> [= ->]]. by exists p, image.
Qed.

(** X16. The composed entry point makes at most four engine calls for a
    photograph: at most one orientation call, which comes first, and at
    most three extraction calls; no orientation call at all when the
    stem carries ["_oriented"]. *)
Theorem at_most_four_engine_calls image_path cubecobra_id use_multi_pass w :
  let w' :=
    (extract_card_names_with_orientation env image_path cubecobra_id use_multi_pass w).2 in
  ∃ detection extraction,
    new_calls w w' = (detection ++ extraction)%list ∧
    (length detection ≤ 1)%nat ∧
    Forall (λ c, is_extraction_call c = false) detection ∧
    (length extraction ≤ 3)%nat ∧
    Forall (λ c, is_extraction_call c = true) extraction ∧
    (Str.contains "_oriented" (stem (Path image_path)) = true → detection = []).
Proof.
  intros w'.
  assert (∀ p w1 detection,
            engine_log w1 = (engine_log w ++ detection)%list →
            ∃ extraction,
              new_calls w ((extract_card_names env p cubecobra_id use_multi_pass ≫=
                 λ card_names, mret (ExtractionResult.make card_names p)) w1).2
                = (detection ++ extraction)%list ∧
              (length extraction ≤ 3)%nat ∧
              Forall (λ c, is_extraction_call c = true) extraction) as Hextract.
  { intros p w1 detection Hlog. rewrite bind_ret_world.
    destruct (extract_card_names env p cubecobra_id use_multi_pass w1) as [r w2] eqn:Hrun.
    destruct (extraction_only_extract_card_names env p cubecobra_id use_multi_pass w1)
      as (cs' & Hcs' & _). rewrite Hrun in Hcs'. simpl in Hcs'. simpl.
    assert (new_calls w1 w2 = cs') as Hnew
      by (unfold new_calls; by rewrite Hcs', drop_app_length).
    assert (new_calls w w2 = (detection ++ cs')%list) as ->.
    { unfold new_calls. by rewrite Hcs', Hlog, <- (assoc_L (++)), drop_app_length. }
    exists cs'. split; [done|].
    apply extract_card_names_calls in Hrun
      as [[Hcalls _]|(q & image & cs & Hcalls & Hlen & Hcs & _)];
      rewrite Hnew in Hcalls; subst cs'.
    - split; [simpl; lia|done].
    - split; [simpl; lia|by constructor]. }
  unfold w', extract_card_names_with_orientation.
  destruct (contains _ _).
  - destruct (Hextract image_path w []) as (extraction & Hcalls & Hlen & Hcs);
      [by rewrite app_nil_r|].
    exists [], extraction. split_and!; try done. simpl; lia.
  - unfold mbind at 1. unfold M_bind at 1.
    destruct (detect_run env image_path w) as (r & w1 & -> & _ & _ & Hcalls).
    assert (∃ detection, engine_log w1 = (engine_log w ++ detection)%list ∧
              (length detection ≤ 1)%nat ∧
              Forall (λ c, is_extraction_call c = false) detection)
      as (detection & Hlog & Hlen & Hdet).
    { destruct Hcalls as [(_ & -> & _)|(image & _ & Hlog & _)].
      - exists []. rewrite app_nil_r. split_and!; [done|simpl; lia|done].
      - exists [OrientationCall image]. split_and!; [done|simpl; lia|by repeat constructor]. }
    assert (∀ p w2, engine_log w2 = engine_log w1 →
              ∃ detection extraction,
                new_calls w ((extract_card_names env p cubecobra_id use_multi_pass ≫=
                   λ card_names, mret (ExtractionResult.make card_names p)) w2).2
                  = (detection ++ extraction)%list ∧
                (length detection ≤ 1)%nat ∧
                Forall (λ c, is_extraction_call c = false) detection ∧
                (length extraction ≤ 3)%nat ∧
                Forall (λ c, is_extraction_call c = true) extraction ∧
                (false = true → detection = [])) as Hrest.
    { intros p w2 Hw2. rewrite <- Hw2 in Hlog.
      destruct (Hextract p w2 detection Hlog) as (extraction & H1 & H2 & H3).
      by exists detection, extraction. }
    destruct r as [rotation_needed|e].
    + unfold mbind at 1. unfold M_bind at 1. case_bool_decide as Hrot.
      * rewrite rotate_run by done.
        destruct (disk w1 !! image_path) as [[b|how img]|]; [by apply Hrest| |by apply Hrest].
        cbv zeta. destruct (save_ok env _ _ _); by apply Hrest.
      * by apply Hrest.
    + exists detection, []. simpl. rewrite app_nil_r. split_and!; try done; [|lia].
      unfold new_calls. by rewrite Hlog, drop_app_length.
Qed.
End EngineCalls.

(** ** Batch processing *)

Section BatchFacts.
Variable env : environment.

Lemma process_images_app dir id before rest results w :
  process_images env dir id (before ++ rest) results w =
  match process_images env dir id before results w with
  | (Return results', w') => process_images env dir id rest results' w'
  | (Raise e, w') => (Raise e, w')
  end.
Proof.
  revert results w. induction before as [|f before IH]; intros results w; simpl; [done|].
  destruct (supported f); [|apply IH].
  unfold mbind, M_bind.
  destruct (extract_card_names env _ id true w) as [[names|e] w1]; [apply IH|done].
Qed.


End BatchFacts.

Section BatchTheorems.
Variable env : environment.
Variable os_listdir : string → option (list string).


(** X22. The batch has no handler of its own: when [extract_card_names]
    raises on a supported entry, [process_multiple_images] raises the
    same exception in the same world, and the results gathered for the
    entries before it are lost. *)
Theorem batch_stops_at_first_failure dir id before filename rest w results w1 e w2 :
  os_listdir dir = Some (before ++ filename :: rest)%list →
  process_images env dir id before ∅ w = (Return results, w1) →
  supported filename = true →
  extract_card_names env (os_path_join dir filename) id true w1 = (Raise e, w2) →
  process_multiple_images env os_listdir dir id w = (Raise e, w2).
Proof.
  intros Hls Hdone Hs Hfail. unfold process_multiple_images. rewrite Hls.
  rewrite process_images_app, Hdone. simpl. rewrite Hs.
  unfold mbind, M_bind. by rewrite Hfail.
Qed.
End BatchTheorems.

Section DirectoryEntries.
Import Str PurePath StrFacts PurePathFacts.

Lemma drop_length_app a b : drop (String.length (a ++ b) - String.length b) (a ++ b) = b.
Proof.
  rewrite length_app. replace (String.length a + String.length b - String.length b)%nat
    with (String.length a) by lia. apply drop_app.
Qed.

Lemma endswith_app a b : endswith (a ++ b) b = true.
Proof.
  unfold endswith. rewrite drop_length_app, String.eqb_refl, andb_true_r.
  apply Nat.leb_le. rewrite length_app. lia.
Qed.

Lemma endswith_inv s ending : endswith s ending = true → ∃ a, s = a ++ ending.
Proof.
  unfold endswith. intros [_ H%String.eqb_eq]%andb_true_iff.
  exists (take (String.length s - String.length ending) s).
  etrans; [symmetry; apply (take_drop (String.length s - String.length ending))|].
  by rewrite H.
Qed.

Lemma root_of_other c s : c ≠ "/"%char → root_of (String c s) = "".
Proof. intros Hc. destruct c as [[] [] [] [] [] [] [] []]; done. Qed.

Lemma root_of_one c s : c ≠ "/"%char → root_of (String "/" (String c s)) = "/".
Proof. intros Hc. destruct c as [[] [] [] [] [] [] [] []]; done. Qed.

Lemma root_of_two c s :
  c ≠ "/"%char → root_of (String "/" (String "/" (String c s))) = "//".
Proof. intros Hc. destruct c as [[] [] [] [] [] [] [] []]; done. Qed.

Lemma root_of_app_plain a n :
  head_slash n = false → (a = "" ∨ endswith a "/" = true) → root_of (a ++ n) = root_of a.
Proof.
  intros Hn [->|[d ->]%endswith_inv].
  - rewrite app_empty. by destruct (root_of_head n Hn) as (-> & _).
  - destruct n as [|c n]; [by rewrite app_empty_r|]. simpl in Hn.
    apply Ascii.eqb_neq in Hn.
    destruct d as [|c1 d]; repeat (rewrite app_cons || rewrite app_empty).
    { by rewrite root_of_one. }
    destruct (decide (c1 = "/"%char)) as [->|H1]; [|by rewrite !root_of_other].
    destruct d as [|c2 d]; repeat (rewrite app_cons || rewrite app_empty).
    { by rewrite root_of_two. }
    destruct (decide (c2 = "/"%char)) as [->|H2]; [|by rewrite !root_of_one].
    destruct d as [|c3 d]; repeat (rewrite app_cons || rewrite app_empty); [done|].
    destruct (decide (c3 = "/"%char)) as [->|H3]; [done|by rewrite !root_of_two].
Qed.

Lemma root_of_app_sep a s :
  a ≠ "" → endswith a "/" = false → root_of (a ++ String "/" s) = root_of a.
Proof.
  intros Ha Hend.
  destruct a as [|c1 a]; [done|]. rewrite app_cons.
  destruct (decide (c1 = "/"%char)) as [->|H1]; [|by rewrite !root_of_other].
  destruct a as [|c2 a]; [done|]. rewrite app_cons.
  destruct (decide (c2 = "/"%char)) as [->|H2]; [|by rewrite !root_of_one].
  destruct a as [|c3 a]; [done|]. rewrite app_cons.
  destruct (decide (c3 = "/"%char)) as [->|H3]; [done|by rewrite !root_of_two].
Qed.

Lemma filter_kept_split_sep a :
  List.filter kept (split_slash (a ++ "/")) = List.filter kept (split_slash a).
Proof.
  rewrite split_slash_app. rewrite List.filter_app. simpl. apply app_nil_r.
Qed.

(** On an entry of a directory [os.path.join] and [pathlib] agree. *)
Lemma Path_os_path_join dir filename :
  plain filename → Path (os_path_join dir filename) = joinpath (Path dir) filename.
Proof.
  intros Hf. rewrite (joinpath_plain _ _ Hf). unfold os_path_join.
  pose proof (plain_head _ Hf) as Hh. rewrite Hh.
  destruct Hf as [Hfree Hkept].
  destruct (String.eqb dir "" || endswith dir "/") eqn:Hdir.
  - apply orb_true_iff in Hdir. unfold Path. f_equal.
    + apply root_of_app_plain; [done|]. destruct Hdir as [->%String.eqb_eq|]; auto.
    + destruct Hdir as [->%String.eqb_eq|[d ->]%endswith_inv].
      * rewrite app_empty, (split_slash_free _ Hfree). simpl. by rewrite Hkept.
      * rewrite filter_kept_split_sep. rewrite app_assoc.
        change ("/" ++ filename) with (String "/" filename).
        rewrite split_slash_app, List.filter_app, (split_slash_free _ Hfree).
        simpl. by rewrite Hkept.
  - apply orb_false_iff in Hdir as [Hne%String.eqb_neq Hend]. unfold Path. f_equal.
    + change ("/" ++ filename) with (String "/" filename). by apply root_of_app_sep.
    + change ("/" ++ filename) with (String "/" filename).
      rewrite split_slash_app, List.filter_app, (split_slash_free _ Hfree).
      simpl. by rewrite Hkept.
Qed.


(** X23. For an entry of a directory, a name without a slash that is
    neither empty nor ["."], [os.path.join] builds the path that
    [pathlib] builds: its name is the entry, and its parent is the
    directory. *)
Theorem batch_paths_are_directory_entries dir filename :
  plain filename →
  Path (os_path_join dir filename) = joinpath (Path dir) filename ∧
  name (Path (os_path_join dir filename)) = filename ∧
  parent (Path (os_path_join dir filename)) = Path dir.
Proof.
  intros Hf. rewrite (Path_os_path_join _ _ Hf). split; [done|]. split.
  - by apply name_joinpath.
  - by apply parent_joinpath.
Qed.
End DirectoryEntries.

(** ** The caller *)

Section CubeWizardFacts.
Variable env : environment.
Variable enriched : Type.
Variable collect_deck_metadata : M deck_metadata.
Variable strftime_now : string.
Variable cwd : string.
Variable enrich_card_list : list string → M enriched.
Variable db_add_deck : string → deck_data enriched → M (option Z).
Variable db_get_cube_info : string → M ().

Local Abbreviation process :=
  (process_single_image env enriched collect_deck_metadata strftime_now cwd
     enrich_card_list db_add_deck db_get_cube_info).

Lemma with_orientation_returns image_path cubecobra_id use_multi_pass w result w' :
  extract_card_names_with_orientation env image_path cubecobra_id use_multi_pass w
    = (Return result, w') →
  ∃ w1,
    extract_card_names env (ExtractionResult.oriented_image_path result) cubecobra_id
      use_multi_pass w1 = (Return (ExtractionResult.card_names result), w').
Proof.
  intros Hrun. unfold extract_card_names_with_orientation in Hrun.
  assert (∀ p w1,
            (extract_card_names env p cubecobra_id use_multi_pass ≫=
               λ card_names, mret (ExtractionResult.make card_names p)) w1
              = (Return result, w') →
            ∃ w1, extract_card_names env (ExtractionResult.oriented_image_path result)
                    cubecobra_id use_multi_pass w1
                  = (Return (ExtractionResult.card_names result), w')) as Hextract.
  { intros p w1. unfold mbind, M_bind, mret, M_ret.
    destruct (extract_card_names env p cubecobra_id use_multi_pass w1)
      as [[names|e] w2] eqn:E; [|done]. intros [= <- <-]. by exists w1. }
  destruct (Str.contains _ _); [by eapply Hextract|].
  unfold mbind at 1 in Hrun. unfold M_bind at 1 in Hrun.
  destruct (detect_image_orientation env image_path w) as [[rotation_needed|e] w1]; [|done].
  unfold mbind at 1 in Hrun. unfold M_bind at 1 in Hrun.
  match type of Hrun with
  | (let (o, w') := ?m w1 in _) = _ => destruct (m w1) as [[p|e] w2]
  end; [by eapply Hextract|done].
Qed.

Lemma no_names_from_a_failed_engine image_path cubecobra_id use_multi_pass w names w' :
  (∀ n p image, pass_result env n (ExtractionCall p image) = []) →
  extract_card_names env image_path cubecobra_id use_multi_pass w = (Return names, w') →
  names = [].
Proof.
  intros Hengine Hrun.
  apply extract_card_names_run in Hrun
    as [(e & [=] & _)|(image & cube & w2 & w3 & _ & _ & _ & Hstep & _)].
  unfold extraction_step in Hstep. destruct (_ && _).
  - rewrite multi_pass_run in Hstep. rewrite Hengine in Hstep.
    rewrite andb_false_r in Hstep. injection Hstep as <- _.
    unfold update. simpl. rewrite (right_id_L ∅ (∪)). by rewrite elements_empty.
  - rewrite single_pass_run in Hstep. rewrite Hengine in Hstep. by injection Hstep as <- _.
Qed.

(** X25. When the engine recognises nothing in a photograph that is on
    the disk, and the pipeline gets as far as returning,
    [process_single_image] returns [None] in the world the pipeline
    left: Scryfall and the database are not consulted, whatever they
    are. *)
Theorem engine_failure_stores_nothing image_path cubecobra_id deck_metadata w result w' :
  is_Some (disk w !! image_path) →
  (∀ n p image, pass_result env n (ExtractionCall p image) = []) →
  extract_card_names_with_orientation env image_path cubecobra_id true w
    = (Return result, w') →
  process image_path cubecobra_id (Some deck_metadata) w = (Return None, w').
Proof.
  intros Hf Hengine Hrun.
  assert (ExtractionResult.card_names result = []) as Hnames.
  { apply with_orientation_returns in Hrun as [w1 Hrun].
    by eapply no_names_from_a_failed_engine. }
  unfold process_single_image, mbind, M_bind, os_path_exists.
  rewrite bool_decide_eq_true_2 by done. simpl.
  unfold mret at 1. unfold M_ret at 1. rewrite Hrun.
  by rewrite bool_decide_eq_true_2.
Qed.

(** X27. Whenever [process_single_image] returns a message, the
    photograph was on the disk, the pipeline returned at least one name,
    the message is the one of success with the number of those names,
    and the image reported as oriented was on the disk when the
    pipeline returned. *)
Theorem success_message_counts_the_names image_path cubecobra_id metadata w message w' :
  process image_path cubecobra_id metadata w = (Return (Some message), w') →
  is_Some (disk w !! image_path) ∧
  ∃ result w0 w1,
    extract_card_names_with_orientation env image_path cubecobra_id true w0
      = (Return result, w1) ∧
    ExtractionResult.card_names result ≠ [] ∧
    message = "Deck processed successfully - "
                ++ pretty (length (ExtractionResult.card_names result)) ++ " cards" ∧
    is_Some (disk w1 !! ExtractionResult.oriented_image_path result).
Proof.
  unfold process_single_image, mbind, M_bind, os_path_exists.
  case_bool_decide as Hf; [|done]. simpl. intros Hrun. split; [done|].
  destruct ((match metadata with Some m => mret m | None => collect_deck_metadata end) w)
    as [[deck_metadata|e] w0]; [|done].
  destruct (extract_card_names_with_orientation env image_path cubecobra_id true w0)
    as [[result|e] w1] eqn:Hpipeline; [|done].
  case_bool_decide as Hnames; [done|].
  destruct (enrich_card_list _ w1) as [[card_enriched_data|e] w2]; [|done].
  match type of Hrun with
  | (let (o, w') := ?m w2 in _) = _ => destruct (m w2) as [[deck_id|e] w3]; [|done]
  end.
  injection Hrun as <- <-.
  exists result, w0, w1. split_and!; try done.
  apply with_orientation_returns in Hpipeline as [w1' Hx].
  by eapply extract_card_names_returns_with_input.
Qed.

(** X26. A database that refuses the deck, by answering [None] or by
    raising an exception, does not change what [process_single_image]
    returns: the message of success with the number of names, although
    nothing was stored. *)
Theorem database_failure_is_not_reported
    image_path cube_id deck_metadata w result w1 card_enriched_data w2 outcome w3 :
  is_Some (disk w !! image_path) →
  cube_id ≠ "" →
  extract_card_names_with_orientation env image_path (Some cube_id) true w
    = (Return result, w1) →
  ExtractionResult.card_names result ≠ [] →
  enrich_card_list (ExtractionResult.card_names result) w1
    = (Return card_enriched_data, w2) →
  db_add_deck cube_id
    {| metadata := deck_metadata;
       image_source := absolute cwd (ExtractionResult.oriented_image_path result);
       cube_id := Some cube_id;
       processing_timestamp := strftime_now;
       total_cards := length (ExtractionResult.card_names result);
       cards := card_enriched_data |} w2 = (outcome, w3) →
  (outcome = Return None ∨ ∃ e, outcome = Raise e ∧ is_Exception e = true) →
  process image_path (Some cube_id) (Some deck_metadata) w
  = (Return (Some ("Deck processed successfully - "
                     ++ pretty (length (ExtractionResult.card_names result)) ++ " cards")),
     w3).
Proof.
  intros Hf Hid Hrun Hnames Henrich Hdb Hout.
  unfold process_single_image, mbind, M_bind, os_path_exists.
  rewrite bool_decide_eq_true_2 by done. simpl.
  unfold mret at 1. unfold M_ret at 1. rewrite Hrun.
  rewrite bool_decide_eq_false_2 by done. rewrite Henrich.
  destruct cube_id as [|c id]; [done|]. simpl.
  unfold add_deck_to_database. simpl. unfold try_except, mbind, M_bind.
  rewrite Hdb. destruct Hout as [->|(e & -> & He)]; [done|]. by rewrite He.
Qed.
End CubeWizardFacts.

(** ** Worked examples *)

Section Examples.
Import Scenario PurePath.

Example suffix_keeps_case : suffix (Path "/photos/Alice 3-1.JPG") = ".JPG".
Proof. reflexivity. Qed.

Example stem_of_dotfile : stem (Path "a/./b//.bashrc") = ".bashrc".
Proof. reflexivity. Qed.

Example converted_sibling : converted ".jpg" "./deck.bmp" = "deck_converted.jpg".
Proof. reflexivity. Qed.

Example oriented_sibling : marked "_oriented" "//srv/in/deck.tar.gz" = "//srv/in/deck.tar_oriented.gz".
Proof. reflexivity. Qed.

(** The scenario of the specification: one pass, a repeated name, no
    reference list. *)
Example alice_3_1 :
  (extract_card_names
     (studio 0 [["Lightning Bolt"; "Lightning Bolt"; "Counterspell"]])
     "Alice 3-1.jpg" None true
     (on_disk "Alice 3-1.jpg" (photo "RGB" 1600 1200))).1
  = Return ["Counterspell"; "Lightning Bolt"].
Proof. vm_compute. reflexivity. Qed.

(** Names that differ only in case are kept apart. *)
Example case_is_kept :
  (extract_card_names (studio 0 [["Lightning Bolt"; "lightning bolt"]])
     "Alice 3-1.jpg" None true
     (on_disk "Alice 3-1.jpg" (photo "RGB" 1600 1200))).1
  = Return ["lightning bolt"; "Lightning Bolt"].
Proof. vm_compute. reflexivity. Qed.

(** The guard against a second correction sits in the composed entry
    point: [detect_image_orientation] on its own asks the engine about an
    oriented copy like about any other file. *)
Example detection_itself_is_unguarded :
  new_calls (on_disk "deck_oriented.jpg" (photo "RGB" 1200 1600))
    (detect_image_orientation (studio 0 []) "deck_oriented.jpg"
       (on_disk "deck_oriented.jpg" (photo "RGB" 1200 1600))).2
  = [OrientationCall (photo "RGB" 1200 1600)].
Proof. vm_compute. reflexivity. Qed.

(** The clean-up also fails to happen when the disk takes the converted
    copy but refuses the resized one. *)
Example converted_copy_outlives_a_failed_resize :
  let env := {|
    config := defaults;
    orientation_engine := turn 0;
    extraction_engine := scripted [];
    save_ok := λ path _ _, bool_decide (path = "deck_converted.jpg");
    expanded_size := λ _ size, size;
    thumbnail_size := λ max_size _, max_size;
    cubecobra := λ _, RequestFailed |} in
  let w := on_disk "deck.bmp" (photo "RGB" 6000 4000) in
  let r := extract_card_names env "deck.bmp" None true w in
  r.1 = Raise SaveError ∧ is_Some (disk r.2 !! "deck_converted.jpg").
Proof. vm_compute. split; [done|by eexists]. Qed.

(** The scenario of the specification with a reference list of 40: pass
    1 finds 30 names and pass 2 three more, 33 is below [40 * 0.9], and
    the validation pass asks about the seven names still missing. *)
Example forty_card_reference_list :
  let cube := Some (deck 40) in
  let env := studio 0 [take 30 (deck 40); take 3 (drop 30 (deck 40)); []] in
  let w := on_disk "deck.jpg" (photo "RGB" 1600 1200) in
  let w' := (_multi_pass_extraction env (photo "RGB" 1600 1200)
               (ExtractionPrompt cube) cube "deck.jpg" w).2 in
  ∃ already_found,
    new_calls w w' !! 2%nat
    = Some (ExtractionCall (ValidationPrompt 33 already_found (drop 33 (deck 40)))
              (photo "RGB" 1600 1200)).
Proof. vm_compute. eexists. reflexivity. Qed.

(** The threshold for the default deck size: 35 names are below
    [40 * 0.9], 36 are not. *)
Example coverage_of_forty :
  below_coverage 35 40 = Some true ∧ below_coverage 36 40 = Some false.
Proof. split; vm_compute; reflexivity. Qed.

(** An integer beyond the doubles has no float. *)
Example coverage_overflow : below_coverage 35 (2 ^ 1024) = None.
Proof. vm_compute. reflexivity. Qed.
End Examples.

(** ** The claims at concrete inputs *)

Section Witnesses.
Import Scenario PurePath.

(** C1 on a deck with a three-card reference list: pass 1 finds two
    names, pass 2 the third, and the result is their union. *)
Lemma card_name_set_is_union_of_passes_witness :
  let env := studio 0 [["Lightning Bolt"; "Counterspell"]; ["Brainstorm"]] in
  let cube := Some ["Brainstorm"; "Counterspell"; "Lightning Bolt"] in
  let w := on_disk "deck.jpg" (photo "RGB" 1600 1200) in
  ∃ final_cards w',
    _multi_pass_extraction env (photo "RGB" 1600 1200) (ExtractionPrompt cube) cube
      "deck.jpg" w = (Return final_cards, w') ∧
    pass_results env w w' = [["Lightning Bolt"; "Counterspell"]; ["Brainstorm"]] ∧
    NoDup final_cards ∧
    list_to_set final_cards = names_of (pass_results env w w').
Proof.
  intros env cube w.
  destruct (card_name_set_is_union_of_passes env (photo "RGB" 1600 1200)
              (ExtractionPrompt cube) cube "deck.jpg" w)
    as [(outcome & w' & Hrun & _ & _ & _ & _ & _ & Hout) _].
  destruct outcome as [final_cards|e].
  - destruct Hout as (Hnodup & Hunion & _).
    exists final_cards, w'. split; [exact Hrun|].
    split; [|split; [exact Hnodup|exact Hunion]].
    vm_compute in Hrun. injection Hrun as _ <-. vm_compute. reflexivity.
  - vm_compute in Hrun. discriminate Hrun.
Defined.

(** C2 as stated fails: both names of a two-card reference list are
    found in pass 1, pass 2 adds nothing, 2 is below [40 * 0.9] and
    validation is enabled, yet no third pass runs, because no
    reference entry is left to ask about. *)
Lemma pass3_skipped_when_nothing_is_unfound :
  let env := studio 0 [["Lightning Bolt"; "Counterspell"]; []] in
  let cube := Some ["Counterspell"; "Lightning Bolt"] in
  let w := on_disk "deck.jpg" (photo "RGB" 1600 1200) in
  let w' := (_multi_pass_extraction env (photo "RGB" 1600 1200)
               (ExtractionPrompt cube) cube "deck.jpg" w).2 in
  ¬ ((3 ≤ length (pass_results env w w'))%nat ↔ pass3_conditions env cube w w').
Proof.
  intros env cube w w' [_ H].
  assert (pass3_conditions env cube w w') as Hc.
  { unfold pass3_conditions. split_and!.
    - by eexists.
    - vm_compute. lia.
    - reflexivity.
    - vm_compute. reflexivity. }
  apply H in Hc. vm_compute in Hc. lia.
Qed.

(** C3 with the engine down and a bitmap that has to be converted for
    the call. *)
Lemma orientation_failure_is_fatal_witness :
  let w := on_disk "deck.bmp" (photo "RGB" 1600 1200) in
  (∀ image, orientation_engine engine_down (length (engine_log w)) image = EngineRaises) ∧
  ∃ w',
    detect_image_orientation engine_down "deck.bmp" w = (Raise UnboundLocalError, w') ∧
    (Str.contains "_oriented" (stem (Path "deck.bmp")) = false →
       extract_card_names_with_orientation engine_down "deck.bmp" None true w
         = (Raise UnboundLocalError, w')) ∧
    disk w' ⊆ disk w ∧
    Forall (λ c, is_extraction_call c = false) (new_calls w w') ∧
    fetch_log w' = fetch_log w.
Proof.
  intros w.
  assert (∀ image, orientation_engine engine_down (length (engine_log w)) image
                     = EngineRaises) as H by reflexivity.
  split; [exact H|].
  exact (orientation_failure_is_fatal engine_down "deck.bmp" None true w H).
Defined.

(** The guard on an artifact of an earlier run. *)
Lemma oriented_marker_skips_detection_witness :
  let env := studio 90 [["Lightning Bolt"]] in
  let w := on_disk "deck_oriented.jpg" (photo "RGB" 1200 1600) in
  Str.contains "_oriented" (stem (Path "deck_oriented.jpg")) = true ∧
  ∃ r w',
    extract_card_names_with_orientation env "deck_oriented.jpg" None true w = (r, w') ∧
    (r, w') =
      (let (names, w'') := extract_card_names env "deck_oriented.jpg" None true w in
       (match names with
        | Return card_names =>
            Return (ExtractionResult.make card_names "deck_oriented.jpg")
        | Raise e => Raise e
        end, w'')) ∧
    Forall (λ c, is_extraction_call c = true) (new_calls w w') ∧
    (∀ result, r = Return result →
       ExtractionResult.oriented_image_path result = "deck_oriented.jpg").
Proof.
  intros env w.
  assert (Str.contains "_oriented" (stem (Path "deck_oriented.jpg")) = true) as H
    by reflexivity.
  split; [exact H|].
  exact (oriented_marker_skips_detection env "deck_oriented.jpg" None true w H).
Defined.


(** C5 on a JPEG of 1600 by 1200 under the default bound of 2048. *)
Lemma accepted_and_small_images_are_left_alone_witness :
  let env := studio 0 [] in
  let how := {| format := None; quality := None; optimize := false |} in
  let img := Image.make "RGB" (1600, 1200) (Pixels 0) in
  let w := on_disk "Alice 3-1.jpg" (Encoded how img) in
  _convert_to_compatible_format env "Alice 3-1.jpg" w = (Return "Alice 3-1.jpg", w) ∧
  resize_image_if_needed env "Alice 3-1.jpg" None w = (Return "Alice 3-1.jpg", w).
Proof.
  intros env how img w.
  destruct (accepted_and_small_images_are_left_alone env "Alice 3-1.jpg" None how img w)
    as [Hconvert Hresize].
  split.
  - apply Hconvert. vm_compute. constructor.
  - apply Hresize; [reflexivity|]. vm_compute. split; discriminate.
Defined.

(** C6 at a grey-scale TIFF with an alpha channel: its mode, ["LA"],
    carries transparency but is neither ["RGBA"] nor ["P"], so the Format
    Normalizer converts it to RGB and writes a JPEG, and the
    transparency is lost. *)
Theorem grey_alpha_is_written_as_jpeg :
  let w := on_disk "scan.tiff" (photo "LA" 1200 900) in
  let written :=
    Encoded {| format := Some "JPEG"; quality := Some 95; optimize := true |}
      (Image.make "RGB" (1200, 900) (Converted "RGB" (Pixels 0))) in
  has_alpha "LA" = true ∧
  has_alpha "RGB" = false ∧
  _convert_to_compatible_format (studio 0 []) "scan.tiff" w
    = (Return "scan_converted.jpg",
       with_disk (<["scan_converted.jpg" := written]> (disk w)) w).
Proof. vm_compute. done. Qed.

(** C7 as stated fails: a PNG screenshot with an alpha channel that was
    saved under a [.jpg] name opens as ["RGBA"]; detection answers 90,
    PIL refuses to write the rotated image as JPEG, and the rotation
    hands back the input path with nothing written. *)
Lemma quarter_turn_lost_when_save_fails :
  ¬ quarter_turn_always_persists (studio 90 [["Lightning Bolt"]]) "deck.jpg"
      (on_disk "deck.jpg" (photo "RGBA" 800 600)).
Proof.
  intros H.
  set (env := studio 90 [["Lightning Bolt"]]) in *.
  set (w0 := on_disk "deck.jpg" (photo "RGBA" 800 600)) in *.
  pose (w := (detect_image_orientation env "deck.jpg" w0).2).
  assert (detect_image_orientation env "deck.jpg" w0 = (Return 90, w)) as Hdetect
    by (vm_compute; reflexivity).
  destruct (H w Hdetect) as (out & w' & Hrot & Hne & _).
  vm_compute in Hrot. injection Hrot as <- _. by apply Hne.
Qed.

(** C7, amended, on a photograph of 1600 by 1200 lying on its side. *)
Lemma quarter_turn_writes_oriented_copy_witness :
  let env := studio 90 [["Lightning Bolt"]] in
  let img := Image.make "RGB" (1600, 1200) (Pixels 0) in
  let how := {| format := None; quality := None; optimize := false |} in
  let w0 := on_disk "deck.jpg" (Encoded how img) in
  let w := (detect_image_orientation env "deck.jpg" w0).2 in
  let out := marked "_oriented" "deck.jpg" in
  let rotated_img := Image_rotate env 270 img in
  let args := save_kwargs env (Str.lower (suffix (Path out))) in
  let w' := with_disk (<[out := Encoded args rotated_img]> (disk w)) w in
  out = "deck_oriented.jpg" ∧
  Image.size rotated_img = (1200, 1600) ∧
  rotate_and_save_image env "deck.jpg" 90 (Some out) w = (Return out, w') ∧
  oriented_copy "deck.jpg" w w' out.
Proof.
  intros env img how w0 w out rotated_img args w'.
  assert (disk w !! "deck.jpg" = Some (Encoded how img)) as Hf by reflexivity.
  assert (save_ok env out args rotated_img = true) as Hsave by reflexivity.
  destruct (quarter_turn_writes_oriented_copy env "deck.jpg" how img None true w0 w Hf Hsave)
    as (Hrot & Hcopy & _).
  split; [reflexivity|]. split; [reflexivity|]. split; [exact Hrot|exact Hcopy].
Defined.

(** C8 at a bitmap with a cube id whose CubeCobra answer has an
    unexpected shape: the converted copy is written, the fetch raises
    before the [try] block is entered, and the copy stays on the disk. *)
Theorem converted_copy_outlives_a_failed_fetch :
  let w := on_disk "deck.bmp" (photo "RGB" 1600 1200) in
  let r := extract_card_names odd_cube "deck.bmp" (Some "vintage") true w in
  r.1 = Raise TypeError ∧
  disk w !! "deck_converted.jpg" = None ∧
  is_Some (disk r.2 !! "deck_converted.jpg").
Proof. vm_compute. split_and!; [done|done|by eexists]. Qed.

(** [extract_card_names] on a path nobody wrote. *)
Lemma missing_source_file_surfaces_witness :
  let w := on_disk "deck.jpg" (photo "RGB" 1600 1200) in
  disk w !! "missing.heic" = None ∧
  extract_card_names (studio 0 []) "missing.heic" (Some "vintage") true w
    = (Raise FileNotFoundError, w).
Proof.
  intros w.
  assert (disk w !! "missing.heic" = None) as H by reflexivity.
  split; [exact H|].
  exact (missing_source_file_surfaces (studio 0 []) "missing.heic" (Some "vintage") true w H).
Defined.


(** C10 on the screenshot of C7: the rotation by 90 fails, the input
    path comes back, and the composed entry point returns the names
    together with the unrotated input path. *)
Lemma failed_rotation_returns_input_path_witness :
  let env := studio 90 [[]; ["Lightning Bolt"]] in
  let w0 := on_disk "deck.jpg" (photo "RGBA" 800 600) in
  let w := (detect_image_orientation env "deck.jpg" w0).2 in
  let out := Some (marked "_oriented" "deck.jpg") in
  rotation_fails env "deck.jpg" 90 out w ∧
  rotate_and_save_image env "deck.jpg" 90 out w = (Return "deck.jpg", w) ∧
  (extract_card_names_with_orientation env "deck.jpg" None true w0).1
    = Return (ExtractionResult.make ["Lightning Bolt"] "deck.jpg").
Proof.
  intros env w0 w out.
  assert (90 ≠ 0) as Hr by lia.
  assert (rotation_fails env "deck.jpg" 90 out w) as Hfail by (vm_compute; reflexivity).
  destruct (failed_rotation_returns_input_path env "deck.jpg" 90 out None true w0 w Hr Hfail)
    as [Hrot Hcomposed].
  split; [exact Hfail|]. split; [exact Hrot|].
  rewrite Hcomposed; [| reflexivity | reflexivity | vm_compute; reflexivity].
  vm_compute. reflexivity.
Defined.
End Witnesses.

(** ** Further properties at concrete inputs *)

Section ExtraWitnesses.
Import Scenario Cases PurePath.

(** X1 on a mainboard that lists a card twice. *)
Lemma fetched_list_is_sorted_and_duplicate_free_witness :
  let env := cube_shop (MainboardNames ["Counterspell"; "Brainstorm"; "Counterspell"]) 0 [] in
  let w := on_disk "deck.jpg" (photo "RGB" 1600 1200) in
  fetch_cubecobra_list env "vintage" w
    = (Return (Some ["Brainstorm"; "Counterspell"]), log_fetch "vintage" w) ∧
  StronglySorted String.le ["Brainstorm"; "Counterspell"] ∧
  NoDup ["Brainstorm"; "Counterspell"].
Proof.
  intros env w.
  assert (fetch_cubecobra_list env "vintage" w
          = (Return (Some ["Brainstorm"; "Counterspell"]), log_fetch "vintage" w)) as H
    by (vm_compute; reflexivity).
  destruct (fetched_list_is_sorted_and_duplicate_free env "vintage" w _ _ H)
    as (names & _ & Hsorted & Hnodup & _).
  split; [exact H|]. split; [exact Hsorted|exact Hnodup].
Defined.

(** X2 on a reply whose cards have a maybeboard only. *)
Lemma missing_keys_give_no_reference_list_witness :
  let env := cube_shop RequestFailed 0 [] in
  let w := on_disk "deck.jpg" (photo "RGB" 1600 1200) in
  let cube_data := JObject {[ "cards" := JObject {[ "maybeboard" := JArray [] ]} ]} in
  cubecobra_reply_of (Some cube_data) = Some (cubecobra env "vintage") ∧
  fetch_cubecobra_list env "vintage" w = (Return None, log_fetch "vintage" w).
Proof.
  intros env w cube_data.
  assert (cubecobra_reply_of (Some cube_data) = Some (cubecobra env "vintage")) as H
    by (vm_compute; reflexivity).
  split; [exact H|].
  apply (missing_keys_give_no_reference_list env "vintage" cube_data w H).
  eexists. split; [reflexivity|]. right. eexists. split; reflexivity.
Defined.

(** X3 on a mainboard of two cards. *)
Lemma well_formed_reply_lists_every_card_witness :
  let names := ["Lightning Bolt"; "Counterspell"] in
  let env := cube_shop (MainboardNames names) 0 [] in
  let w := on_disk "deck.jpg" (photo "RGB" 1600 1200) in
  cubecobra_reply_of (Some (cube_json (JArray (card <$> names))))
    = Some (cubecobra env "vintage") ∧
  fetch_cubecobra_list env "vintage" w
    = (Return (Some ["Counterspell"; "Lightning Bolt"]), log_fetch "vintage" w).
Proof.
  intros names env w.
  assert (cubecobra_reply_of (Some (cube_json (JArray (card <$> names))))
          = Some (cubecobra env "vintage")) as H by (vm_compute; reflexivity).
  split; [exact H|].
  refine (proj2 (well_formed_reply_lists_every_card env "vintage" _ _ (card <$> names) names w
                   H eq_refl eq_refl _)).
  repeat constructor; eexists _, _; split_and!; reflexivity.
Defined.

(** X4 on a reply whose ['cards'] is the empty list. *)
Lemma uncaught_exceptions_of_the_mainboard_loop_witness :
  let cube_data := JObject {[ "cards" := JArray [] ]} in
  mainboard_card_names cube_data = Uncaught TypeError ∧
  cubecobra_reply_of (Some cube_data) = Some UnexpectedShape.
Proof.
  intros cube_data.
  assert (mainboard_card_names cube_data = Uncaught TypeError) as H by reflexivity.
  split; [exact H|].
  destruct (uncaught_exceptions_of_the_mainboard_loop cube_data TypeError H)
    as [(_ & Hreply & _)|(He & _)]; [exact Hreply|discriminate He].
Defined.

(** The other exception of the loop, on a card whose ['details'] are a
    string and that has no ['name']: the fetch raises [AttributeError],
    and [extract_card_names] with it, before any engine call. *)
Example unnamed_card_fails_the_extraction :
  let cube_data :=
    cube_json (JArray [JObject {[ "cardID" := JString "0000"; "details" := JString "n/a" ]}]) in
  let env := cube_shop UnnamedCard 0 [] in
  let w := on_disk "deck.jpg" (photo "RGB" 1600 1200) in
  cubecobra_reply_of (Some cube_data) = Some (cubecobra env "vintage") ∧
  extract_card_names env "deck.jpg" (Some "vintage") true w
    = (Raise AttributeError, log_fetch "vintage" w).
Proof. split; vm_compute; reflexivity. Qed.

(** X7 on a PNG of 6000 by 4000 under the default bound. *)
Lemma resizing_twice_changes_nothing_witness :
  let env := studio 0 [] in
  let w := on_disk "deck.png" (photo "RGB" 6000 4000) in
  (∀ bound size,
     fst (thumbnail_size env bound size) ≤ fst bound ∧
     snd (thumbnail_size env bound size) ≤ snd bound) ∧
  ∃ w',
    resize_image_if_needed env "deck.png" None w = (Return "deck_resized.png", w') ∧
    resize_image_if_needed env "deck_resized.png" None w' = (Return "deck_resized.png", w').
Proof.
  intros env w.
  assert (∀ bound size,
            fst (thumbnail_size env bound size) ≤ fst bound ∧
            snd (thumbnail_size env bound size) ≤ snd bound) as Hpil.
  { intros bound size. simpl. lia. }
  split; [exact Hpil|].
  pose (w' := (resize_image_if_needed env "deck.png" None w).2).
  assert (resize_image_if_needed env "deck.png" None w = (Return "deck_resized.png", w')) as H
    by (vm_compute; reflexivity).
  exists w'. split; [exact H|].
  exact (proj1 (resizing_twice_changes_nothing env "deck.png" None w _ w' Hpil H)).
Defined.

(** X10 on a bitmap, which is converted for the call. *)
Lemma unparsed_orientation_response_exits_witness :
  let w := on_disk "deck.bmp" (photo "RGB" 1600 1200) in
  is_Some (disk w !! "deck.bmp") ∧
  ∃ w',
    detect_image_orientation mute "deck.bmp" w = (Raise SystemExit, w') ∧
    disk w' ⊆ disk w.
Proof.
  intros w.
  assert (is_Some (disk w !! "deck.bmp")) as Hf by (eexists; reflexivity).
  assert (∀ image, orientation_engine mute (length (engine_log w)) image = Response None)
    as Hengine by reflexivity.
  split; [exact Hf|].
  destruct (unparsed_orientation_response_exits mute "deck.bmp" None true w Hf Hengine)
    as (w' & Hrun & _ & Hdisk & _).
  exists w'. split; [exact Hrun|exact Hdisk].
Defined.

(** X11 on a path nobody wrote, without the marker. *)
Lemma missing_source_with_orientation_witness :
  let w := on_disk "deck.jpg" (photo "RGB" 1600 1200) in
  disk w !! "other.jpg" = None ∧
  extract_card_names_with_orientation (studio 0 []) "other.jpg" None true w
    = (Raise UnboundLocalError, w).
Proof.
  intros w.
  assert (disk w !! "other.jpg" = None) as H by reflexivity.
  split; [exact H|].
  exact (missing_source_with_orientation (studio 0 []) "other.jpg" None true w H).
Defined.

(** X12 on a large bitmap, which is converted and then resized. *)
Lemma extract_card_names_touches_only_its_siblings_witness :
  let env := studio 0 [["Lightning Bolt"]] in
  let w := on_disk "deck.bmp" (photo "RGB" 6000 4000) in
  let w' := (extract_card_names env "deck.bmp" None true w).2 in
  extract_card_names env "deck.bmp" None true w = (Return ["Lightning Bolt"], w') ∧
  temporary_names "deck.bmp"
    = ["deck_converted.png"; "deck_converted.jpg"; "deck_resized.bmp";
       "deck_converted_resized.png"; "deck_converted_resized.jpg"] ∧
  disk w' !! "deck.bmp" = disk w !! "deck.bmp".
Proof.
  intros env w w'.
  assert (extract_card_names env "deck.bmp" None true w = (Return ["Lightning Bolt"], w')) as H
    by (vm_compute; reflexivity).
  split; [exact H|]. split; [reflexivity|].
  destruct (extract_card_names_touches_only_its_siblings env "deck.bmp" None true w _ w' H)
    as (Hsrc & Hframe & _).
  exact (Hframe "deck.bmp" Hsrc).
Defined.

(** X14 with a reference list and an engine that parses nothing. *)
Lemma engine_failure_yields_an_empty_list_witness :
  let env := cube_shop (MainboardNames ["Counterspell"]) 0 [] in
  let w := on_disk "deck.jpg" (photo "RGB" 1600 1200) in
  let w' := (extract_card_names env "deck.jpg" (Some "vintage") true w).2 in
  (∀ n p image, pass_result env n (ExtractionCall p image) = []) ∧
  extract_card_names env "deck.jpg" (Some "vintage") true w = (Return [], w') ∧
  length (new_calls w w') = 1%nat.
Proof.
  intros env w w'.
  assert (∀ n p image, pass_result env n (ExtractionCall p image) = []) as Hengine.
  { intros n p image. by destruct n. }
  assert (extract_card_names env "deck.jpg" (Some "vintage") true w = (Return [], w')) as H
    by (vm_compute; reflexivity).
  split; [exact Hengine|]. split; [exact H|].
  destruct (engine_failure_yields_an_empty_list env "deck.jpg" (Some "vintage") true w _ w'
              Hengine H) as [(_ & p & image & ->)|(e & He & _)];
    [reflexivity|discriminate He].
Defined.

(** X15 with the argument switched off and a name the engine repeats. *)
Lemma single_pass_mode_returns_the_engine_list_witness :
  let env := studio 0 [["Lightning Bolt"; "Lightning Bolt"]] in
  let w := on_disk "deck.jpg" (photo "RGB" 1600 1200) in
  let w' := (extract_card_names env "deck.jpg" None false w).2 in
  false && get_use_multi_pass_detection (config env) = false ∧
  extract_card_names env "deck.jpg" None false w
    = (Return ["Lightning Bolt"; "Lightning Bolt"], w') ∧
  length (new_calls w w') = 1%nat.
Proof.
  intros env w w'.
  assert (false && get_use_multi_pass_detection (config env) = false) as Hoff by reflexivity.
  assert (extract_card_names env "deck.jpg" None false w
          = (Return ["Lightning Bolt"; "Lightning Bolt"], w')) as H
    by (vm_compute; reflexivity).
  split; [exact Hoff|]. split; [exact H|].
  destruct (single_pass_mode_returns_the_engine_list env "deck.jpg" None false w _ w' Hoff H)
    as (p & image & -> & _). reflexivity.
Defined.

(** X18 on a photograph lying on its side. *)
Lemma reported_oriented_path_is_on_disk_witness :
  let env := studio 90 [[]; ["Lightning Bolt"]] in
  let w := on_disk "deck.jpg" (photo "RGB" 1600 1200) in
  let w' := (extract_card_names_with_orientation env "deck.jpg" None true w).2 in
  let result := ExtractionResult.make ["Lightning Bolt"] "deck_oriented.jpg" in
  extract_card_names_with_orientation env "deck.jpg" None true w = (Return result, w') ∧
  is_Some (disk w' !! "deck_oriented.jpg").
Proof.
  intros env w w' result.
  assert (extract_card_names_with_orientation env "deck.jpg" None true w
          = (Return result, w')) as H by (vm_compute; reflexivity).
  split; [exact H|].
  exact (proj1 (proj2 (reported_oriented_path_is_on_disk env "deck.jpg" None true w result w' H))).
Defined.

(** X19 on the resized copy of an oriented copy. *)
Lemma pipeline_names_are_siblings_witness :
  "photos/deck_oriented_resized.jpg" ∈ pipeline_names "photos/deck.jpg" ∧
  parent (Path "photos/deck_oriented_resized.jpg") = parent (Path "photos/deck.jpg").
Proof.
  assert ("photos/deck_oriented_resized.jpg" ∈ pipeline_names "photos/deck.jpg") as H.
  { vm_compute. do 8 right. left. }
  split; [exact H|].
  exact (proj1 (pipeline_names_are_siblings "photos/deck.jpg" _ H)).
Defined.

(** X20 at the default deck size. *)
Lemma below_coverage_is_nine_tenths_witness :
  0 ≤ 40 ≤ 4096 ∧ below_coverage 35 40 = Some true.
Proof.
  assert (0 ≤ 40 ≤ 4096) as H by lia.
  split; [exact H|]. exact (below_coverage_is_nine_tenths 35 40 H).
Defined.


(** X22 on a directory whose second photograph PIL cannot read. *)
Lemma batch_stops_at_first_failure_witness :
  let env := studio 0 [["Lightning Bolt"]] in
  let os_listdir := listing ["Alice 3-1.jpg"; "scan.heic"; "Bob 1-2.png"] in
  let w := {| disk := {[ "images/Alice 3-1.jpg" := photo "RGB" 1600 1200;
                         "images/scan.heic" := Undecodable 4096;
                         "images/Bob 1-2.png" := photo "RGB" 1200 1600 ]};
              engine_log := []; fetch_log := [] |} in
  (process_multiple_images env os_listdir "images" None w).1 = Raise UnidentifiedImageError.
Proof.
  intros env os_listdir w.
  pose (r1 := process_images env "images" None ["Alice 3-1.jpg"] ∅ w).
  pose (r2 := extract_card_names env (os_path_join "images" "scan.heic") None true r1.2).
  assert (process_images env "images" None ["Alice 3-1.jpg"] ∅ w
          = (Return {[ "Alice 3-1.jpg" := ["Lightning Bolt"] ]}, r1.2)) as H1
    by (vm_compute; reflexivity).
  assert (extract_card_names env (os_path_join "images" "scan.heic") None true r1.2
          = (Raise UnidentifiedImageError, r2.2)) as H2 by (vm_compute; reflexivity).
  by rewrite (batch_stops_at_first_failure env os_listdir "images" None
                ["Alice 3-1.jpg"] "scan.heic" ["Bob 1-2.png"] w _ r1.2 _ r2.2
                eq_refl H1 eq_refl H2).
Defined.

(** X23 with and without a trailing slash on the directory. *)
Lemma batch_paths_are_directory_entries_witness :
  plain "Alice 3-1.jpg" ∧
  os_path_join "images/" "Alice 3-1.jpg" = "images/Alice 3-1.jpg" ∧
  os_path_join "images" "Alice 3-1.jpg" = "images/Alice 3-1.jpg" ∧
  name (Path (os_path_join "images" "Alice 3-1.jpg")) = "Alice 3-1.jpg".
Proof.
  assert (plain "Alice 3-1.jpg") as H by (split; reflexivity).
  split; [exact H|]. split; [reflexivity|]. split; [reflexivity|].
  exact (proj1 (proj2 (batch_paths_are_directory_entries "images" "Alice 3-1.jpg" H))).
Defined.
End ExtraWitnesses.

Section CallerWitnesses.
Import Scenario Cases Desk PurePath.

(** X25 with an engine that parses nothing. *)
Lemma engine_failure_stores_nothing_witness :
  let env := studio 0 [] in
  let w := on_disk "Alice 3-1.jpg" (photo "RGB" 1600 1200) in
  let r := extract_card_names_with_orientation env "Alice 3-1.jpg" (Some "vintage") true w in
  r.1 = Return (ExtractionResult.make [] "Alice 3-1.jpg") ∧
  process env "Alice 3-1.jpg" (Some "vintage") (Some alice) w = (Return None, r.2).
Proof.
  intros env w r.
  assert (is_Some (disk w !! "Alice 3-1.jpg")) as Hf by (eexists; reflexivity).
  assert (∀ n p image, pass_result env n (ExtractionCall p image) = []) as Hengine.
  { intros n p image. by destruct n. }
  assert (extract_card_names_with_orientation env "Alice 3-1.jpg" (Some "vintage") true w
          = (Return (ExtractionResult.make [] "Alice 3-1.jpg"), r.2)) as Hrun
    by (vm_compute; reflexivity).
  split; [unfold r at 1; by rewrite Hrun|].
  exact (engine_failure_stores_nothing env nat (raise SystemExit) "20250101_120000" "/srv"
           count_cards locked (λ _, mret ()) "Alice 3-1.jpg" (Some "vintage") alice w _ r.2
           Hf Hengine Hrun).
Defined.

(** X27 on a photograph with two cards and no cube id. *)
Lemma success_message_counts_the_names_witness :
  let env := studio 0 [[]; ["Lightning Bolt"; "Counterspell"]] in
  let w := on_disk "Alice 3-1.jpg" (photo "RGB" 1600 1200) in
  let r := process env "Alice 3-1.jpg" None (Some alice) w in
  r.1 = Return (Some "Deck processed successfully - 2 cards") ∧
  is_Some (disk w !! "Alice 3-1.jpg").
Proof.
  intros env w r.
  assert (process env "Alice 3-1.jpg" None (Some alice) w
          = (Return (Some "Deck processed successfully - 2 cards"), r.2)) as Hrun
    by (vm_compute; reflexivity).
  split; [unfold r at 1; by rewrite Hrun|].
  exact (proj1 (success_message_counts_the_names env nat (raise SystemExit) "20250101_120000"
                  "/srv" count_cards locked (λ _, mret ()) "Alice 3-1.jpg" None (Some alice)
                  w _ r.2 Hrun)).
Defined.

(** X26 with a database that raises. *)
Lemma database_failure_is_not_reported_witness :
  let env := studio 0 [[]; ["Lightning Bolt"; "Counterspell"]] in
  let w := on_disk "Alice 3-1.jpg" (photo "RGB" 1600 1200) in
  (process env "Alice 3-1.jpg" (Some "vintage") (Some alice) w).1
  = Return (Some "Deck processed successfully - 2 cards").
Proof.
  intros env w.
  pose (r := extract_card_names_with_orientation env "Alice 3-1.jpg" (Some "vintage") true w).
  pose (result := ExtractionResult.make ["Counterspell"; "Lightning Bolt"] "Alice 3-1.jpg").
  assert (is_Some (disk w !! "Alice 3-1.jpg")) as Hf by (eexists; reflexivity).
  assert ("vintage" ≠ "") as Hid by discriminate.
  assert (extract_card_names_with_orientation env "Alice 3-1.jpg" (Some "vintage") true w
          = (Return result, r.2)) as Hrun by (vm_compute; reflexivity).
  assert (ExtractionResult.card_names result ≠ []) as Hnames by discriminate.
  by rewrite (database_failure_is_not_reported env nat (raise SystemExit) "20250101_120000"
                "/srv" count_cards locked (λ _, mret ()) "Alice 3-1.jpg" "vintage" alice w
                result r.2 2%nat r.2 (Raise TypeError) r.2 Hf Hid Hrun Hnames eq_refl eq_refl
                (or_intror (ex_intro _ TypeError (conj eq_refl eq_refl)))).
Defined.

(** X24 in a directory that holds a file of that name. *)
Lemma a_large_photograph_claims_its_resized_name_witness :
  let env := studio 0 [["Lightning Bolt"]] in
  let w := {| disk := {[ "deck.jpg" := photo "RGB" 4000 3000;
                         "deck_resized.jpg" := photo "RGB" 1600 1200 ]};
              engine_log := []; fetch_log := [] |} in
  let r := extract_card_names env "deck.jpg" None true w in
  r.1 = Return ["Lightning Bolt"] ∧
  is_Some (disk w !! "deck_resized.jpg") ∧
  disk r.2 !! "deck_resized.jpg" = None.
Proof.
  intros env w r.
  assert (extract_card_names env "deck.jpg" None true w = (Return ["Lightning Bolt"], r.2))
    as Hrun by (vm_compute; reflexivity).
  destruct (a_large_photograph_claims_its_resized_name env "deck.jpg" None true
              {| format := None; quality := None; optimize := false |}
              (Image.make "RGB" (4000, 3000) (Pixels 0)) w ["Lightning Bolt"] r.2)
    as [Hdisk _];
    [vm_compute; constructor|reflexivity|vm_compute; intros [H _]; by apply H|exact Hrun|].
  split; [unfold r at 1; by rewrite Hrun|]. split; [eexists; reflexivity|].
  rewrite Hdisk. apply lookup_delete_eq.
Defined.
End CallerWitnesses.
